(** * Investment flow: [InvestmentEscrow] and [TokenSale]

    A shallow embedding of the two Solidity contracts of the on-chain
    investment flow, and the properties of their state machines.

    Conventions of the embedding:
    - a [uint256] is an [N]; Solidity 0.8 arithmetic is checked, so every
      [+], [-], [*] and [/] of the source is one of the [checked_*]
      operations below and a failed check reverts the call;
    - an [address] is an [N], [address(0)] is [0];
    - an external entry point is a function from the call context and the
      contract's storage to [option]: [None] is a revert (the storage is
      left as it was), [Some] carries the new storage and the value
      transfers the call performed;
    - the answers of other contracts (fee oracle, escrow factory, token,
      recipients of value) are inputs of the call, gathered in a record;
      a call made under [try] has three outcomes, since [catch] does not
      handle every failure;
    - an entry point that is not [payable] reverts on a call that carries
      value;
    - a call runs to its end before the next one starts: the guarded entry
      points are [nonReentrant], and events are left out. *)

From Stdlib Require Import NArith Lia String.
From stdpp Require Import base decidable option numbers list gmap.

Local Open Scope N_scope.

(** ** EVM words and checked arithmetic *)

Abbreviation address := N.
Abbreviation uint256 := N.

Definition MAX_UINT256 : N := 2 ^ 256 - 1.

Definition checked_add (a b : N) : option N :=
  guard (a + b <= MAX_UINT256);; Some (a + b).

Definition checked_sub (a b : N) : option N :=
  guard (b <= a);; Some (a - b).

Definition checked_mul (a b : N) : option N :=
  guard (a * b <= MAX_UINT256);; Some (a * b).

Definition checked_div (a b : N) : option N :=
  guard (b ≠ 0);; Some (a / b).

(** The call context: [msg.sender], [msg.value] and [block.timestamp]. *)
Record Msg := {
  sender : address;
  value : uint256;
  timestamp : uint256
}.

Definition at_time (who : address) (paid now : uint256) : Msg :=
  {| sender := who; value := paid; timestamp := now |}.

(** The check the compiler puts in front of every entry point that is not
    [payable]: a call that carries value reverts. *)
Definition nonpayable (m : Msg) : option () :=
  guard (value m = 0);; Some ().

(** The outcome of an external call made under [try]: the callee answers;
    or it reverts, which [catch] handles; or the call fails in a way
    [catch] does not handle, because there is no code at the address or
    the returned data does not decode, and the caller reverts. *)
Inductive Tried (A : Type) :=
| Returned (a : A)
| Caught
| Uncaught.
Arguments Returned {A} a.
Arguments Caught {A}.
Arguments Uncaught {A}.

#[global] Instance Tried_eq_dec `{EqDecision A} : EqDecision (Tried A).
Proof. solve_decision. Defined.

(** What [try] gives the caller to go on with. *)
Definition tried {A} (r : Tried A) : option (option A) :=
  match r with
  | Returned a => Some (Some a)
  | Caught => Some None
  | Uncaught => None
  end.

(** A value transfer performed by a call. In the payment currency
    ([address(0)] is the native asset): [Pay] out of the contract,
    [Collect] into the contract by [safeTransferFrom], [Route] between two
    other accounts by [safeTransferFrom]. In the token on sale:
    [TokenTransfer] out of the sale's holdings and [TokenMint]. *)
Inductive Action :=
| Pay (currency to : address) (amt : uint256)
| Collect (currency from : address) (amt : uint256)
| Route (currency from to : address) (amt : uint256)
| TokenTransfer (to : address) (amt : uint256)
| TokenMint (to : address) (amt : uint256).

(** Inverting a successful run of the [option] monad. *)
Ltac inv_step :=
  match goal with
  | H : Some _ = Some _ |- _ => injection H as H; try subst
  | H : (_, _) = (_, _) |- _ => injection H as ??; try subst
  | H : None = Some _ |- _ => discriminate H
  | H : mbind _ (guard ?P) = Some _ |- _ =>
      let G := fresh "G" in
      let E := fresh "E" in
      destruct (guard P) as [G|] eqn:E;
      [clear E; cbn [mbind option_bind] in H | discriminate H]
  | H : mbind _ ?e = Some _ |- _ =>
      let E := fresh "E" in
      destruct e eqn:E; [cbn [mbind option_bind] in H | discriminate H]
  | H : (let '(_, _) := ?p in _) = Some _ |- _ => destruct p
  | H : match ?o with Some _ => _ | None => _ end = Some _ |- _ =>
      let E := fresh "E" in destruct o eqn:E
  | H : (if decide ?P then _ else _) = Some _ |- _ => destruct (decide P)
  | H : (if ?b then _ else _) = Some _ |- _ =>
      let E := fresh "E" in destruct b eqn:E
  | H : checked_add _ _ = Some _ |- _ => unfold checked_add in H
  | H : checked_sub _ _ = Some _ |- _ => unfold checked_sub in H
  | H : checked_mul _ _ = Some _ |- _ => unfold checked_mul in H
  | H : checked_div _ _ = Some _ |- _ => unfold checked_div in H
  end.

Ltac inv_some := repeat inv_step.

Ltac splits := repeat match goal with |- _ ∧ _ => split end.

(** ** The escrow *)

Module InvestmentEscrow.

Inductive Status :=
| Active | Approved | PartiallyApproved | Rejected | Executed | Refunded | Expired.

#[global] Instance Status_eq_dec : EqDecision Status.
Proof. solve_decision. Defined.

Definition MAX_ESCROW_DURATION : N := 30 * 86400.
Definition ADMIN_ACTION_DEADLINE : N := 14 * 86400.

(** Storage of one escrow. [balance] is what the contract holds of its
    payment currency: [address(this).balance] for a native-asset escrow,
    [paymentToken.balanceOf(address(this))] otherwise ([_getBalance]). *)
Record Escrow := {
  factory : address;
  investor : address;
  tokenSale : address;
  paymentToken : address;
  createdAt : uint256;
  expirationTime : uint256;
  adminDeadline : uint256;
  amount : uint256;
  tokenAmount : uint256;
  status : Status;
  rejectionReason : string;
  approvedAmount : uint256;
  refundedAmount : uint256;
  balance : uint256
}.

Definition set_amount (v : uint256) (e : Escrow) : Escrow :=
  {| factory := factory e; investor := investor e; tokenSale := tokenSale e;
     paymentToken := paymentToken e; createdAt := createdAt e;
     expirationTime := expirationTime e; adminDeadline := adminDeadline e;
     amount := v; tokenAmount := tokenAmount e; status := status e;
     rejectionReason := rejectionReason e; approvedAmount := approvedAmount e;
     refundedAmount := refundedAmount e; balance := balance e |}.

Definition set_tokenAmount (v : uint256) (e : Escrow) : Escrow :=
  {| factory := factory e; investor := investor e; tokenSale := tokenSale e;
     paymentToken := paymentToken e; createdAt := createdAt e;
     expirationTime := expirationTime e; adminDeadline := adminDeadline e;
     amount := amount e; tokenAmount := v; status := status e;
     rejectionReason := rejectionReason e; approvedAmount := approvedAmount e;
     refundedAmount := refundedAmount e; balance := balance e |}.

Definition set_status (v : Status) (e : Escrow) : Escrow :=
  {| factory := factory e; investor := investor e; tokenSale := tokenSale e;
     paymentToken := paymentToken e; createdAt := createdAt e;
     expirationTime := expirationTime e; adminDeadline := adminDeadline e;
     amount := amount e; tokenAmount := tokenAmount e; status := v;
     rejectionReason := rejectionReason e; approvedAmount := approvedAmount e;
     refundedAmount := refundedAmount e; balance := balance e |}.

Definition set_rejectionReason (v : string) (e : Escrow) : Escrow :=
  {| factory := factory e; investor := investor e; tokenSale := tokenSale e;
     paymentToken := paymentToken e; createdAt := createdAt e;
     expirationTime := expirationTime e; adminDeadline := adminDeadline e;
     amount := amount e; tokenAmount := tokenAmount e; status := status e;
     rejectionReason := v; approvedAmount := approvedAmount e;
     refundedAmount := refundedAmount e; balance := balance e |}.

Definition set_approvedAmount (v : uint256) (e : Escrow) : Escrow :=
  {| factory := factory e; investor := investor e; tokenSale := tokenSale e;
     paymentToken := paymentToken e; createdAt := createdAt e;
     expirationTime := expirationTime e; adminDeadline := adminDeadline e;
     amount := amount e; tokenAmount := tokenAmount e; status := status e;
     rejectionReason := rejectionReason e; approvedAmount := v;
     refundedAmount := refundedAmount e; balance := balance e |}.

Definition set_refundedAmount (v : uint256) (e : Escrow) : Escrow :=
  {| factory := factory e; investor := investor e; tokenSale := tokenSale e;
     paymentToken := paymentToken e; createdAt := createdAt e;
     expirationTime := expirationTime e; adminDeadline := adminDeadline e;
     amount := amount e; tokenAmount := tokenAmount e; status := status e;
     rejectionReason := rejectionReason e; approvedAmount := approvedAmount e;
     refundedAmount := v; balance := balance e |}.

Definition set_balance (v : uint256) (e : Escrow) : Escrow :=
  {| factory := factory e; investor := investor e; tokenSale := tokenSale e;
     paymentToken := paymentToken e; createdAt := createdAt e;
     expirationTime := expirationTime e; adminDeadline := adminDeadline e;
     amount := amount e; tokenAmount := tokenAmount e; status := status e;
     rejectionReason := rejectionReason e; approvedAmount := approvedAmount e;
     refundedAmount := refundedAmount e; balance := v |}.

Arguments set_amount _ _ /.
Arguments set_tokenAmount _ _ /.
Arguments set_status _ _ /.
Arguments set_rejectionReason _ _ /.
Arguments set_approvedAmount _ _ /.
Arguments set_refundedAmount _ _ /.
Arguments set_balance _ _ /.

(** What the other contracts answer during one call of the escrow:
    [isAdmin] is [IEscrowFactory(factory).isAdmin]; [saleResult] is the
    outcome of [ITokenSale(tokenSale).purchaseWithEscrow], [None] when the
    sale reverts; [transferOk] tells whether the counterparty of a currency
    transfer lets it through (the investor accepts the native asset, the
    ERC20 token does not revert). *)
Record World := {
  isAdmin : address → bool;
  saleResult : option uint256;
  transferOk : bool
}.

Definition constructor (m : Msg) (_investor _tokenSale _paymentToken : address)
  : option Escrow :=
  nonpayable m;;
  guard (_investor ≠ 0);;
  guard (_tokenSale ≠ 0);;
  expiration ← checked_add (timestamp m) MAX_ESCROW_DURATION;
  deadline ← checked_add (timestamp m) ADMIN_ACTION_DEADLINE;
  Some {| factory := sender m; investor := _investor; tokenSale := _tokenSale;
          paymentToken := _paymentToken; createdAt := timestamp m;
          expirationTime := expiration; adminDeadline := deadline;
          amount := 0; tokenAmount := 0; status := Active;
          rejectionReason := EmptyString; approvedAmount := 0;
          refundedAmount := 0; balance := 0 |}.

Definition deposit (m : Msg) (w : World) (_amount : uint256) (e : Escrow)
  : option (Escrow * list Action) :=
  guard (sender m = investor e);;
  guard (status e = Active);;
  guard (amount e = 0);;
  guard (timestamp m < expirationTime e);;
  if decide (paymentToken e = 0) then
    guard (0 < value m);;
    Some (set_amount (value m) (set_balance (balance e + value m) e), [])
  else
    guard (0 < _amount);;
    guard (value m = 0);;
    guard (transferOk w = true);;
    Some (set_amount _amount (set_balance (balance e + _amount) e),
          [Collect (paymentToken e) (sender m) _amount]).

Definition _getBalance (e : Escrow) : uint256 := balance e.

(** [_executePurchase]: the approved sub-amount leaves the escrow, as the
    value attached to the call or through the allowance the sale pulls
    from, and the sale's answer is recorded. *)
Definition _executePurchase (w : World) (_amount : uint256) (e : Escrow)
  : option (Escrow * list Action) :=
  guard (_amount <= balance e);;
  bought ← saleResult w;
  Some (set_status Executed
          (set_tokenAmount bought (set_balance (balance e - _amount) e)),
        [Pay (paymentToken e) (tokenSale e) _amount]).

Definition _refund (w : World) (_to : address) (_amount : uint256) (e : Escrow)
  : option (Escrow * list Action) :=
  guard (0 < _amount);;
  guard (_amount <= balance e);;
  guard (transferOk w = true);;
  Some (set_balance (balance e - _amount) e, [Pay (paymentToken e) _to _amount]).

Definition approveAndExecute (m : Msg) (w : World) (e : Escrow)
  : option (Escrow * list Action) :=
  nonpayable m;;
  guard (isAdmin w (sender m) = true);;
  guard (status e = Active ∧ 0 < amount e);;
  guard (timestamp m < expirationTime e);;
  let e := set_approvedAmount (amount e) (set_status Approved e) in
  _executePurchase w (amount e) e.

Definition partialApproveAndExecute (m : Msg) (w : World)
    (_approvedAmount : uint256) (e : Escrow) : option (Escrow * list Action) :=
  nonpayable m;;
  guard (isAdmin w (sender m) = true);;
  guard (status e = Active ∧ 0 < amount e);;
  guard (0 < _approvedAmount ∧ _approvedAmount < amount e);;
  guard (timestamp m < expirationTime e);;
  remainder ← checked_sub (amount e) _approvedAmount;
  let e := set_refundedAmount remainder
             (set_approvedAmount _approvedAmount
                (set_status PartiallyApproved e)) in
  '(e, bought) ← _executePurchase w (approvedAmount e) e;
  '(e, back) ← _refund w (investor e) (refundedAmount e) e;
  Some (e, bought ++ back).

Definition rejectAndRefund (m : Msg) (w : World) (_reason : string) (e : Escrow)
  : option (Escrow * list Action) :=
  nonpayable m;;
  guard (isAdmin w (sender m) = true);;
  guard (status e = Active ∧ 0 < amount e);;
  let e := set_refundedAmount (amount e)
             (set_rejectionReason _reason (set_status Rejected e)) in
  _refund w (investor e) (amount e) e.

Definition canRefund (now : uint256) (e : Escrow) : bool :=
  if decide (status e = Refunded ∨ status e = Executed ∨ status e = Expired)
  then false
  else if decide (status e = Rejected) then true
  else if decide (expirationTime e <= now) then true
  else if decide (status e = Active ∧ 0 < amount e ∧ adminDeadline e <= now)
  then true
  else false.

Definition refund (m : Msg) (w : World) (e : Escrow)
  : option (Escrow * list Action) :=
  nonpayable m;;
  guard (canRefund (timestamp m) e = true);;
  let refundAmount := amount e in
  let e := if decide (status e = Active) then set_status Expired e
           else if decide (status e = Rejected) then set_status Refunded e
           else set_status Refunded e in
  let e := set_refundedAmount refundAmount e in
  _refund w (investor e) refundAmount e.

Definition emergencyWithdraw (m : Msg) (w : World) (e : Escrow)
  : option (Escrow * list Action) :=
  nonpayable m;;
  guard (isAdmin w (sender m) = true);;
  guard (status e ≠ Refunded ∧ status e ≠ Executed);;
  let withdrawAmount := _getBalance e in
  guard (0 < withdrawAmount);;
  let e := set_refundedAmount withdrawAmount (set_status Refunded e) in
  _refund w (investor e) withdrawAmount e.

(** [receive()]: a plain transfer of the native asset to the escrow. *)
Definition receive (m : Msg) (e : Escrow) : option (Escrow * list Action) :=
  guard (paymentToken e = 0);;
  Some (set_balance (balance e + value m) e, []).

(** The entry points, and [Erc20Credit]: a transfer of the payment token to
    the escrow's address made on the token contract by anyone, which no
    code of the escrow runs on. *)
Inductive Call :=
| Deposit (_amount : uint256)
| ApproveAndExecute
| PartialApproveAndExecute (_approvedAmount : uint256)
| RejectAndRefund (_reason : string)
| Refund
| EmergencyWithdraw
| Receive
| Erc20Credit (amt : uint256).

Definition exec (m : Msg) (w : World) (c : Call) (e : Escrow)
  : option (Escrow * list Action) :=
  match c with
  | Deposit a => deposit m w a e
  | ApproveAndExecute => approveAndExecute m w e
  | PartialApproveAndExecute a => partialApproveAndExecute m w a e
  | RejectAndRefund r => rejectAndRefund m w r e
  | Refund => refund m w e
  | EmergencyWithdraw => emergencyWithdraw m w e
  | Receive => receive m e
  | Erc20Credit a =>
      guard (paymentToken e ≠ 0);;
      Some (set_balance (balance e + a) e, [])
  end.

(** Funds that reach the escrow outside [deposit]. *)
Definition unsolicited (c : Call) : bool :=
  match c with
  | Receive | Erc20Credit _ => true
  | _ => false
  end.

(** States reachable from deployment by successful calls among the
    [allowed] ones. *)
Inductive reachable (allowed : Call → bool) : Escrow → Prop :=
| reach_new m i t p e :
    constructor m i t p = Some e → reachable allowed e
| reach_call e m w c e' acts :
    reachable allowed e →
    allowed c = true →
    exec m w c e = Some (e', acts) →
    reachable allowed e'.

Definition any_call (c : Call) : bool := true.

Definition terminal (e : Escrow) : Prop :=
  status e = Executed ∨ status e = Refunded ∨ status e = Expired.

Definition no_gifts (c : Call) : bool := negb (unsolicited c).

Definition no_emergency (c : Call) : bool :=
  match c with
  | EmergencyWithdraw => false
  | _ => true
  end.

(** The bookkeeping by status, whatever the escrow holds. *)
Definition booked (e : Escrow) : Prop :=
  match status e with
  | Active => approvedAmount e = 0 ∧ refundedAmount e = 0
  | Rejected | Expired => approvedAmount e = 0 ∧ refundedAmount e = amount e
  | Executed | Refunded => approvedAmount e + refundedAmount e = amount e
  | Approved | PartiallyApproved => False
  end.

(** The bookkeeping and the holdings by status, when the deposit is the
    only money that ever came in. *)
Definition funded (e : Escrow) : Prop :=
  match status e with
  | Active =>
      approvedAmount e = 0 ∧ refundedAmount e = 0 ∧ balance e = amount e
  | Rejected | Expired =>
      approvedAmount e = 0 ∧ refundedAmount e = amount e ∧ balance e = 0
  | Executed => approvedAmount e + refundedAmount e = amount e
  | Refunded =>
      approvedAmount e + refundedAmount e = amount e ∧ balance e = 0
  | Approved | PartiallyApproved => False
  end.

(** *** Scenarios *)

(** Running a list of calls, each with its context and the answers of the
    other contracts. *)
Definition run (calls : list (Msg * World * Call)) (e : Escrow) : option Escrow :=
  foldl (λ acc '(m, w, c), e ← acc; fst <$> exec m w c e) (Some e) calls.

(** Address 9 is the factory's admin, 7 the investor, 8 the sale; the sale
    answers 60 tokens and every transfer goes through. *)
Definition calm : World :=
  {| isAdmin := λ a, bool_decide (a = 9); saleResult := Some 60;
     transferOk := true |}.

(** The same, with an investor account that rejects what is sent to it. *)
Definition stubborn : World :=
  {| isAdmin := λ a, bool_decide (a = 9); saleResult := Some 60;
     transferOk := false |}.

(** A native-asset escrow deployed at time 1000. *)
Definition fresh : Escrow :=
  {| factory := 1; investor := 7; tokenSale := 8; paymentToken := 0;
     createdAt := 1000; expirationTime := 2593000; adminDeadline := 1210600;
     amount := 0; tokenAmount := 0; status := Active;
     rejectionReason := EmptyString; approvedAmount := 0; refundedAmount := 0;
     balance := 0 |}.

(** The investor deposits 100. *)
Definition deposited : Escrow := set_amount 100 (set_balance 100 fresh).

(** Someone sends 50 more by a plain transfer. *)
Definition topped_up : Escrow := set_balance 150 deposited.

(** The admin sweeps the escrow: the 150 it holds go to the investor. *)
Definition swept : Escrow :=
  set_balance 0 (set_refundedAmount 150 (set_status Refunded topped_up)).

(** The admin approves 60 of the 100 deposited; 40 go back. *)
Definition partly_executed : Escrow :=
  set_balance 0
    (set_tokenAmount 60
       (set_status Executed
          (set_refundedAmount 40 (set_approvedAmount 60 deposited)))).

(** The admin rejects the deposit of 100, which goes back. *)
Definition rejected : Escrow :=
  set_balance 0
    (set_refundedAmount 100
       (set_rejectionReason "kyc" (set_status Rejected deposited))).

(** *** Further notions *)

(** What a call may do with the funds: pay the investor, pay the sale on an
    admin's call, or collect the investor's deposit. *)
Definition sanctioned (m : Msg) (w : World) (e : Escrow) (act : Action) : Prop :=
  match act with
  | Pay currency to _ =>
      currency = paymentToken e
      ∧ (to = investor e ∨ (to = tokenSale e ∧ isAdmin w (sender m) = true))
  | Collect currency from _ =>
      currency = paymentToken e ∧ from = investor e
  | _ => False
  end.

(** The holdings by status, when the deposit is the only money that ever
    came in. *)
Definition held (e : Escrow) : Prop :=
  match status e with
  | Active => balance e = amount e
  | Rejected | Executed | Refunded | Expired => balance e = 0
  | Approved | PartiallyApproved => False
  end.

(** The immutable part of the storage. *)
Definition identity (e : Escrow) :=
  (factory e, investor e, tokenSale e, paymentToken e, createdAt e,
   expirationTime e, adminDeadline e).

End InvestmentEscrow.

(** ** The token sale *)

Module TokenSale.

(** Modelled from the spec: the enum [ITGE.State] of [interfaces/ITGE.sol],
    which is not among the sources. Its values are the three statuses
    [state()] returns. *)
Inductive State := Active | Failed | Successful.

#[global] Instance State_eq_dec : EqDecision State.
Proof. solve_decision. Defined.

(** Modelled from the spec: the struct [ITGE.TGEInfo] of
    [interfaces/ITGE.sol], which is not among the sources. Its fields are
    the ones [initialize] reads. *)
Record TGEInfo := {
  info_metadataURI : string;
  info_price : uint256;
  info_hardcap : uint256;
  info_softcap : uint256;
  info_minPurchase : uint256;
  info_maxPurchase : uint256;
  info_lockupPercent : uint256;
  info_lockupTVL : uint256;
  info_lockupDuration : uint256;
  info_duration : uint256;
  info_reservedTokenPercent : uint256;
  info_userWhitelist : list address;
  info_tokenWhitelist : list address
}.

(** Storage of the sale. A Solidity mapping is a finite map read with a
    default ([word], [flag]); [owner] and [paused] are the storage of the
    inherited [OwnableUpgradeable] and [PausableUpgradeable]. *)
Record Sale := {
  owner : address;
  paused : bool;
  token : address;
  metadataURI : string;
  price : uint256;
  hardcap : uint256;
  softcap : uint256;
  minPurchase : uint256;
  maxPurchase : uint256;
  lockupPercent : uint256;
  lockupTVL : uint256;
  lockupDuration : uint256;
  duration : uint256;
  createdAt : uint256;
  totalPurchases : uint256;
  serviceContract : address;
  tenantId : N;
  totalPurchasesInCurrency : gmap N N;
  totalParticipants : uint256;
  hasParticipated : gmap N bool;
  immediateTransfer : bool;
  paidAmount : gmap (N * N) N;
  userWhitelist : list N;
  tokenWhitelist : list N;
  reservedTokenAmount : uint256;
  isUserWhitelisted : gmap N bool;
  isTokenWhitelisted : gmap N bool;
  purchaseOf : gmap N N;
  lockedBalanceOf : gmap N N;
  lockupTVLReached : bool
}.

Definition set_owner (v : address) (s : Sale) : Sale :=
  {| owner := v; paused := paused s; token := token s;
     metadataURI := metadataURI s; price := price s; hardcap := hardcap s;
     softcap := softcap s; minPurchase := minPurchase s;
     maxPurchase := maxPurchase s; lockupPercent := lockupPercent s;
     lockupTVL := lockupTVL s; lockupDuration := lockupDuration s;
     duration := duration s; createdAt := createdAt s;
     totalPurchases := totalPurchases s;
     serviceContract := serviceContract s; tenantId := tenantId s;
     totalPurchasesInCurrency := totalPurchasesInCurrency s;
     totalParticipants := totalParticipants s;
     hasParticipated := hasParticipated s;
     immediateTransfer := immediateTransfer s; paidAmount := paidAmount s;
     userWhitelist := userWhitelist s; tokenWhitelist := tokenWhitelist s;
     reservedTokenAmount := reservedTokenAmount s;
     isUserWhitelisted := isUserWhitelisted s;
     isTokenWhitelisted := isTokenWhitelisted s; purchaseOf := purchaseOf s;
     lockedBalanceOf := lockedBalanceOf s;
     lockupTVLReached := lockupTVLReached s |}.

Definition set_paused (v : bool) (s : Sale) : Sale :=
  {| owner := owner s; paused := v; token := token s;
     metadataURI := metadataURI s; price := price s; hardcap := hardcap s;
     softcap := softcap s; minPurchase := minPurchase s;
     maxPurchase := maxPurchase s; lockupPercent := lockupPercent s;
     lockupTVL := lockupTVL s; lockupDuration := lockupDuration s;
     duration := duration s; createdAt := createdAt s;
     totalPurchases := totalPurchases s;
     serviceContract := serviceContract s; tenantId := tenantId s;
     totalPurchasesInCurrency := totalPurchasesInCurrency s;
     totalParticipants := totalParticipants s;
     hasParticipated := hasParticipated s;
     immediateTransfer := immediateTransfer s; paidAmount := paidAmount s;
     userWhitelist := userWhitelist s; tokenWhitelist := tokenWhitelist s;
     reservedTokenAmount := reservedTokenAmount s;
     isUserWhitelisted := isUserWhitelisted s;
     isTokenWhitelisted := isTokenWhitelisted s; purchaseOf := purchaseOf s;
     lockedBalanceOf := lockedBalanceOf s;
     lockupTVLReached := lockupTVLReached s |}.

Definition set_totalPurchases (v : uint256) (s : Sale) : Sale :=
  {| owner := owner s; paused := paused s; token := token s;
     metadataURI := metadataURI s; price := price s; hardcap := hardcap s;
     softcap := softcap s; minPurchase := minPurchase s;
     maxPurchase := maxPurchase s; lockupPercent := lockupPercent s;
     lockupTVL := lockupTVL s; lockupDuration := lockupDuration s;
     duration := duration s; createdAt := createdAt s; totalPurchases := v;
     serviceContract := serviceContract s; tenantId := tenantId s;
     totalPurchasesInCurrency := totalPurchasesInCurrency s;
     totalParticipants := totalParticipants s;
     hasParticipated := hasParticipated s;
     immediateTransfer := immediateTransfer s; paidAmount := paidAmount s;
     userWhitelist := userWhitelist s; tokenWhitelist := tokenWhitelist s;
     reservedTokenAmount := reservedTokenAmount s;
     isUserWhitelisted := isUserWhitelisted s;
     isTokenWhitelisted := isTokenWhitelisted s; purchaseOf := purchaseOf s;
     lockedBalanceOf := lockedBalanceOf s;
     lockupTVLReached := lockupTVLReached s |}.

Definition set_serviceContract (v : address) (s : Sale) : Sale :=
  {| owner := owner s; paused := paused s; token := token s;
     metadataURI := metadataURI s; price := price s; hardcap := hardcap s;
     softcap := softcap s; minPurchase := minPurchase s;
     maxPurchase := maxPurchase s; lockupPercent := lockupPercent s;
     lockupTVL := lockupTVL s; lockupDuration := lockupDuration s;
     duration := duration s; createdAt := createdAt s;
     totalPurchases := totalPurchases s; serviceContract := v;
     tenantId := tenantId s;
     totalPurchasesInCurrency := totalPurchasesInCurrency s;
     totalParticipants := totalParticipants s;
     hasParticipated := hasParticipated s;
     immediateTransfer := immediateTransfer s; paidAmount := paidAmount s;
     userWhitelist := userWhitelist s; tokenWhitelist := tokenWhitelist s;
     reservedTokenAmount := reservedTokenAmount s;
     isUserWhitelisted := isUserWhitelisted s;
     isTokenWhitelisted := isTokenWhitelisted s; purchaseOf := purchaseOf s;
     lockedBalanceOf := lockedBalanceOf s;
     lockupTVLReached := lockupTVLReached s |}.

Definition set_tenantId (v : N) (s : Sale) : Sale :=
  {| owner := owner s; paused := paused s; token := token s;
     metadataURI := metadataURI s; price := price s; hardcap := hardcap s;
     softcap := softcap s; minPurchase := minPurchase s;
     maxPurchase := maxPurchase s; lockupPercent := lockupPercent s;
     lockupTVL := lockupTVL s; lockupDuration := lockupDuration s;
     duration := duration s; createdAt := createdAt s;
     totalPurchases := totalPurchases s;
     serviceContract := serviceContract s; tenantId := v;
     totalPurchasesInCurrency := totalPurchasesInCurrency s;
     totalParticipants := totalParticipants s;
     hasParticipated := hasParticipated s;
     immediateTransfer := immediateTransfer s; paidAmount := paidAmount s;
     userWhitelist := userWhitelist s; tokenWhitelist := tokenWhitelist s;
     reservedTokenAmount := reservedTokenAmount s;
     isUserWhitelisted := isUserWhitelisted s;
     isTokenWhitelisted := isTokenWhitelisted s; purchaseOf := purchaseOf s;
     lockedBalanceOf := lockedBalanceOf s;
     lockupTVLReached := lockupTVLReached s |}.

Definition set_totalPurchasesInCurrency (v : gmap N N) (s : Sale) : Sale :=
  {| owner := owner s; paused := paused s; token := token s;
     metadataURI := metadataURI s; price := price s; hardcap := hardcap s;
     softcap := softcap s; minPurchase := minPurchase s;
     maxPurchase := maxPurchase s; lockupPercent := lockupPercent s;
     lockupTVL := lockupTVL s; lockupDuration := lockupDuration s;
     duration := duration s; createdAt := createdAt s;
     totalPurchases := totalPurchases s;
     serviceContract := serviceContract s; tenantId := tenantId s;
     totalPurchasesInCurrency := v; totalParticipants := totalParticipants s;
     hasParticipated := hasParticipated s;
     immediateTransfer := immediateTransfer s; paidAmount := paidAmount s;
     userWhitelist := userWhitelist s; tokenWhitelist := tokenWhitelist s;
     reservedTokenAmount := reservedTokenAmount s;
     isUserWhitelisted := isUserWhitelisted s;
     isTokenWhitelisted := isTokenWhitelisted s; purchaseOf := purchaseOf s;
     lockedBalanceOf := lockedBalanceOf s;
     lockupTVLReached := lockupTVLReached s |}.

Definition set_totalParticipants (v : uint256) (s : Sale) : Sale :=
  {| owner := owner s; paused := paused s; token := token s;
     metadataURI := metadataURI s; price := price s; hardcap := hardcap s;
     softcap := softcap s; minPurchase := minPurchase s;
     maxPurchase := maxPurchase s; lockupPercent := lockupPercent s;
     lockupTVL := lockupTVL s; lockupDuration := lockupDuration s;
     duration := duration s; createdAt := createdAt s;
     totalPurchases := totalPurchases s;
     serviceContract := serviceContract s; tenantId := tenantId s;
     totalPurchasesInCurrency := totalPurchasesInCurrency s;
     totalParticipants := v; hasParticipated := hasParticipated s;
     immediateTransfer := immediateTransfer s; paidAmount := paidAmount s;
     userWhitelist := userWhitelist s; tokenWhitelist := tokenWhitelist s;
     reservedTokenAmount := reservedTokenAmount s;
     isUserWhitelisted := isUserWhitelisted s;
     isTokenWhitelisted := isTokenWhitelisted s; purchaseOf := purchaseOf s;
     lockedBalanceOf := lockedBalanceOf s;
     lockupTVLReached := lockupTVLReached s |}.

Definition set_hasParticipated (v : gmap N bool) (s : Sale) : Sale :=
  {| owner := owner s; paused := paused s; token := token s;
     metadataURI := metadataURI s; price := price s; hardcap := hardcap s;
     softcap := softcap s; minPurchase := minPurchase s;
     maxPurchase := maxPurchase s; lockupPercent := lockupPercent s;
     lockupTVL := lockupTVL s; lockupDuration := lockupDuration s;
     duration := duration s; createdAt := createdAt s;
     totalPurchases := totalPurchases s;
     serviceContract := serviceContract s; tenantId := tenantId s;
     totalPurchasesInCurrency := totalPurchasesInCurrency s;
     totalParticipants := totalParticipants s; hasParticipated := v;
     immediateTransfer := immediateTransfer s; paidAmount := paidAmount s;
     userWhitelist := userWhitelist s; tokenWhitelist := tokenWhitelist s;
     reservedTokenAmount := reservedTokenAmount s;
     isUserWhitelisted := isUserWhitelisted s;
     isTokenWhitelisted := isTokenWhitelisted s; purchaseOf := purchaseOf s;
     lockedBalanceOf := lockedBalanceOf s;
     lockupTVLReached := lockupTVLReached s |}.

Definition set_paidAmount (v : gmap (N * N) N) (s : Sale) : Sale :=
  {| owner := owner s; paused := paused s; token := token s;
     metadataURI := metadataURI s; price := price s; hardcap := hardcap s;
     softcap := softcap s; minPurchase := minPurchase s;
     maxPurchase := maxPurchase s; lockupPercent := lockupPercent s;
     lockupTVL := lockupTVL s; lockupDuration := lockupDuration s;
     duration := duration s; createdAt := createdAt s;
     totalPurchases := totalPurchases s;
     serviceContract := serviceContract s; tenantId := tenantId s;
     totalPurchasesInCurrency := totalPurchasesInCurrency s;
     totalParticipants := totalParticipants s;
     hasParticipated := hasParticipated s;
     immediateTransfer := immediateTransfer s; paidAmount := v;
     userWhitelist := userWhitelist s; tokenWhitelist := tokenWhitelist s;
     reservedTokenAmount := reservedTokenAmount s;
     isUserWhitelisted := isUserWhitelisted s;
     isTokenWhitelisted := isTokenWhitelisted s; purchaseOf := purchaseOf s;
     lockedBalanceOf := lockedBalanceOf s;
     lockupTVLReached := lockupTVLReached s |}.

Definition set_userWhitelist (v : list N) (s : Sale) : Sale :=
  {| owner := owner s; paused := paused s; token := token s;
     metadataURI := metadataURI s; price := price s; hardcap := hardcap s;
     softcap := softcap s; minPurchase := minPurchase s;
     maxPurchase := maxPurchase s; lockupPercent := lockupPercent s;
     lockupTVL := lockupTVL s; lockupDuration := lockupDuration s;
     duration := duration s; createdAt := createdAt s;
     totalPurchases := totalPurchases s;
     serviceContract := serviceContract s; tenantId := tenantId s;
     totalPurchasesInCurrency := totalPurchasesInCurrency s;
     totalParticipants := totalParticipants s;
     hasParticipated := hasParticipated s;
     immediateTransfer := immediateTransfer s; paidAmount := paidAmount s;
     userWhitelist := v; tokenWhitelist := tokenWhitelist s;
     reservedTokenAmount := reservedTokenAmount s;
     isUserWhitelisted := isUserWhitelisted s;
     isTokenWhitelisted := isTokenWhitelisted s; purchaseOf := purchaseOf s;
     lockedBalanceOf := lockedBalanceOf s;
     lockupTVLReached := lockupTVLReached s |}.

Definition set_tokenWhitelist (v : list N) (s : Sale) : Sale :=
  {| owner := owner s; paused := paused s; token := token s;
     metadataURI := metadataURI s; price := price s; hardcap := hardcap s;
     softcap := softcap s; minPurchase := minPurchase s;
     maxPurchase := maxPurchase s; lockupPercent := lockupPercent s;
     lockupTVL := lockupTVL s; lockupDuration := lockupDuration s;
     duration := duration s; createdAt := createdAt s;
     totalPurchases := totalPurchases s;
     serviceContract := serviceContract s; tenantId := tenantId s;
     totalPurchasesInCurrency := totalPurchasesInCurrency s;
     totalParticipants := totalParticipants s;
     hasParticipated := hasParticipated s;
     immediateTransfer := immediateTransfer s; paidAmount := paidAmount s;
     userWhitelist := userWhitelist s; tokenWhitelist := v;
     reservedTokenAmount := reservedTokenAmount s;
     isUserWhitelisted := isUserWhitelisted s;
     isTokenWhitelisted := isTokenWhitelisted s; purchaseOf := purchaseOf s;
     lockedBalanceOf := lockedBalanceOf s;
     lockupTVLReached := lockupTVLReached s |}.

Definition set_reservedTokenAmount (v : uint256) (s : Sale) : Sale :=
  {| owner := owner s; paused := paused s; token := token s;
     metadataURI := metadataURI s; price := price s; hardcap := hardcap s;
     softcap := softcap s; minPurchase := minPurchase s;
     maxPurchase := maxPurchase s; lockupPercent := lockupPercent s;
     lockupTVL := lockupTVL s; lockupDuration := lockupDuration s;
     duration := duration s; createdAt := createdAt s;
     totalPurchases := totalPurchases s;
     serviceContract := serviceContract s; tenantId := tenantId s;
     totalPurchasesInCurrency := totalPurchasesInCurrency s;
     totalParticipants := totalParticipants s;
     hasParticipated := hasParticipated s;
     immediateTransfer := immediateTransfer s; paidAmount := paidAmount s;
     userWhitelist := userWhitelist s; tokenWhitelist := tokenWhitelist s;
     reservedTokenAmount := v; isUserWhitelisted := isUserWhitelisted s;
     isTokenWhitelisted := isTokenWhitelisted s; purchaseOf := purchaseOf s;
     lockedBalanceOf := lockedBalanceOf s;
     lockupTVLReached := lockupTVLReached s |}.

Definition set_isUserWhitelisted (v : gmap N bool) (s : Sale) : Sale :=
  {| owner := owner s; paused := paused s; token := token s;
     metadataURI := metadataURI s; price := price s; hardcap := hardcap s;
     softcap := softcap s; minPurchase := minPurchase s;
     maxPurchase := maxPurchase s; lockupPercent := lockupPercent s;
     lockupTVL := lockupTVL s; lockupDuration := lockupDuration s;
     duration := duration s; createdAt := createdAt s;
     totalPurchases := totalPurchases s;
     serviceContract := serviceContract s; tenantId := tenantId s;
     totalPurchasesInCurrency := totalPurchasesInCurrency s;
     totalParticipants := totalParticipants s;
     hasParticipated := hasParticipated s;
     immediateTransfer := immediateTransfer s; paidAmount := paidAmount s;
     userWhitelist := userWhitelist s; tokenWhitelist := tokenWhitelist s;
     reservedTokenAmount := reservedTokenAmount s; isUserWhitelisted := v;
     isTokenWhitelisted := isTokenWhitelisted s; purchaseOf := purchaseOf s;
     lockedBalanceOf := lockedBalanceOf s;
     lockupTVLReached := lockupTVLReached s |}.

Definition set_isTokenWhitelisted (v : gmap N bool) (s : Sale) : Sale :=
  {| owner := owner s; paused := paused s; token := token s;
     metadataURI := metadataURI s; price := price s; hardcap := hardcap s;
     softcap := softcap s; minPurchase := minPurchase s;
     maxPurchase := maxPurchase s; lockupPercent := lockupPercent s;
     lockupTVL := lockupTVL s; lockupDuration := lockupDuration s;
     duration := duration s; createdAt := createdAt s;
     totalPurchases := totalPurchases s;
     serviceContract := serviceContract s; tenantId := tenantId s;
     totalPurchasesInCurrency := totalPurchasesInCurrency s;
     totalParticipants := totalParticipants s;
     hasParticipated := hasParticipated s;
     immediateTransfer := immediateTransfer s; paidAmount := paidAmount s;
     userWhitelist := userWhitelist s; tokenWhitelist := tokenWhitelist s;
     reservedTokenAmount := reservedTokenAmount s;
     isUserWhitelisted := isUserWhitelisted s; isTokenWhitelisted := v;
     purchaseOf := purchaseOf s; lockedBalanceOf := lockedBalanceOf s;
     lockupTVLReached := lockupTVLReached s |}.

Definition set_purchaseOf (v : gmap N N) (s : Sale) : Sale :=
  {| owner := owner s; paused := paused s; token := token s;
     metadataURI := metadataURI s; price := price s; hardcap := hardcap s;
     softcap := softcap s; minPurchase := minPurchase s;
     maxPurchase := maxPurchase s; lockupPercent := lockupPercent s;
     lockupTVL := lockupTVL s; lockupDuration := lockupDuration s;
     duration := duration s; createdAt := createdAt s;
     totalPurchases := totalPurchases s;
     serviceContract := serviceContract s; tenantId := tenantId s;
     totalPurchasesInCurrency := totalPurchasesInCurrency s;
     totalParticipants := totalParticipants s;
     hasParticipated := hasParticipated s;
     immediateTransfer := immediateTransfer s; paidAmount := paidAmount s;
     userWhitelist := userWhitelist s; tokenWhitelist := tokenWhitelist s;
     reservedTokenAmount := reservedTokenAmount s;
     isUserWhitelisted := isUserWhitelisted s;
     isTokenWhitelisted := isTokenWhitelisted s; purchaseOf := v;
     lockedBalanceOf := lockedBalanceOf s;
     lockupTVLReached := lockupTVLReached s |}.

Definition set_lockedBalanceOf (v : gmap N N) (s : Sale) : Sale :=
  {| owner := owner s; paused := paused s; token := token s;
     metadataURI := metadataURI s; price := price s; hardcap := hardcap s;
     softcap := softcap s; minPurchase := minPurchase s;
     maxPurchase := maxPurchase s; lockupPercent := lockupPercent s;
     lockupTVL := lockupTVL s; lockupDuration := lockupDuration s;
     duration := duration s; createdAt := createdAt s;
     totalPurchases := totalPurchases s;
     serviceContract := serviceContract s; tenantId := tenantId s;
     totalPurchasesInCurrency := totalPurchasesInCurrency s;
     totalParticipants := totalParticipants s;
     hasParticipated := hasParticipated s;
     immediateTransfer := immediateTransfer s; paidAmount := paidAmount s;
     userWhitelist := userWhitelist s; tokenWhitelist := tokenWhitelist s;
     reservedTokenAmount := reservedTokenAmount s;
     isUserWhitelisted := isUserWhitelisted s;
     isTokenWhitelisted := isTokenWhitelisted s; purchaseOf := purchaseOf s;
     lockedBalanceOf := v; lockupTVLReached := lockupTVLReached s |}.

Definition set_lockupTVLReached (v : bool) (s : Sale) : Sale :=
  {| owner := owner s; paused := paused s; token := token s;
     metadataURI := metadataURI s; price := price s; hardcap := hardcap s;
     softcap := softcap s; minPurchase := minPurchase s;
     maxPurchase := maxPurchase s; lockupPercent := lockupPercent s;
     lockupTVL := lockupTVL s; lockupDuration := lockupDuration s;
     duration := duration s; createdAt := createdAt s;
     totalPurchases := totalPurchases s;
     serviceContract := serviceContract s; tenantId := tenantId s;
     totalPurchasesInCurrency := totalPurchasesInCurrency s;
     totalParticipants := totalParticipants s;
     hasParticipated := hasParticipated s;
     immediateTransfer := immediateTransfer s; paidAmount := paidAmount s;
     userWhitelist := userWhitelist s; tokenWhitelist := tokenWhitelist s;
     reservedTokenAmount := reservedTokenAmount s;
     isUserWhitelisted := isUserWhitelisted s;
     isTokenWhitelisted := isTokenWhitelisted s; purchaseOf := purchaseOf s;
     lockedBalanceOf := lockedBalanceOf s; lockupTVLReached := v |}.

Arguments set_owner _ _ /.
Arguments set_paused _ _ /.
Arguments set_totalPurchases _ _ /.
Arguments set_serviceContract _ _ /.
Arguments set_tenantId _ _ /.
Arguments set_totalPurchasesInCurrency _ _ /.
Arguments set_totalParticipants _ _ /.
Arguments set_hasParticipated _ _ /.
Arguments set_paidAmount _ _ /.
Arguments set_userWhitelist _ _ /.
Arguments set_tokenWhitelist _ _ /.
Arguments set_reservedTokenAmount _ _ /.
Arguments set_isUserWhitelisted _ _ /.
Arguments set_isTokenWhitelisted _ _ /.
Arguments set_purchaseOf _ _ /.
Arguments set_lockedBalanceOf _ _ /.
Arguments set_lockupTVLReached _ _ /.

Definition word `{Countable K} (m : gmap K N) (k : K) : N := default 0 (m !! k).
Definition flag `{Countable K} (m : gmap K bool) (k : K) : bool :=
  default false (m !! k).

Definition MAX_WHITELIST_BATCH : N := 100.

(** What the other contracts answer during one call of the sale. The fee
    oracle's rate and recipient functions and the token's [mint] are
    called under [try] by some entry points. *)
Record World := {
  (* IServiceContractMinimal(serviceContract) *)
  minimalCommissionRate : N → Tried uint256;
  minimalFeeRecipient : N → Tried address;
  investmentEscrowFactory : option address;
  (* IServiceContract(serviceContract) *)
  getCommissionRate : N → N → Tried uint256;
  getFeeRecipient : N → N → Tried address;
  (* IEscrowFactory(escrowFactory) *)
  isValidEscrow : address → bool;
  (* the token on sale: token.balanceOf(address(this)), hasRole(MINTER_ROLE,
     address(this)), and the outcome of a mint *)
  tokenBalance : uint256;
  hasMinterRole : bool;
  mintOk : Tried ();
  (* the payment currency: allowance(msg.sender, address(this)), the sale's
     own holdings, and whether its transfers go through *)
  allowance : uint256;
  currencyBalance : uint256;
  transfersOk : bool
}.

Definition state (now : uint256) (s : Sale) : option State :=
  if decide (hardcap s <= totalPurchases s) then Some Successful
  else
    deadline ← checked_add (createdAt s) (duration s);
    if decide (now < deadline) then Some Active
    else if decide (softcap s <= totalPurchases s) then Some Successful
    else Some Failed.

Definition onlyState (now : uint256) (state_ : State) (s : Sale) : option () :=
  st ← state now s;
  guard (st = state_);; Some ().

Definition onlyTenantManagerOrInitialOwner (m : Msg) (s : Sale) : option () :=
  guard (owner s = sender m);; Some ().

Definition onlyOwner (m : Msg) (s : Sale) : option () :=
  guard (owner s = sender m);; Some ().

Definition whenNotPaused (s : Sale) : option () :=
  guard (paused s = false);; Some ().

Definition onlyWhitelistedUser (m : Msg) (s : Sale) : option () :=
  guard (length (userWhitelist s) = 0%nat
         ∨ flag (isUserWhitelisted s) (sender m) = true);; Some ().

Definition onlyWhitelistedCurrency (currency : address) (s : Sale) : option () :=
  guard (length (tokenWhitelist s) = 0%nat
         ∨ flag (isTokenWhitelisted s) currency = true);; Some ().

Definition maxPurchaseOf (account : address) (s : Sale) : option uint256 :=
  checked_sub (maxPurchase s) (word (purchaseOf s) account).

Definition unlockAvailable (now : uint256) (s : Sale) : option bool :=
  if lockupTVLReached s then
    unlockTime ← checked_add (createdAt s) (lockupDuration s);
    Some (bool_decide (unlockTime <= now))
  else Some false.

Definition getTVL (s : Sale) : option uint256 :=
  x ← checked_mul (totalPurchases s) (price s);
  Some (x / 10 ^ 18).

Definition hasTenantManagerRole (m : Msg) (s : Sale) : bool :=
  if decide (serviceContract s = 0) then false
  else bool_decide (sender m = owner s).

(** The whitelist loops of [initialize]: every entry is pushed. *)
Definition pushAll (l : list address) (acc : list address * gmap N bool)
  : list address * gmap N bool :=
  foldl (λ '(arr, on) a, (arr ++ [a], <[a := true]> on)) acc l.

(** The whitelist loops of [addToUserWhitelist] and [addToTokenWhitelist]:
    an entry is pushed unless its flag is set. *)
Definition pushNew (l : list address) (acc : list address * gmap N bool)
  : list address * gmap N bool :=
  foldl (λ '(arr, on) a,
           if flag on a then (arr, on) else (arr ++ [a], <[a := true]> on))
        acc l.

(** The loops of [removeFromUserWhitelist] and [removeFromTokenWhitelist]:
    the flag is cleared, the array is left as it is. *)
Definition clearAll (l : list address) (on : gmap N bool) : gmap N bool :=
  foldl (λ on a, <[a := false]> on) on l.

Definition initialize (m : Msg) (w : World) (owner_ token_ : address)
    (info : TGEInfo) (_tenantId : N) (_serviceContract : address)
    (_immediateTransfer : bool) : option (Sale * list Action) :=
  nonpayable m;;
  '(reserved, minted) ←
    (if decide (token_ ≠ 0) then
       x ← checked_mul (info_hardcap info) (info_reservedTokenPercent info);
       let reserved := x / 10000 in
       if decide (0 < reserved) then
         minted ← tried (mintOk w);
         match minted with
         | Some _ => Some (0, [TokenMint owner_ reserved])
         | None => Some (reserved, [])
         end
       else Some (reserved, [])
     else Some (0, []));
  let '(users, userFlags) := pushAll (info_userWhitelist info) ([], ∅) in
  let '(tokens, tokenFlags) := pushAll (info_tokenWhitelist info) ([], ∅) in
  Some ({| owner := owner_; paused := false; token := token_;
           metadataURI := info_metadataURI info; price := info_price info;
           hardcap := info_hardcap info; softcap := info_softcap info;
           minPurchase := info_minPurchase info;
           maxPurchase := info_maxPurchase info;
           lockupPercent := info_lockupPercent info;
           lockupTVL := info_lockupTVL info;
           lockupDuration := info_lockupDuration info;
           duration := info_duration info; createdAt := timestamp m;
           totalPurchases := 0; serviceContract := _serviceContract;
           tenantId := _tenantId; totalPurchasesInCurrency := ∅;
           totalParticipants := 0; hasParticipated := ∅;
           immediateTransfer := _immediateTransfer; paidAmount := ∅;
           userWhitelist := users; tokenWhitelist := tokens;
           reservedTokenAmount := reserved; isUserWhitelisted := userFlags;
           isTokenWhitelisted := tokenFlags; purchaseOf := ∅;
           lockedBalanceOf := ∅;
           lockupTVLReached := bool_decide (info_lockupTVL info = 0) |},
        minted).

Definition setServiceContract (m : Msg) (serviceContract_ : address) (s : Sale)
  : option (Sale * list Action) :=
  nonpayable m;;
  guard (serviceContract s = 0 ∨ hasTenantManagerRole m s = true);;
  guard (serviceContract_ ≠ 0);;
  Some (set_serviceContract serviceContract_ s, []).

(** [mintReservedTokens] returns [false] without reverting when the mint
    reverts. *)
Definition mintReservedTokens (m : Msg) (w : World) (s : Sale)
  : option (Sale * list Action) :=
  nonpayable m;;
  onlyTenantManagerOrInitialOwner m s;;
  guard (0 < reservedTokenAmount s);;
  minted ← tried (mintOk w);
  match minted with
  | Some _ =>
      Some (set_reservedTokenAmount 0 s,
            [TokenMint (owner s) (reservedTokenAmount s)])
  | None => Some (s, [])
  end.

Definition setTenantId (m : Msg) (_tenantId : N) (s : Sale)
  : option (Sale * list Action) :=
  nonpayable m;;
  onlyTenantManagerOrInitialOwner m s;;
  Some (set_tenantId _tenantId s, []).

(** The recipient a fee oracle call resolves: the zero address is kept
    when the call reverts or answers the zero address. *)
Definition resolved (r : Tried address) : option address :=
  answer ← tried r;
  match answer with
  | Some _recipient => Some (if decide (_recipient ≠ 0) then _recipient else 0)
  | None => Some 0
  end.

Definition calculatePlatformFee (w : World) (amount : uint256) (s : Sale)
  : option (uint256 * address) :=
  if decide (serviceContract s = 0) then Some (0, 0)
  else
    minimal ← tried (minimalCommissionRate w 1);
    '(feeRate, feeRecipient) ←
      match minimal with
      | Some _rate =>
          feeRecipient ← resolved (minimalFeeRecipient w 1);
          Some (_rate, feeRecipient)
      | None =>
          '(feeRate, feeRecipient) ←
            (if decide (tenantId s ≠ 0) then
               tenant ← tried (getCommissionRate w (tenantId s) 1);
               match tenant with
               | Some _rate =>
                   feeRecipient ← resolved (getFeeRecipient w (tenantId s) 1);
                   Some (_rate, feeRecipient)
               | None => Some (0, 0)
               end
             else Some (0, 0));
          feeRate ←
            (if decide (feeRate = 0) then
               platform ← tried (getCommissionRate w 0 1);
               Some (default feeRate platform)
             else Some feeRate);
          feeRecipient ←
            (if decide (feeRecipient = 0) then
               platform ← tried (getFeeRecipient w 0 0);
               Some (default feeRecipient platform)
             else Some feeRecipient);
          Some (feeRate, feeRecipient)
      end;
    if decide (0 < feeRate ∧ feeRecipient ≠ 0) then
      x ← checked_mul amount feeRate;
      Some (x / 10000, feeRecipient)
    else Some (0, 0).

(** An outgoing transfer of the payment currency, of the native asset
    ([sendValue]) or of an ERC20 ([safeTransfer]). *)
Definition send (w : World) (currency to : address) (amt : uint256)
  : option (list Action) :=
  guard (transfersOk w = true);; Some [Pay currency to amt].

(** A [safeTransferFrom] of the payment currency, into the sale or to a
    third account. *)
Definition collect (w : World) (currency from : address) (amt : uint256)
  : option (list Action) :=
  guard (transfersOk w = true);; Some [Collect currency from amt].

Definition route (w : World) (currency from to : address) (amt : uint256)
  : option (list Action) :=
  guard (transfersOk w = true);; Some [Route currency from to amt].

(** Delivery of [unlocked] tokens on sale to [to]: what the sale holds is
    transferred, the shortfall is minted, and a missing [MINTER_ROLE]
    reverts. The source writes this block out in both branches of both
    purchase functions. *)
Definition deliver (w : World) (to : address) (unlocked : uint256)
  : option (list Action) :=
  let contractBalance := tokenBalance w in
  let transferAmount := N.min unlocked contractBalance in
  mintAmount ← checked_sub unlocked transferAmount;
  moved ← (if decide (0 < transferAmount) then
             guard (transfersOk w = true);;
             Some [TokenTransfer to transferAmount]
           else Some []);
  minted ← (if decide (0 < mintAmount) then
              if hasMinterRole w then
                guard (mintOk w = Returned ());; Some [TokenMint to mintAmount]
              else None
            else Some []);
  Some (moved ++ minted).

(** The token distribution that ends both purchase functions. *)
Definition distribute (w : World) (buyer : address) (tokens : uint256)
    (s : Sale) : option (Sale * list Action) :=
  if lockupTVLReached s then
    let unlockedAmount := tokens in
    acts ← deliver w buyer unlockedAmount;
    Some (s, acts)
  else
    share ← checked_sub 10000 (lockupPercent s);
    x ← checked_mul tokens share;
    let unlockedAmount := x / 10000 in
    lockedAmount ← checked_sub tokens unlockedAmount;
    acts ← deliver w buyer unlockedAmount;
    if decide (0 < lockedAmount) then
      locked ← checked_add (word (lockedBalanceOf s) buyer) lockedAmount;
      Some (set_lockedBalanceOf (<[buyer := locked]> (lockedBalanceOf s)) s,
            acts)
    else Some (s, acts).

(** First-time-buyer bookkeeping. *)
Definition participate (buyer : address) (s : Sale) : option Sale :=
  if flag (hasParticipated s) buyer then Some s
  else
    n ← checked_add (totalParticipants s) 1;
    Some (set_totalParticipants n
            (set_hasParticipated (<[buyer := true]> (hasParticipated s)) s)).

Definition purchaseWithEscrow (m : Msg) (w : World) (investor : address)
    (paymentAmount : uint256) (paymentToken : address) (s : Sale)
  : option (Sale * list Action * uint256) :=
  whenNotPaused s;;
  escrowFactory ← investmentEscrowFactory w;
  guard (escrowFactory ≠ 0 ∧ isValidEscrow w (sender m) = true);;
  guard (length (tokenWhitelist s) = 0%nat
         ∨ flag (isTokenWhitelisted s) paymentToken = true);;
  onlyState (timestamp m) Active s;;
  '(feeAmount, feeRecipient) ← calculatePlatformFee w paymentAmount s;
  netPayment ← checked_sub paymentAmount feeAmount;
  guard (0 < netPayment);;
  '(tokenAmount, pulled) ←
    (if decide (paymentToken = 0) then
       guard (value m = paymentAmount);;
       x ← checked_mul netPayment (10 ^ 18);
       tokenAmount ← checked_div x (price s);
       Some (tokenAmount, [])
     else
       guard (value m = 0);;
       pulled ← collect w paymentToken (sender m) paymentAmount;
       x ← checked_mul netPayment (10 ^ 18);
       tokenAmount ← checked_div x (price s);
       Some (tokenAmount, pulled));
  currentPurchase ← checked_add (word (purchaseOf s) investor) tokenAmount;
  guard (minPurchase s <= currentPurchase);;
  guard (currentPurchase <= maxPurchase s);;
  total ← checked_add (totalPurchases s) tokenAmount;
  guard (total <= hardcap s);;
  inCurrency ←
    checked_add (word (totalPurchasesInCurrency s) paymentToken) netPayment;
  let s := set_totalPurchasesInCurrency
             (<[paymentToken := inCurrency]> (totalPurchasesInCurrency s))
             (set_totalPurchases total
                (set_purchaseOf (<[investor := currentPurchase]> (purchaseOf s))
                   s)) in
  s ← participate investor s;
  fee ← (if decide (0 < feeAmount ∧ feeRecipient ≠ 0) then
           send w paymentToken feeRecipient feeAmount
         else Some []);
  '(s, forwarded) ←
    (if immediateTransfer s then
       if decide (0 < netPayment) then
         acts ← send w paymentToken (owner s) netPayment;
         Some (s, acts)
       else Some (s, [])
     else
       paid ← checked_add (word (paidAmount s) (investor, paymentToken))
                          netPayment;
       Some (set_paidAmount (<[(investor, paymentToken) := paid]> (paidAmount s))
               s, []));
  '(s, tokens) ← distribute w investor tokenAmount s;
  cost ← checked_mul tokenAmount (price s);
  Some (s, pulled ++ fee ++ forwarded ++ tokens, tokenAmount).

Definition purchase (m : Msg) (w : World) (currency : address)
    (amount : uint256) (s : Sale) : option (Sale * list Action) :=
  whenNotPaused s;;
  onlyWhitelistedUser m s;;
  onlyWhitelistedCurrency currency s;;
  onlyState (timestamp m) Active s;;
  '(s, paid) ←
    (if decide (currency = 0) then
       x ← checked_mul amount (price s);
       let basePaymentAmount := x / 10 ^ 18 in
       '(feeAmount, feeRecipient) ← calculatePlatformFee w basePaymentAmount s;
       totalExpectedAmount ← checked_add basePaymentAmount feeAmount;
       guard (value m = totalExpectedAmount);;
       fee ← (if decide (0 < feeAmount ∧ feeRecipient ≠ 0) then
                send w 0 feeRecipient feeAmount
              else Some []);
       '(s, forwarded) ←
         (if immediateTransfer s then
            acts ← send w 0 (owner s) basePaymentAmount;
            Some (s, acts)
          else
            held ← checked_add (word (paidAmount s) (sender m, 0))
                               basePaymentAmount;
            Some (set_paidAmount (<[(sender m, 0) := held]> (paidAmount s)) s,
                  []));
       inCurrency ←
         checked_add (word (totalPurchasesInCurrency s) 0) basePaymentAmount;
       Some (set_totalPurchasesInCurrency
               (<[0 := inCurrency]> (totalPurchasesInCurrency s)) s,
             fee ++ forwarded)
     else
       x ← checked_mul amount (price s);
       let basePaymentAmount := x / 10 ^ 18 in
       '(feeAmount, feeRecipient) ← calculatePlatformFee w basePaymentAmount s;
       totalPaymentAmount ← checked_add basePaymentAmount feeAmount;
       guard (totalPaymentAmount <= allowance w);;
       fee ← (if decide (0 < feeAmount ∧ feeRecipient ≠ 0) then
                route w currency (sender m) feeRecipient feeAmount
              else Some []);
       '(s, forwarded) ←
         (if immediateTransfer s then
            acts ← route w currency (sender m) (owner s) basePaymentAmount;
            Some (s, acts)
          else
            acts ← collect w currency (sender m) basePaymentAmount;
            held ← checked_add (word (paidAmount s) (sender m, currency))
                               basePaymentAmount;
            Some (set_paidAmount
                    (<[(sender m, currency) := held]> (paidAmount s)) s,
                  acts));
       inCurrency ←
         checked_add (word (totalPurchasesInCurrency s) currency)
                     basePaymentAmount;
       Some (set_totalPurchasesInCurrency
               (<[currency := inCurrency]> (totalPurchasesInCurrency s)) s,
             fee ++ forwarded));
  guard (minPurchase s <= amount);;
  room ← maxPurchaseOf (sender m) s;
  guard (amount <= room);;
  total ← checked_add (totalPurchases s) amount;
  guard (total <= hardcap s);;
  bought ← checked_add (word (purchaseOf s) (sender m)) amount;
  let s := set_purchaseOf (<[sender m := bought]> (purchaseOf s))
             (set_totalPurchases total s) in
  s ← participate (sender m) s;
  '(s, tokens) ← distribute w (sender m) amount s;
  cost ← checked_mul amount (price s);
  Some (s, paid ++ tokens).

Definition unlock (m : Msg) (w : World) (s : Sale)
  : option (Sale * list Action) :=
  nonpayable m;;
  available ← unlockAvailable (timestamp m) s;
  guard (available = true);;
  guard (0 < word (lockedBalanceOf s) (sender m));;
  let amount := word (lockedBalanceOf s) (sender m) in
  let s := set_lockedBalanceOf (<[sender m := 0]> (lockedBalanceOf s)) s in
  guard (transfersOk w = true);;
  Some (s, [TokenTransfer (sender m) amount]).

(** The bookkeeping both [claimBack] overloads clear. *)
Definition forfeit (who : address) (s : Sale) : Sale :=
  let s := if decide (0 < word (purchaseOf s) who)
           then set_purchaseOf (<[who := 0]> (purchaseOf s)) s else s in
  if decide (0 < word (lockedBalanceOf s) who)
  then set_lockedBalanceOf (<[who := 0]> (lockedBalanceOf s)) s else s.

Definition claimBack (m : Msg) (w : World) (currency : address) (s : Sale)
  : option (Sale * list Action) :=
  nonpayable m;;
  onlyState (timestamp m) Failed s;;
  guard (immediateTransfer s = false);;
  let refundAmount := word (paidAmount s) (sender m, currency) in
  guard (0 < refundAmount);;
  let s := set_paidAmount (<[(sender m, currency) := 0]> (paidAmount s)) s in
  let s := forfeit (sender m) s in
  acts ← send w currency (sender m) refundAmount;
  Some (s, acts).

(** The overload [claimBack()], for the native asset. *)
Definition claimBack_legacy (m : Msg) (w : World) (s : Sale)
  : option (Sale * list Action) :=
  nonpayable m;;
  onlyState (timestamp m) Failed s;;
  guard (immediateTransfer s = false);;
  let refundAmount := word (paidAmount s) (sender m, 0) in
  guard (0 < refundAmount);;
  let s := set_paidAmount (<[(sender m, 0) := 0]> (paidAmount s)) s in
  let s := forfeit (sender m) s in
  acts ← send w 0 (sender m) refundAmount;
  Some (s, acts).

Definition setLockupTVLReachedForced (m : Msg) (force : bool) (s : Sale)
  : option (Sale * list Action) :=
  nonpayable m;;
  onlyTenantManagerOrInitialOwner m s;;
  (if force then Some ()
   else tvl ← getTVL s; guard (lockupTVL s <= tvl);; Some ());;
  Some (set_lockupTVLReached true s, []).

Definition setLockupTVLReached (m : Msg) (s : Sale)
  : option (Sale * list Action) :=
  nonpayable m;;
  onlyTenantManagerOrInitialOwner m s;;
  tvl ← getTVL s;
  guard (lockupTVL s <= tvl);;
  Some (set_lockupTVLReached true s, []).

Definition transferFunds (m : Msg) (w : World) (currency : address) (s : Sale)
  : option (Sale * list Action) :=
  nonpayable m;;
  onlyTenantManagerOrInitialOwner m s;;
  onlyState (timestamp m) Successful s;;
  let amount := currencyBalance w in
  if decide (0 < amount) then
    acts ← send w currency (owner s) amount;
    Some (s, acts)
  else Some (s, []).

Definition pause (m : Msg) (s : Sale) : option (Sale * list Action) :=
  nonpayable m;;
  onlyTenantManagerOrInitialOwner m s;;
  guard (paused s = false);;
  Some (set_paused true s, []).

Definition unpause (m : Msg) (s : Sale) : option (Sale * list Action) :=
  nonpayable m;;
  onlyTenantManagerOrInitialOwner m s;;
  guard (paused s = true);;
  Some (set_paused false s, []).

Definition addToUserWhitelist (m : Msg) (users : list address) (s : Sale)
  : option (Sale * list Action) :=
  nonpayable m;;
  onlyTenantManagerOrInitialOwner m s;;
  guard (N.of_nat (length users) <= MAX_WHITELIST_BATCH);;
  let '(arr, on) := pushNew users (userWhitelist s, isUserWhitelisted s) in
  Some (set_isUserWhitelisted on (set_userWhitelist arr s), []).

Definition removeFromUserWhitelist (m : Msg) (users : list address) (s : Sale)
  : option (Sale * list Action) :=
  nonpayable m;;
  onlyTenantManagerOrInitialOwner m s;;
  Some (set_isUserWhitelisted (clearAll users (isUserWhitelisted s)) s, []).

Definition addToTokenWhitelist (m : Msg) (tokens : list address) (s : Sale)
  : option (Sale * list Action) :=
  nonpayable m;;
  onlyTenantManagerOrInitialOwner m s;;
  guard (N.of_nat (length tokens) <= MAX_WHITELIST_BATCH);;
  let '(arr, on) := pushNew tokens (tokenWhitelist s, isTokenWhitelisted s) in
  Some (set_isTokenWhitelisted on (set_tokenWhitelist arr s), []).

Definition removeFromTokenWhitelist (m : Msg) (tokens : list address)
    (s : Sale) : option (Sale * list Action) :=
  nonpayable m;;
  onlyTenantManagerOrInitialOwner m s;;
  Some (set_isTokenWhitelisted (clearAll tokens (isTokenWhitelisted s)) s, []).

Definition setReservedTokenAmount (m : Msg) (amount : uint256) (s : Sale)
  : option (Sale * list Action) :=
  nonpayable m;;
  onlyOwner m s;;
  Some (set_reservedTokenAmount amount s, []).

(** The two entry points inherited from OpenZeppelin's
    [OwnableUpgradeable]. *)
Definition transferOwnership (m : Msg) (newOwner : address) (s : Sale)
  : option (Sale * list Action) :=
  nonpayable m;;
  onlyOwner m s;;
  guard (newOwner ≠ 0);;
  Some (set_owner newOwner s, []).

Definition renounceOwnership (m : Msg) (s : Sale)
  : option (Sale * list Action) :=
  nonpayable m;;
  onlyOwner m s;;
  Some (set_owner 0 s, []).

(** The state-changing entry points. *)
Inductive Call :=
| SetServiceContract (serviceContract_ : address)
| MintReservedTokens
| SetTenantId (_tenantId : N)
| PurchaseWithEscrow (investor : address) (paymentAmount : uint256)
    (paymentToken : address)
| Purchase (currency : address) (amount : uint256)
| Unlock
| ClaimBack (currency : address)
| ClaimBackLegacy
| SetLockupTVLReachedForced (force : bool)
| SetLockupTVLReached
| TransferFunds (currency : address)
| Pause
| Unpause
| AddToUserWhitelist (users : list address)
| RemoveFromUserWhitelist (users : list address)
| AddToTokenWhitelist (tokens : list address)
| RemoveFromTokenWhitelist (tokens : list address)
| SetReservedTokenAmount (amount : uint256)
| TransferOwnership (newOwner : address)
| RenounceOwnership.

Definition exec (m : Msg) (w : World) (c : Call) (s : Sale)
  : option (Sale * list Action) :=
  match c with
  | SetServiceContract a => setServiceContract m a s
  | MintReservedTokens => mintReservedTokens m w s
  | SetTenantId t => setTenantId m t s
  | PurchaseWithEscrow i a t =>
      '(s, acts, _) ← purchaseWithEscrow m w i a t s; Some (s, acts)
  | Purchase c a => purchase m w c a s
  | Unlock => unlock m w s
  | ClaimBack c => claimBack m w c s
  | ClaimBackLegacy => claimBack_legacy m w s
  | SetLockupTVLReachedForced f => setLockupTVLReachedForced m f s
  | SetLockupTVLReached => setLockupTVLReached m s
  | TransferFunds c => transferFunds m w c s
  | Pause => pause m s
  | Unpause => unpause m s
  | AddToUserWhitelist l => addToUserWhitelist m l s
  | RemoveFromUserWhitelist l => removeFromUserWhitelist m l s
  | AddToTokenWhitelist l => addToTokenWhitelist m l s
  | RemoveFromTokenWhitelist l => removeFromTokenWhitelist m l s
  | SetReservedTokenAmount a => setReservedTokenAmount m a s
  | TransferOwnership a => transferOwnership m a s
  | RenounceOwnership => renounceOwnership m s
  end.

(** Runs of successful calls from a given storage, and the storages
    reachable from [initialize]. *)
Inductive steps (s0 : Sale) : Sale → Prop :=
| steps_refl : steps s0 s0
| steps_call s m w c s' acts :
    steps s0 s → exec m w c s = Some (s', acts) → steps s0 s'.

Definition reachable (s : Sale) : Prop :=
  ∃ m w owner_ token_ info _tenantId _serviceContract _immediateTransfer s0 acts,
    initialize m w owner_ token_ info _tenantId _serviceContract
      _immediateTransfer = Some (s0, acts)
    ∧ steps s0 s.

(** The configuration, which no entry point writes, and the purchase
    ledger. *)
Definition config (s : Sale) :=
  (token s, price s, hardcap s, softcap s, minPurchase s, maxPurchase s,
   lockupPercent s, lockupTVL s, lockupDuration s, duration s, createdAt s,
   immediateTransfer s).

Definition ledger (s : Sale) :=
  (totalPurchases s, purchaseOf s, lockedBalanceOf s, paidAmount s).

(** The entry points that write the purchase ledger. *)
Definition trades (c : Call) : bool :=
  match c with
  | PurchaseWithEscrow _ _ _ | Purchase _ _ | Unlock | ClaimBack _
  | ClaimBackLegacy => true
  | _ => false
  end.

(** Tokens on sale handed over to [to] by a list of transfers. *)
Fixpoint delivered (to : address) (acts : list Action) : N :=
  match acts with
  | [] => 0
  | TokenTransfer a n :: rest | TokenMint a n :: rest =>
      (if decide (a = to) then n else 0) + delivered to rest
  | _ :: rest => delivered to rest
  end.

(** The classification of the sale in the words of the specification:
    successful once the hardcap is reached, otherwise active while within
    the duration, otherwise successful if the softcap is met, else failed. *)
Definition status_by_spec (now : uint256) (s : Sale) : State :=
  if decide (hardcap s <= totalPurchases s) then Successful
  else if decide (now < createdAt s + duration s) then Active
  else if decide (softcap s <= totalPurchases s) then Successful
  else Failed.

(** *** Scenarios *)

(** An offering at one payment unit per token: between 100 and 1000 tokens
    per buyer, softcap 500, hardcap 10000, half of each purchase locked
    until the sale has taken in 5000. *)
Definition offering : TGEInfo :=
  {| info_metadataURI := "ipfs://offering"; info_price := 10 ^ 18;
     info_hardcap := 10000; info_softcap := 500; info_minPurchase := 100;
     info_maxPurchase := 1000; info_lockupPercent := 5000;
     info_lockupTVL := 5000; info_lockupDuration := 1000;
     info_duration := 86400; info_reservedTokenPercent := 0;
     info_userWhitelist := []; info_tokenWhitelist := [] |}.

(** The fee oracle answers 2.5% for recipient 99 on its minimal interface;
    escrow 61 is valid; the sale holds 30 of its tokens and may mint. *)
Definition market : World :=
  {| minimalCommissionRate := λ _, Returned 250;
     minimalFeeRecipient := λ _, Returned 99;
     investmentEscrowFactory := Some 60;
     getCommissionRate := λ _ _, Caught;
     getFeeRecipient := λ _ _, Caught;
     isValidEscrow := λ a, bool_decide (a = 61);
     tokenBalance := 30; hasMinterRole := true; mintOk := Returned ();
     allowance := 0; currencyBalance := 0; transfersOk := true |}.

(** The offering initialized at time 1000 in vault mode, owner 1, token 2,
    service contract 50. *)
Definition opened : Sale :=
  {| owner := 1; paused := false; token := 2;
     metadataURI := "ipfs://offering"; price := 10 ^ 18; hardcap := 10000;
     softcap := 500; minPurchase := 100; maxPurchase := 1000;
     lockupPercent := 5000; lockupTVL := 5000; lockupDuration := 1000;
     duration := 86400; createdAt := 1000; totalPurchases := 0;
     serviceContract := 50; tenantId := 0; totalPurchasesInCurrency := ∅;
     totalParticipants := 0; hasParticipated := ∅;
     immediateTransfer := false; paidAmount := ∅; userWhitelist := [];
     tokenWhitelist := []; reservedTokenAmount := 0; isUserWhitelisted := ∅;
     isTokenWhitelisted := ∅; purchaseOf := ∅; lockedBalanceOf := ∅;
     lockupTVLReached := false |}.

(** Buyer 7 has bought 100 tokens for 100 plus a fee of 2. *)
Definition bought : Sale :=
  set_lockedBalanceOf {[7 := 50]}
    (set_totalParticipants 1
       (set_hasParticipated {[7 := true]}
          (set_purchaseOf {[7 := 100]}
             (set_totalPurchases 100
                (set_totalPurchasesInCurrency {[0 := 100]}
                   (set_paidAmount {[(7, 0) := 100]} opened)))))).

(** An escrow has then bought 50 more tokens for buyer 7, for 51 gross. *)
Definition topped : Sale :=
  set_lockedBalanceOf {[7 := 75]}
    (set_purchaseOf {[7 := 150]}
       (set_totalPurchases 150
          (set_totalPurchasesInCurrency {[0 := 150]}
             (set_paidAmount {[(7, 0) := 150]} bought)))).

(** Or the sale has failed and buyer 7 has claimed the 100 back. *)
Definition refunded : Sale :=
  set_lockedBalanceOf {[7 := 0]}
    (set_purchaseOf {[7 := 0]} (set_paidAmount {[(7, 0) := 0]} bought)).

(** The same offering with [lockupTVL = 0], and buyer 7's first purchase. *)
Definition unlocked_offering : TGEInfo :=
  {| info_metadataURI := "ipfs://offering"; info_price := 10 ^ 18;
     info_hardcap := 10000; info_softcap := 500; info_minPurchase := 100;
     info_maxPurchase := 1000; info_lockupPercent := 5000;
     info_lockupTVL := 0; info_lockupDuration := 1000;
     info_duration := 86400; info_reservedTokenPercent := 0;
     info_userWhitelist := []; info_tokenWhitelist := [] |}.

Definition opened_unlocked : Sale :=
  {| owner := 1; paused := false; token := 2;
     metadataURI := "ipfs://offering"; price := 10 ^ 18; hardcap := 10000;
     softcap := 500; minPurchase := 100; maxPurchase := 1000;
     lockupPercent := 5000; lockupTVL := 0; lockupDuration := 1000;
     duration := 86400; createdAt := 1000; totalPurchases := 0;
     serviceContract := 50; tenantId := 0; totalPurchasesInCurrency := ∅;
     totalParticipants := 0; hasParticipated := ∅;
     immediateTransfer := false; paidAmount := ∅; userWhitelist := [];
     tokenWhitelist := []; reservedTokenAmount := 0; isUserWhitelisted := ∅;
     isTokenWhitelisted := ∅; purchaseOf := ∅; lockedBalanceOf := ∅;
     lockupTVLReached := true |}.

Definition bought_unlocked : Sale :=
  set_totalParticipants 1
    (set_hasParticipated {[7 := true]}
       (set_purchaseOf {[7 := 100]}
          (set_totalPurchases 100
             (set_totalPurchasesInCurrency {[0 := 100]}
                (set_paidAmount {[(7, 0) := 100]} opened_unlocked))))).

(** An escrow has then bought 50 more tokens for buyer 7, for 51 gross. *)
Definition topped_unlocked : Sale :=
  set_purchaseOf {[7 := 150]}
    (set_totalPurchases 150
       (set_totalPurchasesInCurrency {[0 := 150]}
          (set_paidAmount {[(7, 0) := 150]} bought_unlocked))).

(** The offering with the longest duration a [uint256] holds, initialized
    at time 1000: its deadline [createdAt + duration] is not a [uint256]. *)
Definition endless_offering : TGEInfo :=
  {| info_metadataURI := "ipfs://offering"; info_price := 10 ^ 18;
     info_hardcap := 10000; info_softcap := 500; info_minPurchase := 100;
     info_maxPurchase := 1000; info_lockupPercent := 5000;
     info_lockupTVL := 5000; info_lockupDuration := 1000;
     info_duration := MAX_UINT256; info_reservedTokenPercent := 0;
     info_userWhitelist := []; info_tokenWhitelist := [] |}.

Definition endless : Sale :=
  {| owner := 1; paused := false; token := 2;
     metadataURI := "ipfs://offering"; price := 10 ^ 18; hardcap := 10000;
     softcap := 500; minPurchase := 100; maxPurchase := 1000;
     lockupPercent := 5000; lockupTVL := 5000; lockupDuration := 1000;
     duration := MAX_UINT256; createdAt := 1000; totalPurchases := 0;
     serviceContract := 50; tenantId := 0; totalPurchasesInCurrency := ∅;
     totalParticipants := 0; hasParticipated := ∅;
     immediateTransfer := false; paidAmount := ∅; userWhitelist := [];
     tokenWhitelist := []; reservedTokenAmount := 0; isUserWhitelisted := ∅;
     isTokenWhitelisted := ∅; purchaseOf := ∅; lockedBalanceOf := ∅;
     lockupTVLReached := false |}.

(** A batch of 101 addresses. *)
Definition crowd : list address := N.of_nat <$> seq 1 101.

(** *** Further notions *)

(** The storage the administrative entry points write. *)
Definition admin (s : Sale) :=
  (owner s, paused s, serviceContract s, tenantId s, userWhitelist s,
   tokenWhitelist s, isUserWhitelisted s, isTokenWhitelisted s,
   reservedTokenAmount s, metadataURI s).

(** The payment bookkeeping of the purchases. *)
Definition books (s : Sale) :=
  (totalPurchasesInCurrency s, totalParticipants s, hasParticipated s).

(** What [deliver] hands over for [unlocked] tokens when the sale holds
    [held] of them. *)
Definition handover (to : address) (unlocked held : uint256) : list Action :=
  (if decide (0 < N.min unlocked held)
   then [TokenTransfer to (N.min unlocked held)] else [])
  ++ (if decide (0 < unlocked - N.min unlocked held)
      then [TokenMint to (unlocked - N.min unlocked held)] else []).

(** The part of a purchase that is delivered at once. *)
Definition unlocked_share (tokens : uint256) (s : Sale) : uint256 :=
  if lockupTVLReached s then tokens
  else (tokens * (10000 - lockupPercent s)) / 10000.

(** Runs of successful calls made at time [t] or later. *)
Inductive later_steps (t : uint256) (s0 : Sale) : Sale → Prop :=
| later_refl : later_steps t s0 s0
| later_call s m w c s' acts :
    later_steps t s0 s → t <= timestamp m →
    exec m w c s = Some (s', acts) → later_steps t s0 s'.

(** The currency transfers of a direct purchase of [base] plus [fee]: the
    fee to its recipient, then the base payment to the owner or, in vault
    mode, into the sale. *)
Definition direct_payments (currency buyer : address) (fee recipient base : N)
    (s : Sale) : list Action :=
  (if decide (0 < fee ∧ recipient ≠ 0)
   then [if decide (currency = 0) then Pay 0 recipient fee
         else Route currency buyer recipient fee]
   else [])
  ++ (if immediateTransfer s
      then [if decide (currency = 0) then Pay 0 (owner s) base
            else Route currency buyer (owner s) base]
      else if decide (currency = 0) then []
           else [Collect currency buyer base]).

(** The currency transfers of an escrow purchase: the gross payment in,
    the fee to its recipient, the net payment to the owner unless the sale
    is in vault mode. *)
Definition escrow_payments (paymentToken escrow : address)
    (paymentAmount fee recipient : N) (s : Sale) : list Action :=
  (if decide (paymentToken = 0) then []
   else [Collect paymentToken escrow paymentAmount])
  ++ (if decide (0 < fee ∧ recipient ≠ 0)
      then [Pay paymentToken recipient fee] else [])
  ++ (if immediateTransfer s
      then [Pay paymentToken (owner s) (paymentAmount - fee)] else []).

(** The participant counter counts the flagged addresses, and an address
    with a purchase on record is flagged. *)
Definition counted (s : Sale) : Prop :=
  totalParticipants s = N.of_nat (size (hasParticipated s))
  ∧ (∀ a v, hasParticipated s !! a = Some v → v = true)
  ∧ ∀ a, 0 < word (purchaseOf s) a → flag (hasParticipated s) a = true.

(** *** Further scenarios *)

(** The market with a fee oracle whose every call reverts. *)
Definition silent : World :=
  {| minimalCommissionRate := λ _, Caught;
     minimalFeeRecipient := λ _, Caught;
     investmentEscrowFactory := Some 60;
     getCommissionRate := λ _ _, Caught;
     getFeeRecipient := λ _ _, Caught;
     isValidEscrow := λ a, bool_decide (a = 61);
     tokenBalance := 30; hasMinterRole := true; mintOk := Returned ();
     allowance := 0; currencyBalance := 0; transfersOk := true |}.

(** The market with a fee oracle that also answers, on its full interface,
    90% for recipient 77. *)
Definition loud : World :=
  {| minimalCommissionRate := λ _, Returned 250;
     minimalFeeRecipient := λ _, Returned 99;
     investmentEscrowFactory := Some 60;
     getCommissionRate := λ _ _, Returned 9000;
     getFeeRecipient := λ _ _, Returned 77;
     isValidEscrow := λ a, bool_decide (a = 61);
     tokenBalance := 30; hasMinterRole := true; mintOk := Returned ();
     allowance := 0; currencyBalance := 0; transfersOk := true |}.

(** The market with a service contract address that holds no code: its
    calls fail before [try] has anything to catch. *)
Definition vacant : World :=
  {| minimalCommissionRate := λ _, Uncaught;
     minimalFeeRecipient := λ _, Uncaught;
     investmentEscrowFactory := None;
     getCommissionRate := λ _ _, Uncaught;
     getFeeRecipient := λ _ _, Uncaught;
     isValidEscrow := λ a, bool_decide (a = 61);
     tokenBalance := 30; hasMinterRole := true; mintOk := Returned ();
     allowance := 0; currencyBalance := 0; transfersOk := true |}.

(** The market with a fee of 100%. *)
Definition greedy : World :=
  {| minimalCommissionRate := λ _, Returned 10000;
     minimalFeeRecipient := λ _, Returned 99;
     investmentEscrowFactory := Some 60;
     getCommissionRate := λ _ _, Caught;
     getFeeRecipient := λ _ _, Caught;
     isValidEscrow := λ a, bool_decide (a = 61);
     tokenBalance := 30; hasMinterRole := true; mintOk := Returned ();
     allowance := 0; currencyBalance := 0; transfersOk := true |}.

(** After buyer 7's purchase the owner has forced the lockup flag, and
    buyer 7 has then unlocked the 50 locked tokens. *)
Definition released : Sale := set_lockupTVLReached true bought.

Definition unlocked : Sale := set_lockedBalanceOf {[7 := 0]} released.

(** Buyer 8 has bought 500 tokens after buyer 7, which meets the softcap;
    the owner has then paused the sale. *)
Definition sold : Sale :=
  set_lockedBalanceOf {[7 := 50; 8 := 250]}
    (set_totalParticipants 2
       (set_hasParticipated {[7 := true; 8 := true]}
          (set_purchaseOf {[7 := 100; 8 := 500]}
             (set_totalPurchases 600
                (set_totalPurchasesInCurrency {[0 := 600]}
                   (set_paidAmount {[(7, 0) := 100; (8, 0) := 500]}
                      bought)))))).

Definition halted : Sale := set_paused true sold.

(** The offering restricted to buyers 7 and 8, and the sale it opens; the
    owner then removes both from the whitelist. *)
Definition gated_offering : TGEInfo :=
  {| info_metadataURI := "ipfs://offering"; info_price := 10 ^ 18;
     info_hardcap := 10000; info_softcap := 500; info_minPurchase := 100;
     info_maxPurchase := 1000; info_lockupPercent := 5000;
     info_lockupTVL := 5000; info_lockupDuration := 1000;
     info_duration := 86400; info_reservedTokenPercent := 0;
     info_userWhitelist := [7; 8]; info_tokenWhitelist := [] |}.

Definition listed : Sale :=
  set_isUserWhitelisted {[7 := true; 8 := true]}
    (set_userWhitelist [7; 8] opened).

Definition delisted : Sale :=
  set_isUserWhitelisted {[7 := false; 8 := false]} listed.

End TokenSale.

(** * Properties of the escrow *)

Module EscrowSpec.
Import InvestmentEscrow.

Ltac unfold_calls H :=
  unfold exec, deposit, approveAndExecute, partialApproveAndExecute,
    rejectAndRefund, refund, emergencyWithdraw, receive, _executePurchase,
    _refund, _getBalance, nonpayable in H; simpl in H.

Ltac split_status e :=
  let S := fresh "S" in destruct (status e) eqn:S.

Lemma constructor_fresh m i t p e :
  constructor m i t p = Some e →
  status e = Active ∧ amount e = 0 ∧ approvedAmount e = 0
  ∧ refundedAmount e = 0 ∧ balance e = 0.
Proof. unfold constructor. intros H. inv_some. simpl. auto. Qed.

Ltac by_status e :=
  unfold canRefund in *; repeat case_decide; simpl in *;
  destruct (status e) eqn:?; simpl in *;
  try discriminate; try tauto; try (intuition (congruence || lia)).

Lemma exec_booked m w c e e' acts :
  booked e → no_emergency c = true → exec m w c e = Some (e', acts) → booked e'.
Proof.
  unfold booked. intros I A H. destruct c; try discriminate A;
    unfold_calls H; inv_some; simpl; by_status e.
Qed.

Lemma exec_funded m w c e e' acts :
  funded e → no_gifts c = true → exec m w c e = Some (e', acts) → funded e'.
Proof.
  unfold funded. intros I A H. destruct c; try discriminate A;
    unfold_calls H; inv_some; simpl; by_status e.
Qed.

Lemma reachable_booked allowed e :
  allowed EmergencyWithdraw = false → reachable allowed e → booked e.
Proof.
  intros A R. induction R as [m i t p e C | e m w c e' acts R IH Ac X].
  - apply constructor_fresh in C as (S & _ & Ap & Rf & _).
    unfold booked. rewrite S. auto.
  - apply (exec_booked m w c e e' acts IH); [|exact X].
    destruct c; try reflexivity. congruence.
Qed.

Lemma reachable_funded allowed e :
  (∀ c, allowed c = true → unsolicited c = false) →
  reachable allowed e → funded e.
Proof.
  intros A R. induction R as [m i t p e C | e m w c e' acts R IH Ac X].
  - apply constructor_fresh in C as (S & Am & Ap & Rf & B).
    unfold funded. rewrite S. repeat split; congruence.
  - apply (exec_funded m w c e e' acts IH); [|exact X].
    unfold no_gifts. rewrite (A c Ac). reflexivity.
Qed.

Lemma funded_booked e : funded e → booked e.
Proof. unfold funded, booked. destruct (status e); tauto. Qed.

(** The scenarios are runs of the contract. *)

Lemma fresh_deployed : constructor (at_time 1 0 1000) 7 8 0 = Some fresh.
Proof. reflexivity. Qed.

Lemma deposited_run :
  exec (at_time 7 100 2000) calm (Deposit 0) fresh = Some (deposited, []).
Proof. reflexivity. Qed.

Lemma topped_up_run :
  exec (at_time 5 50 3000) calm Receive deposited = Some (topped_up, []).
Proof. reflexivity. Qed.

Lemma swept_run :
  exec (at_time 9 0 4000) calm EmergencyWithdraw topped_up
  = Some (swept, [Pay 0 7 150]).
Proof. reflexivity. Qed.

Lemma partly_executed_run :
  exec (at_time 9 0 4000) calm (PartialApproveAndExecute 60) deposited
  = Some (partly_executed, [Pay 0 8 60; Pay 0 7 40]).
Proof. reflexivity. Qed.

Lemma rejected_run :
  exec (at_time 9 0 4000) calm (RejectAndRefund "kyc") deposited
  = Some (rejected, [Pay 0 7 100]).
Proof. reflexivity. Qed.

Lemma deposited_reachable allowed :
  allowed (Deposit 0) = true → reachable allowed deposited.
Proof.
  intros A. eapply reach_call; [| |exact deposited_run]; [|exact A].
  eapply reach_new. exact fresh_deployed.
Qed.

(** [emergencyWithdraw] records what it swept, whatever was deposited. *)
Lemma emergencyWithdraw_sweeps m w e e' acts :
  emergencyWithdraw m w e = Some (e', acts) →
  status e' = Refunded ∧ refundedAmount e' = balance e
  ∧ amount e' = amount e ∧ approvedAmount e' = approvedAmount e
  ∧ acts = [Pay (paymentToken e) (investor e) (balance e)].
Proof. intros H. unfold_calls H. inv_some. simpl. auto. Qed.

(** C2, as stated: every reachable escrow in a terminal state has
    [approvedAmount + refundedAmount = amount]. It fails after
    [emergencyWithdraw] on an escrow that holds more than its deposit:
    100 deposited, 50 received by a plain transfer, 150 swept and recorded
    as refunded. *)
Lemma emergency_sweep_breaks_sum :
  reachable any_call swept
  ∧ terminal swept
  ∧ approvedAmount swept + refundedAmount swept ≠ amount swept.
Proof.
  split; [|split].
  - eapply reach_call; [| |exact swept_run]; [|reflexivity].
    eapply reach_call; [| |exact topped_up_run]; [|reflexivity].
    apply deposited_reachable. reflexivity.
  - right. left. reflexivity.
  - discriminate.
Qed.

(** C2, amended: an escrow that has left [Active] by any path, which puts
    it in [Executed], [Rejected], [Expired] or [Refunded], has
    [approvedAmount + refundedAmount = amount], provided no funds reached
    it outside [deposit], or [emergencyWithdraw] was not the path. *)
Theorem terminal_amounts_sum (allowed : Call → bool) (e : Escrow) :
  (∀ c, allowed c = true → unsolicited c = false)
  ∨ allowed EmergencyWithdraw = false →
  reachable allowed e →
  status e ≠ Active →
  (terminal e ∨ status e = Rejected)
  ∧ approvedAmount e + refundedAmount e = amount e.
Proof.
  intros H R T.
  assert (B : booked e).
  { destruct H as [G | E].
    - apply funded_booked. exact (reachable_funded allowed e G R).
    - exact (reachable_booked allowed e E R). }
  unfold booked in B. unfold terminal.
  destruct (status e); try contradiction; try congruence;
    (split; [auto|lia]).
Qed.

Lemma terminal_amounts_sum_witness :
  (reachable no_gifts partly_executed
   ∧ status partly_executed = Executed
   ∧ approvedAmount partly_executed + refundedAmount partly_executed
     = amount partly_executed)
  ∧ (reachable no_emergency rejected
     ∧ status rejected = Rejected
     ∧ approvedAmount rejected + refundedAmount rejected = amount rejected).
Proof.
  assert (R : reachable no_gifts partly_executed).
  { eapply reach_call; [| |exact partly_executed_run]; [|reflexivity].
    apply deposited_reachable. reflexivity. }
  assert (R' : reachable no_emergency rejected).
  { eapply reach_call; [| |exact rejected_run]; [|reflexivity].
    apply deposited_reachable. reflexivity. }
  assert (G : ∀ c, no_gifts c = true → unsolicited c = false).
  { intros c A. unfold no_gifts in A. destruct c; simpl in *; congruence. }
  split; (split; [assumption|split; [reflexivity|]]).
  - assert (S : status partly_executed ≠ Active) by discriminate.
    exact (proj2 (terminal_amounts_sum no_gifts partly_executed (or_introl G)
                    R S)).
  - assert (S : status rejected ≠ Active) by discriminate.
    exact (proj2 (terminal_amounts_sum no_emergency rejected
                    (or_intror eq_refl) R' S)).
Defined.

(** C7, as stated: [refund()] succeeds exactly when [canRefund()] holds.
    It fails on an escrow that was never funded, once expired: [canRefund]
    is true and [refund] reverts on "Nothing to refund"; on a funded escrow
    past the admin deadline whose investor rejects the transfer: [refund]
    reverts on "ETH refund failed"; and on a call that carries value, which
    [refund], not being payable, rejects. *)
Lemma canRefund_yet_refund_reverts :
  (reachable any_call fresh
   ∧ canRefund 2593000 fresh = true
   ∧ refund (at_time 7 0 2593000) calm fresh = None)
  ∧ (reachable any_call deposited
     ∧ canRefund 1300000 deposited = true
     ∧ refund (at_time 7 0 1300000) stubborn deposited = None
     ∧ refund (at_time 7 5 1300000) calm deposited = None).
Proof.
  split; (split; [|repeat split; reflexivity]).
  - eapply reach_new. exact fresh_deployed.
  - apply deposited_reachable. reflexivity.
Qed.

(** C7, amended, for an escrow that is not [Rejected]: [canRefund()] is
    false in a finalized status ([Refunded], [Executed], [Expired])
    whatever the time, and otherwise true if the hard expiration time has
    passed, or the status is [Active] with a nonzero deposit and the admin
    deadline has passed. [refund()] succeeds exactly when the call carries
    no value, [canRefund()] holds, the recorded deposit is nonzero, the
    escrow holds at least that much and the transfer to the investor goes
    through. On success the full deposit flows to the investor, and the
    status becomes [Expired] if it was [Active]. *)
Theorem refund_exactly_when (m : Msg) (w : World) (e : Escrow) :
  status e ≠ Rejected →
  (canRefund (timestamp m) e = true ↔
     ¬ (status e = Refunded ∨ status e = Executed ∨ status e = Expired)
     ∧ (expirationTime e <= timestamp m
        ∨ (status e = Active ∧ 0 < amount e
           ∧ adminDeadline e <= timestamp m)))
  ∧ (is_Some (refund m w e) ↔
       value m = 0 ∧ canRefund (timestamp m) e = true
       ∧ 0 < amount e ∧ amount e <= balance e ∧ transferOk w = true)
  ∧ (∀ e' acts, refund m w e = Some (e', acts) →
       acts = [Pay (paymentToken e) (investor e) (amount e)]
       ∧ refundedAmount e' = amount e
       ∧ balance e' = balance e - amount e
       ∧ amount e' = amount e
       ∧ (status e = Active → status e' = Expired)).
Proof.
  intros NR. split; [|split].
  - unfold canRefund. repeat case_decide; split; intros X;
      try discriminate; try reflexivity; tauto.
  - split.
    + intros [[e' acts] H]. unfold_calls H. inv_some; splits; auto;
        repeat case_decide; assumption.
    + intros (V & C & A & B & T). unfold refund, _refund, nonpayable.
      rewrite !option_guard_decide. simpl.
      repeat case_decide; try congruence; try lia; eauto;
        simpl in *; try lia; try congruence.
  - intros e' acts H. unfold_calls H. inv_some; simpl;
      repeat case_decide; simpl; splits; auto; congruence.
Qed.

Lemma refund_exactly_when_witness :
  status deposited ≠ Rejected
  ∧ canRefund 1300000 deposited = true
  ∧ refund (at_time 3 0 1300000) calm deposited
    = Some (set_balance 0
              (set_refundedAmount 100 (set_status Expired deposited)),
            [Pay 0 7 100])
  ∧ is_Some (refund (at_time 3 0 1300000) calm deposited).
Proof.
  assert (NR : status deposited ≠ Rejected) by discriminate.
  split; [exact NR|]. split; [reflexivity|split; [reflexivity|]].
  apply (proj1 (proj2 (refund_exactly_when (at_time 3 0 1300000) calm
                         deposited NR))).
  split; [reflexivity|]. split; [reflexivity|]. simpl. repeat split; lia.
Defined.

End EscrowSpec.

(** * Properties of the sale *)

Module SaleSpec.
Import TokenSale.

Lemma word_insert `{Countable K} (m : gmap K N) (k a : K) (v : N) :
  word (<[k := v]> m) a = if decide (k = a) then v else word m a.
Proof.
  unfold word. case_decide.
  - subst. rewrite lookup_insert_eq. reflexivity.
  - rewrite lookup_insert_ne by assumption. reflexivity.
Qed.

Lemma word_empty `{Countable K} (a : K) : word (∅ : gmap K N) a = 0.
Proof. unfold word. rewrite lookup_empty. reflexivity. Qed.

Lemma same_lockedBalanceOf s : set_lockedBalanceOf (lockedBalanceOf s) s = s.
Proof. destruct s. reflexivity. Qed.

Lemma delivered_app to l1 l2 :
  delivered to (l1 ++ l2) = delivered to l1 + delivered to l2.
Proof.
  induction l1 as [|[] l1 IH]; simpl; try rewrite IH; try reflexivity; lia.
Qed.

Lemma deliver_delivered w to unlocked acts :
  deliver w to unlocked = Some acts →
  delivered to acts = unlocked ∧ ∀ a, a ≠ to → delivered a acts = 0.
Proof.
  unfold deliver. intros H. inv_some; simpl; repeat case_decide;
    try congruence; split; try lia; intros; repeat case_decide;
    try congruence; lia.
Qed.

Lemma participate_frame buyer s s' :
  participate buyer s = Some s' →
  ∃ n h, s' = set_totalParticipants n (set_hasParticipated h s).
Proof.
  unfold participate. intros H. inv_some.
  - exists (totalParticipants s'), (hasParticipated s'). destruct s'. reflexivity.
  - eauto.
Qed.

Lemma distribute_frame w buyer tokens s s' acts :
  distribute w buyer tokens s = Some (s', acts) →
  ∃ l, s' = set_lockedBalanceOf l s
    ∧ (∀ a, a ≠ buyer → word l a = word (lockedBalanceOf s) a)
    ∧ word (lockedBalanceOf s) buyer <= word l buyer
    ∧ delivered buyer acts + (word l buyer - word (lockedBalanceOf s) buyer)
      = tokens
    ∧ (lockupTVLReached s = true →
       l = lockedBalanceOf s ∧ delivered buyer acts = tokens).
Proof.
  unfold distribute. intros H. inv_some;
    match goal with
    | D : deliver _ _ _ = Some _ |- _ =>
        apply deliver_delivered in D as [D _]
    end.
  - exists (lockedBalanceOf s'). rewrite same_lockedBalanceOf.
    repeat split; auto; lia.
  - eexists. split; [reflexivity|].
    repeat split; intros; rewrite ?word_insert; repeat case_decide;
      try congruence; try lia.
  - exists (lockedBalanceOf s'). rewrite same_lockedBalanceOf.
    repeat split; auto; try congruence; lia.
Qed.

Ltac unfold_sale H :=
  unfold exec, setServiceContract, mintReservedTokens, setTenantId,
    purchaseWithEscrow, purchase, unlock, claimBack, claimBack_legacy,
    setLockupTVLReachedForced, setLockupTVLReached, transferFunds, pause,
    unpause, addToUserWhitelist, removeFromUserWhitelist, addToTokenWhitelist,
    removeFromTokenWhitelist, setReservedTokenAmount, transferOwnership,
    renounceOwnership, onlyState, onlyTenantManagerOrInitialOwner, onlyOwner,
    whenNotPaused, onlyWhitelistedUser, onlyWhitelistedCurrency,
    maxPurchaseOf, send, collect, route, forfeit, nonpayable in H.

Ltac frames :=
  repeat match goal with
  | E : participate _ _ = Some _ |- _ =>
      apply participate_frame in E as (? & ? & ->)
  | E : distribute _ _ _ _ = Some _ |- _ =>
      apply distribute_frame in E as (? & -> & ? & ? & ? & ?)
  end.

Ltac inv_exec H := unfold_sale H; inv_some; frames; simpl in *.


Ltac by_word :=
  intros; rewrite ?word_insert, ?word_empty; repeat case_decide;
  simpl in *; subst; try congruence; try lia.

Lemma purchase_effect m w currency amount s s' acts :
  purchase m w currency amount s = Some (s', acts) →
  config s' = config s
  ∧ lockupTVLReached s' = lockupTVLReached s
  ∧ state (timestamp m) s = Some Active
  ∧ minPurchase s <= amount
  ∧ word (purchaseOf s) (sender m) + amount <= maxPurchase s
  ∧ totalPurchases s' = totalPurchases s + amount
  ∧ totalPurchases s' <= hardcap s
  ∧ purchaseOf s'
    = <[sender m := word (purchaseOf s) (sender m) + amount]> (purchaseOf s)
  ∧ (∀ a, a ≠ sender m →
       word (lockedBalanceOf s') a = word (lockedBalanceOf s) a)
  ∧ word (lockedBalanceOf s) (sender m) <= word (lockedBalanceOf s') (sender m)
  ∧ delivered (sender m) acts
    + (word (lockedBalanceOf s') (sender m)
       - word (lockedBalanceOf s) (sender m)) = amount
  ∧ (lockupTVLReached s = true →
     lockedBalanceOf s' = lockedBalanceOf s
     ∧ delivered (sender m) acts = amount).
Proof.
  intros H. inv_exec H; splits; auto; try lia.
Qed.

Lemma purchaseWithEscrow_effect m w investor paymentAmount paymentToken s s'
    acts tokenAmount :
  purchaseWithEscrow m w investor paymentAmount paymentToken s
  = Some (s', acts, tokenAmount) →
  ∃ fee recipient,
    calculatePlatformFee w paymentAmount s = Some (fee, recipient)
    ∧ fee < paymentAmount
    ∧ price s ≠ 0
    ∧ tokenAmount = ((paymentAmount - fee) * 10 ^ 18) / price s
    ∧ config s' = config s
    ∧ lockupTVLReached s' = lockupTVLReached s
    ∧ state (timestamp m) s = Some Active
    ∧ minPurchase s <= word (purchaseOf s) investor + tokenAmount
    ∧ word (purchaseOf s) investor + tokenAmount <= maxPurchase s
    ∧ totalPurchases s' = totalPurchases s + tokenAmount
    ∧ totalPurchases s' <= hardcap s
    ∧ purchaseOf s'
      = <[investor := word (purchaseOf s) investor + tokenAmount]>
          (purchaseOf s)
    ∧ (∀ a, a ≠ investor →
         word (lockedBalanceOf s') a = word (lockedBalanceOf s) a)
    ∧ word (lockedBalanceOf s) investor <= word (lockedBalanceOf s') investor
    ∧ delivered investor acts
      + (word (lockedBalanceOf s') investor
         - word (lockedBalanceOf s) investor) = tokenAmount
    ∧ (lockupTVLReached s = true →
       lockedBalanceOf s' = lockedBalanceOf s
       ∧ delivered investor acts = tokenAmount).
Proof.
  intros H. inv_exec H; do 2 eexists; (split; [reflexivity|]);
    rewrite ?delivered_app in *; simpl in *; splits; auto; try lia.
Qed.

Lemma unlock_effect m w s s' acts :
  unlock m w s = Some (s', acts) →
  config s' = config s
  ∧ lockupTVLReached s' = lockupTVLReached s
  ∧ totalPurchases s' = totalPurchases s
  ∧ purchaseOf s' = purchaseOf s
  ∧ paidAmount s' = paidAmount s
  ∧ lockedBalanceOf s' = <[sender m := 0]> (lockedBalanceOf s)
  ∧ lockupTVLReached s = true
  ∧ createdAt s + lockupDuration s <= timestamp m
  ∧ 0 < word (lockedBalanceOf s) (sender m)
  ∧ acts = [TokenTransfer (sender m) (word (lockedBalanceOf s) (sender m))].
Proof.
  unfold unlock, unlockAvailable. intros H. inv_some; simpl;
    try match goal with
    | D : bool_decide _ = true |- _ => apply bool_decide_eq_true in D
    end;
    splits; auto; congruence.
Qed.

Lemma claimBack_effect m w currency s s' acts :
  claimBack m w currency s = Some (s', acts) →
  config s' = config s
  ∧ lockupTVLReached s' = lockupTVLReached s
  ∧ totalPurchases s' = totalPurchases s
  ∧ state (timestamp m) s = Some Failed
  ∧ immediateTransfer s = false
  ∧ 0 < word (paidAmount s) (sender m, currency)
  ∧ word (paidAmount s') (sender m, currency) = 0
  ∧ word (purchaseOf s') (sender m) = 0
  ∧ word (lockedBalanceOf s') (sender m) = 0
  ∧ (∀ a, a ≠ sender m →
       word (purchaseOf s') a = word (purchaseOf s) a
       ∧ word (lockedBalanceOf s') a = word (lockedBalanceOf s) a)
  ∧ acts = [Pay currency (sender m) (word (paidAmount s) (sender m, currency))].
Proof.
  intros H. inv_exec H. repeat case_decide; simpl; splits; auto; by_word.
Qed.

Lemma claimBack_legacy_eq m w s : claimBack_legacy m w s = claimBack m w 0 s.
Proof. reflexivity. Qed.

Lemma exec_housekeeping m w c s s' acts :
  trades c = false → exec m w c s = Some (s', acts) →
  config s' = config s
  ∧ ledger s' = ledger s
  ∧ (lockupTVLReached s = true → lockupTVLReached s' = true).
Proof.
  intros T H. destruct c; try discriminate T; inv_exec H; auto.
Qed.

Lemma config_fields s s' :
  config s' = config s →
  price s' = price s ∧ hardcap s' = hardcap s ∧ softcap s' = softcap s
  ∧ minPurchase s' = minPurchase s ∧ maxPurchase s' = maxPurchase s
  ∧ lockupTVL s' = lockupTVL s ∧ lockupDuration s' = lockupDuration s
  ∧ duration s' = duration s ∧ createdAt s' = createdAt s
  ∧ immediateTransfer s' = immediateTransfer s.
Proof. unfold config. intros H. inv_some. splits; congruence. Qed.

Lemma ledger_fields s s' :
  ledger s' = ledger s →
  totalPurchases s' = totalPurchases s ∧ purchaseOf s' = purchaseOf s
  ∧ lockedBalanceOf s' = lockedBalanceOf s ∧ paidAmount s' = paidAmount s.
Proof. unfold ledger. intros H. inv_some. splits; congruence. Qed.

Lemma state_ext now s s' :
  config s' = config s → totalPurchases s' = totalPurchases s →
  state now s' = state now s.
Proof.
  intros C T. apply config_fields in C as (_ & H & S & _ & _ & _ & _ & D & A & _).
  unfold state. rewrite H, S, D, A, T. reflexivity.
Qed.

Lemma initialize_effect m w owner_ token_ info tid sc imm s0 acts :
  initialize m w owner_ token_ info tid sc imm = Some (s0, acts) →
  totalPurchases s0 = 0 ∧ purchaseOf s0 = ∅ ∧ lockedBalanceOf s0 = ∅
  ∧ lockupTVL s0 = info_lockupTVL info
  ∧ lockupTVLReached s0 = bool_decide (info_lockupTVL info = 0).
Proof. unfold initialize. intros H. inv_some; simpl; auto. Qed.

(** What a call does to the configuration. *)
Lemma exec_config m w c s s' acts :
  exec m w c s = Some (s', acts) → config s' = config s.
Proof.
  intros H. destruct (trades c) eqn:T.
  - destruct c; try discriminate T; simpl in H.
    + inv_some. apply purchaseWithEscrow_effect in E as (? & ? & E).
      apply E.
    + apply purchase_effect in H. apply H.
    + apply unlock_effect in H. apply H.
    + apply claimBack_effect in H. apply H.
    + rewrite claimBack_legacy_eq in H. apply claimBack_effect in H. apply H.
  - apply (exec_housekeeping m w c s s' acts T H).
Qed.

Lemma steps_config s0 s : steps s0 s → config s = config s0.
Proof.
  induction 1 as [|s m w c s' acts R IH X]; [reflexivity|].
  rewrite (exec_config m w c s s' acts X). exact IH.
Qed.

(** The caps, preserved by every call. *)
Lemma exec_capped m w c s s' acts :
  exec m w c s = Some (s', acts) →
  totalPurchases s <= hardcap s ∧ (∀ a, word (purchaseOf s) a <= maxPurchase s) →
  totalPurchases s' <= hardcap s' ∧ ∀ a, word (purchaseOf s') a <= maxPurchase s'.
Proof.
  intros H [T P].
  pose proof (exec_config m w c s s' acts H) as C.
  apply config_fields in C as (_ & Hc & _ & _ & Mx & _).
  rewrite Hc, Mx. destruct (trades c) eqn:Tr.
  - destruct c; try discriminate Tr; simpl in H.
    + inv_some.
      apply purchaseWithEscrow_effect in E
        as (? & ? & _ & _ & _ & _ & _ & _ & _ & _ & B & _ & Tc & Po & _).
      split; [exact Tc|]. intros a. rewrite Po. specialize (P a). by_word.
    + apply purchase_effect in H as (_ & _ & _ & _ & B & _ & Tc & Po & _).
      split; [exact Tc|]. intros a. rewrite Po. specialize (P a). by_word.
    + apply unlock_effect in H as (_ & _ & Tc & Po & _).
      rewrite Tc, Po. auto.
    + apply claimBack_effect in H as (_ & _ & Tc & _ & _ & _ & _ & Z & _ & O & _).
      rewrite Tc. split; [exact T|]. intros a.
      destruct (decide (a = sender m)) as [->|N]; [rewrite Z; lia|].
      rewrite (proj1 (O a N)). apply P.
    + rewrite claimBack_legacy_eq in H.
      apply claimBack_effect in H as (_ & _ & Tc & _ & _ & _ & _ & Z & _ & O & _).
      rewrite Tc. split; [exact T|]. intros a.
      destruct (decide (a = sender m)) as [->|N]; [rewrite Z; lia|].
      rewrite (proj1 (O a N)). apply P.
  - apply (exec_housekeeping m w c s s' acts Tr) in H as (_ & L & _).
    apply ledger_fields in L as (Tc & Po & _). rewrite Tc, Po. auto.
Qed.

(** The scenarios are runs of the contract. *)

Lemma opened_run :
  initialize (at_time 1 0 1000) market 1 2 offering 0 50 false
  = Some (opened, []).
Proof. vm_compute. reflexivity. Qed.

Lemma bought_run :
  exec (at_time 7 102 2000) market (Purchase 0 100) opened
  = Some (bought, [Pay 0 99 2; TokenTransfer 7 30; TokenMint 7 20]).
Proof. vm_compute. reflexivity. Qed.

Lemma topped_run :
  purchaseWithEscrow (at_time 61 51 3000) market 7 51 0 bought
  = Some (topped, [Pay 0 99 1; TokenTransfer 7 25], 50).
Proof. vm_compute. reflexivity. Qed.

Lemma refunded_run :
  exec (at_time 7 0 90000) market (ClaimBack 0) bought
  = Some (refunded, [Pay 0 7 100]).
Proof. vm_compute. reflexivity. Qed.

Lemma opened_unlocked_run :
  initialize (at_time 1 0 1000) market 1 2 unlocked_offering 0 50 false
  = Some (opened_unlocked, []).
Proof. vm_compute. reflexivity. Qed.

Lemma bought_unlocked_run :
  purchase (at_time 7 102 2000) market 0 100 opened_unlocked
  = Some (bought_unlocked, [Pay 0 99 2; TokenTransfer 7 30; TokenMint 7 70]).
Proof. vm_compute. reflexivity. Qed.

Lemma bought_unlocked_exec :
  exec (at_time 7 102 2000) market (Purchase 0 100) opened_unlocked
  = Some (bought_unlocked, [Pay 0 99 2; TokenTransfer 7 30; TokenMint 7 70]).
Proof. exact bought_unlocked_run. Qed.

Lemma topped_unlocked_run :
  purchaseWithEscrow (at_time 61 51 3000) market 7 51 0 bought_unlocked
  = Some (topped_unlocked, [Pay 0 99 1; TokenTransfer 7 30; TokenMint 7 20],
          50).
Proof. vm_compute. reflexivity. Qed.

Lemma topped_unlocked_exec :
  exec (at_time 61 51 3000) market (PurchaseWithEscrow 7 51 0) bought_unlocked
  = Some (topped_unlocked, [Pay 0 99 1; TokenTransfer 7 30; TokenMint 7 20]).
Proof. vm_compute. reflexivity. Qed.

Lemma reachable_init m w o t info tid sc imm s acts :
  initialize m w o t info tid sc imm = Some (s, acts) → reachable s.
Proof. intros H. unfold reachable. repeat eexists; [exact H|constructor]. Qed.

Lemma reachable_call m w c s s' acts :
  reachable s → exec m w c s = Some (s', acts) → reachable s'.
Proof.
  unfold reachable.
  intros (m0 & w0 & o & t & info & tid & sc & imm & s0 & a0 & I & R) X.
  exists m0, w0, o, t, info, tid, sc, imm, s0, a0.
  split; [exact I|]. exact (steps_call s0 s m w c s' acts R X).
Qed.

Lemma opened_reachable : reachable opened.
Proof. exact (reachable_init _ _ _ _ _ _ _ _ _ _ opened_run). Qed.

Lemma bought_reachable : reachable bought.
Proof. exact (reachable_call _ _ _ _ _ _ opened_reachable bought_run). Qed.

(** C1. In every storage reachable from [initialize] by successful calls
    (purchases, unlocks, refunds, administration), [totalPurchases <=
    hardcap], and [purchaseOf[a] <= maxPurchase] for every address [a]. *)
Theorem caps_hold (s : Sale) :
  reachable s →
  totalPurchases s <= hardcap s ∧ ∀ a, word (purchaseOf s) a <= maxPurchase s.
Proof.
  intros (m0 & w0 & o & t & info & tid & sc & imm & s0 & a0 & I & R).
  induction R as [|s m w c s' acts R IH X].
  - apply initialize_effect in I as (T & P & _).
    rewrite T, P. split; [lia|]. intros a. rewrite word_empty. lia.
  - exact (exec_capped m w c s s' acts X IH).
Qed.

Lemma caps_hold_witness :
  reachable bought
  ∧ totalPurchases bought <= hardcap bought
  ∧ ∀ a, word (purchaseOf bought) a <= maxPurchase bought.
Proof.
  split; [exact bought_reachable|].
  exact (caps_hold bought bought_reachable).
Defined.

(** C3. With [fee] the platform fee resolved on the gross [paymentAmount],
    [purchaseWithEscrow] reverts unless [netPayment = paymentAmount - fee]
    is strictly positive, and when it succeeds it sells exactly
    [netPayment * 1e18 / price] tokens to the investor: that amount is
    returned, added to [purchaseOf[investor]] and to [totalPurchases], and
    handed over, unlocked or as locked balance. *)
Theorem escrow_purchase_sells_net (m : Msg) (w : World)
    (investor paymentAmount paymentToken : N) (s : Sale) (fee recipient : N) :
  calculatePlatformFee w paymentAmount s = Some (fee, recipient) →
  (paymentAmount <= fee →
   purchaseWithEscrow m w investor paymentAmount paymentToken s = None)
  ∧ ∀ s' acts tokenAmount,
      purchaseWithEscrow m w investor paymentAmount paymentToken s
      = Some (s', acts, tokenAmount) →
      0 < paymentAmount - fee
      ∧ tokenAmount = ((paymentAmount - fee) * 10 ^ 18) / price s
      ∧ word (purchaseOf s') investor
        = word (purchaseOf s) investor + tokenAmount
      ∧ totalPurchases s' = totalPurchases s + tokenAmount
      ∧ delivered investor acts
        + (word (lockedBalanceOf s') investor
           - word (lockedBalanceOf s) investor) = tokenAmount.
Proof.
  intros F. split.
  - intros L.
    destruct (purchaseWithEscrow m w investor paymentAmount paymentToken s)
      as [[[s' acts] t]|] eqn:X; [|reflexivity].
    apply purchaseWithEscrow_effect in X as (f & r & F' & Lt & _).
    rewrite F in F'. inv_some. lia.
  - intros s' acts t X.
    apply purchaseWithEscrow_effect in X
      as (f & r & F' & Lt & _ & Tk & _ & _ & _ & _ & _ & Tc & _ & Po & _ & _
          & D & _).
    rewrite F in F'. inv_some. splits; auto; [lia|].
    rewrite Po. by_word.
Qed.

Lemma escrow_purchase_sells_net_witness :
  calculatePlatformFee market 51 bought = Some (1, 99)
  ∧ purchaseWithEscrow (at_time 61 51 3000) market 7 51 0 bought
    = Some (topped, [Pay 0 99 1; TokenTransfer 7 25], 50)
  ∧ 0 < 51 - 1
  ∧ 50 = ((51 - 1) * 10 ^ 18) / price bought
  ∧ word (purchaseOf topped) 7 = word (purchaseOf bought) 7 + 50
  ∧ totalPurchases topped = totalPurchases bought + 50
  ∧ delivered 7 [Pay 0 99 1; TokenTransfer 7 25]
    + (word (lockedBalanceOf topped) 7 - word (lockedBalanceOf bought) 7)
    = 50.
Proof.
  split; [reflexivity|split; [exact topped_run|]].
  exact (proj2 (escrow_purchase_sells_net (at_time 61 51 3000) market 7 51 0
                  bought 1 99 eq_refl) _ _ _ topped_run).
Defined.

(** The limit checks of the two purchase paths. *)
Lemma escrow_limits_cumulative m w investor paymentAmount paymentToken s s'
    acts tokenAmount :
  purchaseWithEscrow m w investor paymentAmount paymentToken s
  = Some (s', acts, tokenAmount) →
  minPurchase s <= word (purchaseOf s) investor + tokenAmount
  ∧ word (purchaseOf s) investor + tokenAmount <= maxPurchase s
  ∧ totalPurchases s + tokenAmount <= hardcap s.
Proof.
  intros X.
  apply purchaseWithEscrow_effect in X
    as (f & r & _ & _ & _ & _ & _ & _ & _ & Mn & Mx & Tc & Hc & _).
  splits; auto; lia.
Qed.

Lemma direct_limits_per_call m w currency amount s s' acts :
  purchase m w currency amount s = Some (s', acts) →
  minPurchase s <= amount
  ∧ word (purchaseOf s) (sender m) + amount <= maxPurchase s
  ∧ totalPurchases s + amount <= hardcap s.
Proof.
  intros X. apply purchase_effect in X as (_ & _ & _ & Mn & Mx & Tc & Hc & _).
  splits; auto; lia.
Qed.

(** C4, at the failing input. Buyer 7 holds 100 tokens of a sale with
    [minPurchase = 100]. A direct purchase of 50 more would bring the
    cumulative purchase to 150, within every limit, and reverts, because
    [purchase] compares the amount of the call with [minPurchase]; the same
    50 tokens bought through an escrow are accepted, and so is a direct
    purchase of 100. *)
Theorem direct_purchase_minimum_per_call :
  reachable bought
  ∧ minPurchase bought <= word (purchaseOf bought) 7 + 50
  ∧ word (purchaseOf bought) 7 + 50 <= maxPurchase bought
  ∧ totalPurchases bought + 50 <= hardcap bought
  ∧ purchase (at_time 7 51 3000) market 0 50 bought = None
  ∧ is_Some (purchase (at_time 7 102 3000) market 0 100 bought)
  ∧ purchaseWithEscrow (at_time 61 51 3000) market 7 51 0 bought
    = Some (topped, [Pay 0 99 1; TokenTransfer 7 25], 50).
Proof.
  split; [exact bought_reachable|].
  vm_compute. splits; try reflexivity; try discriminate.
  eexists. reflexivity.
Qed.

(** [state()] reverts only on the checked addition [createdAt + duration],
    which it reaches when the hardcap is not reached. *)
Lemma state_reverts_iff now s :
  state now s = None ↔
  totalPurchases s < hardcap s ∧ MAX_UINT256 < createdAt s + duration s.
Proof.
  unfold state, checked_add. rewrite option_guard_decide.
  repeat case_decide; simpl; repeat case_decide; split;
    try discriminate; try tauto; try lia.
Qed.

Lemma endless_run :
  initialize (at_time 1 0 1000) market 1 2 endless_offering 0 50 false
  = Some (endless, []).
Proof. vm_compute. reflexivity. Qed.

(** C5, as stated: in every ledger state and at every time [state()]
    returns a classification. It fails in a sale initialized with a
    duration that [createdAt + duration] overflows on: the hardcap is not
    reached, the time 2000 is within the duration, and [state()] reverts on
    the checked addition instead of returning [Active]. *)
Lemma state_reverts_on_endless_sale :
  reachable endless
  ∧ totalPurchases endless < hardcap endless
  ∧ state 2000 endless = None.
Proof.
  split; [exact (reachable_init _ _ _ _ _ _ _ _ _ _ endless_run)|].
  split; reflexivity.
Qed.

(** C5, amended: whenever the deadline [createdAt + duration] is a
    [uint256] (or the hardcap is reached, in which case it is not
    computed), [state()] returns the classification of the specification:
    [Successful] when [totalPurchases >= hardcap], whatever the time;
    otherwise [Active] while the time is before [createdAt + duration];
    otherwise [Successful] if [totalPurchases >= softcap] and [Failed] if
    not. It is a function of the time and of five storage fields, read at
    every call. *)
Theorem state_follows_spec (now : N) (s : Sale) :
  hardcap s <= totalPurchases s ∨ createdAt s + duration s <= MAX_UINT256 →
  state now s = Some (status_by_spec now s)
  ∧ (hardcap s <= totalPurchases s → state now s = Some Successful)
  ∧ ∀ s2,
      hardcap s2 = hardcap s → softcap s2 = softcap s →
      createdAt s2 = createdAt s → duration s2 = duration s →
      totalPurchases s2 = totalPurchases s →
      state now s2 = state now s.
Proof.
  intros H. splits.
  - unfold state, status_by_spec, checked_add. rewrite option_guard_decide.
    repeat case_decide; simpl; repeat case_decide;
      try reflexivity; try lia.
  - intros R. unfold state. case_decide; [reflexivity|lia].
  - intros s2 A B C D E. unfold state. rewrite A, B, C, D, E. reflexivity.
Qed.

Lemma state_follows_spec_witness :
  (hardcap bought <= totalPurchases bought
   ∨ createdAt bought + duration bought <= MAX_UINT256)
  ∧ state 2000 bought = Some Active
  ∧ state 90000 bought = Some Failed.
Proof.
  assert (H : hardcap bought <= totalPurchases bought
              ∨ createdAt bought + duration bought <= MAX_UINT256).
  { right. vm_compute. discriminate. }
  split; [exact H|]. split.
  - exact (proj1 (state_follows_spec 2000 bought H)).
  - exact (proj1 (state_follows_spec 90000 bought H)).
Defined.

(** C6, as stated: no operation other than [unlock()] decreases
    [lockedBalanceOf[a]]. It fails on [claimBack]: buyer 7 holds a locked
    balance of 50 in a failed sale and claims the payment back, which
    clears the locked balance. *)
Lemma claimBack_clears_locked_balance :
  reachable bought
  ∧ exec (at_time 7 0 90000) market (ClaimBack 0) bought
    = Some (refunded, [Pay 0 7 100])
  ∧ word (lockedBalanceOf bought) 7 = 50
  ∧ word (lockedBalanceOf refunded) 7 = 0.
Proof.
  split; [exact bought_reachable|]. split; [exact refunded_run|].
  split; reflexivity.
Qed.

(** C6, amended: a call that decreases [lockedBalanceOf[a]] is made by [a]
    and is either [unlock()], with [lockupTVLReached] set and the time at
    or after [createdAt + lockupDuration], or [claimBack], in a failed
    sale in vault mode. *)
Theorem locked_balance_decreases_by (m : Msg) (w : World) (c : Call)
    (s s' : Sale) (acts : list Action) (a : N) :
  exec m w c s = Some (s', acts) →
  word (lockedBalanceOf s') a < word (lockedBalanceOf s) a →
  a = sender m
  ∧ ((c = Unlock ∧ lockupTVLReached s = true
      ∧ createdAt s + lockupDuration s <= timestamp m)
     ∨ ((c = ClaimBackLegacy ∨ ∃ currency, c = ClaimBack currency)
        ∧ state (timestamp m) s = Some Failed
        ∧ immediateTransfer s = false)).
Proof.
  intros H L. destruct (trades c) eqn:Tr.
  - destruct c; try discriminate Tr; simpl in H.
    + inv_some.
      apply purchaseWithEscrow_effect in E
        as (? & ? & _ & _ & _ & _ & _ & _ & _ & _ & _ & _ & _ & _ & O & B & _).
      destruct (decide (a = investor)) as [->|N]; [lia|].
      rewrite (O a N) in L. lia.
    + apply purchase_effect in H as (_ & _ & _ & _ & _ & _ & _ & _ & O & B & _).
      destruct (decide (a = sender m)) as [->|N]; [lia|].
      rewrite (O a N) in L. lia.
    + apply unlock_effect in H as (_ & _ & _ & _ & _ & Lk & R & T & _).
      rewrite Lk, word_insert in L. case_decide; [|lia].
      split; [congruence|]. left. auto.
    + apply claimBack_effect in H as (_ & _ & _ & F & V & _ & _ & _ & _ & O & _).
      destruct (decide (a = sender m)) as [->|N].
      * split; [reflexivity|]. right. eauto.
      * rewrite (proj2 (O a N)) in L. lia.
    + rewrite claimBack_legacy_eq in H.
      apply claimBack_effect in H as (_ & _ & _ & F & V & _ & _ & _ & _ & O & _).
      destruct (decide (a = sender m)) as [->|N].
      * split; [reflexivity|]. right. auto.
      * rewrite (proj2 (O a N)) in L. lia.
  - apply (exec_housekeeping m w c s s' acts Tr) in H as (_ & Lg & _).
    apply ledger_fields in Lg as (_ & _ & Lk & _). rewrite Lk in L. lia.
Qed.

Lemma locked_balance_decreases_by_witness :
  exec (at_time 7 0 90000) market (ClaimBack 0) bought
  = Some (refunded, [Pay 0 7 100])
  ∧ word (lockedBalanceOf refunded) 7 < word (lockedBalanceOf bought) 7
  ∧ 7 = sender (at_time 7 0 90000)
  ∧ state 90000 bought = Some Failed.
Proof.
  assert (L : word (lockedBalanceOf refunded) 7
              < word (lockedBalanceOf bought) 7) by reflexivity.
  split; [exact refunded_run|]. split; [exact L|].
  split; [|reflexivity].
  exact (proj1 (locked_balance_decreases_by _ _ _ _ _ _ 7 refunded_run L)).
Defined.

(** The batch cap of the four whitelist operations. *)
Lemma add_rejects_large_batch m l s :
  MAX_WHITELIST_BATCH < N.of_nat (length l) →
  addToUserWhitelist m l s = None ∧ addToTokenWhitelist m l s = None.
Proof.
  intros L. unfold addToUserWhitelist, addToTokenWhitelist,
    onlyTenantManagerOrInitialOwner, nonpayable.
  rewrite !option_guard_decide. repeat case_decide; simpl;
    rewrite ?option_guard_decide; repeat case_decide; simpl;
    rewrite ?option_guard_decide; repeat case_decide; auto; lia.
Qed.

Lemma remove_accepts_any_batch m l s :
  value m = 0 →
  owner s = sender m →
  is_Some (removeFromUserWhitelist m l s)
  ∧ is_Some (removeFromTokenWhitelist m l s).
Proof.
  intros V O. unfold removeFromUserWhitelist, removeFromTokenWhitelist,
    onlyTenantManagerOrInitialOwner, nonpayable.
  rewrite !option_guard_decide, !decide_True by assumption.
  simpl. split; eexists; reflexivity.
Qed.

(** C8, at the failing input. A batch of 101 addresses, one more than
    [MAX_WHITELIST_BATCH], is rejected by the two add operations and
    accepted by the two remove operations, which have no cap. *)
Theorem remove_whitelist_has_no_cap :
  MAX_WHITELIST_BATCH < N.of_nat (length crowd)
  ∧ addToUserWhitelist (at_time 1 0 2000) crowd opened = None
  ∧ addToTokenWhitelist (at_time 1 0 2000) crowd opened = None
  ∧ is_Some (removeFromUserWhitelist (at_time 1 0 2000) crowd opened)
  ∧ is_Some (removeFromTokenWhitelist (at_time 1 0 2000) crowd opened).
Proof.
  assert (L : MAX_WHITELIST_BATCH < N.of_nat (length crowd)) by reflexivity.
  split; [exact L|].
  destruct (add_rejects_large_batch (at_time 1 0 2000) crowd opened L)
    as [A B].
  destruct (remove_accepts_any_batch (at_time 1 0 2000) crowd opened eq_refl
              eq_refl) as [C D].
  auto.
Qed.

(** With the flag set, a call leaves the flag set and every locked balance
    at zero. *)
Lemma exec_unlocked m w c s s' acts :
  exec m w c s = Some (s', acts) →
  lockupTVLReached s = true ∧ (∀ a, word (lockedBalanceOf s) a = 0) →
  lockupTVLReached s' = true ∧ ∀ a, word (lockedBalanceOf s') a = 0.
Proof.
  intros H [R Z]. destruct (trades c) eqn:Tr.
  - destruct c; try discriminate Tr; simpl in H.
    + inv_some.
      apply purchaseWithEscrow_effect in E
        as (? & ? & _ & _ & _ & _ & _ & F & _ & _ & _ & _ & _ & _ & _ & _ & _
            & U).
      destruct (U R) as [-> _]. split; [congruence|exact Z].
    + apply purchase_effect in H
        as (_ & F & _ & _ & _ & _ & _ & _ & _ & _ & _ & U).
      destruct (U R) as [-> _]. split; [congruence|exact Z].
    + apply unlock_effect in H as (_ & F & _ & _ & _ & -> & _).
      split; [congruence|]. intros a. rewrite word_insert.
      case_decide; auto.
    + apply claimBack_effect in H as (_ & F & _ & _ & _ & _ & _ & _ & L & O & _).
      split; [congruence|]. intros a.
      destruct (decide (a = sender m)) as [->|N]; [exact L|].
      rewrite (proj2 (O a N)). apply Z.
    + rewrite claimBack_legacy_eq in H.
      apply claimBack_effect in H as (_ & F & _ & _ & _ & _ & _ & _ & L & O & _).
      split; [congruence|]. intros a.
      destruct (decide (a = sender m)) as [->|N]; [exact L|].
      rewrite (proj2 (O a N)). apply Z.
  - apply (exec_housekeeping m w c s s' acts Tr) in H as (_ & Lg & F).
    apply ledger_fields in Lg as (_ & _ & -> & _). auto.
Qed.

(** C9. After [initialize] with [lockupTVL = 0], in every storage reached
    by successful calls [lockupTVLReached] is set and every locked balance
    is zero; a purchase, direct or through an escrow, hands over all of
    the purchased tokens at once, whatever [lockupPercent] is. *)
Theorem zero_lockupTVL_never_locks (m0 : Msg) (w0 : World)
    (owner_ token_ : N) (info : TGEInfo) (_tenantId _serviceContract : N)
    (_immediateTransfer : bool) (s0 s : Sale) (acts0 : list Action) :
  initialize m0 w0 owner_ token_ info _tenantId _serviceContract
    _immediateTransfer = Some (s0, acts0) →
  info_lockupTVL info = 0 →
  steps s0 s →
  lockupTVLReached s = true
  ∧ (∀ a, word (lockedBalanceOf s) a = 0)
  ∧ (∀ m w currency amount s' acts,
       purchase m w currency amount s = Some (s', acts) →
       delivered (sender m) acts = amount
       ∧ ∀ a, word (lockedBalanceOf s') a = 0)
  ∧ (∀ m w investor paymentAmount paymentToken s' acts tokenAmount,
       purchaseWithEscrow m w investor paymentAmount paymentToken s
       = Some (s', acts, tokenAmount) →
       delivered investor acts = tokenAmount
       ∧ ∀ a, word (lockedBalanceOf s') a = 0).
Proof.
  intros I Z R.
  assert (Inv : lockupTVLReached s = true
                ∧ ∀ a, word (lockedBalanceOf s) a = 0).
  { induction R as [|s m w c s' acts R IH X].
    - apply initialize_effect in I as (_ & _ & L & _ & F).
      rewrite F, L. split.
      + apply bool_decide_eq_true. exact Z.
      + intros a. apply word_empty.
    - exact (exec_unlocked m w c s s' acts X IH). }
  destruct Inv as [F L]. splits; auto.
  - intros m w currency amount s' acts X.
    apply purchase_effect in X as (_ & _ & _ & _ & _ & _ & _ & _ & _ & _ & _ & U).
    destruct (U F) as [-> D]. auto.
  - intros m w investor paymentAmount paymentToken s' acts tokenAmount X.
    apply purchaseWithEscrow_effect in X
      as (? & ? & _ & _ & _ & _ & _ & _ & _ & _ & _ & _ & _ & _ & _ & _ & _ & U).
    destruct (U F) as [-> D]. auto.
Qed.

Lemma zero_lockupTVL_never_locks_witness :
  initialize (at_time 1 0 1000) market 1 2 unlocked_offering 0 50 false
  = Some (opened_unlocked, [])
  ∧ info_lockupTVL unlocked_offering = 0
  ∧ info_lockupPercent unlocked_offering = 5000
  ∧ (purchase (at_time 7 102 2000) market 0 100 opened_unlocked
     = Some (bought_unlocked,
             [Pay 0 99 2; TokenTransfer 7 30; TokenMint 7 70])
     ∧ delivered 7 [Pay 0 99 2; TokenTransfer 7 30; TokenMint 7 70] = 100)
  ∧ steps opened_unlocked bought_unlocked
  ∧ (purchaseWithEscrow (at_time 61 51 3000) market 7 51 0 bought_unlocked
     = Some (topped_unlocked,
             [Pay 0 99 1; TokenTransfer 7 30; TokenMint 7 20], 50)
     ∧ delivered 7 [Pay 0 99 1; TokenTransfer 7 30; TokenMint 7 20] = 50)
  ∧ steps opened_unlocked topped_unlocked
  ∧ lockupTVLReached topped_unlocked = true
  ∧ ∀ a, word (lockedBalanceOf topped_unlocked) a = 0.
Proof.
  assert (S1 : steps opened_unlocked bought_unlocked).
  { exact (steps_call _ _ _ _ _ _ _ (steps_refl opened_unlocked)
             bought_unlocked_exec). }
  assert (S2 : steps opened_unlocked topped_unlocked).
  { exact (steps_call _ _ _ _ _ _ _ S1 topped_unlocked_exec). }
  pose proof (zero_lockupTVL_never_locks _ _ _ _ _ _ _ _ _ opened_unlocked _
                opened_unlocked_run eq_refl (steps_refl opened_unlocked))
    as (_ & _ & P & _).
  pose proof (zero_lockupTVL_never_locks _ _ _ _ _ _ _ _ _ bought_unlocked _
                opened_unlocked_run eq_refl S1) as (_ & _ & _ & Q).
  pose proof (zero_lockupTVL_never_locks _ _ _ _ _ _ _ _ _ topped_unlocked _
                opened_unlocked_run eq_refl S2) as (F & L & _).
  split; [exact opened_unlocked_run|].
  split; [reflexivity|]. split; [reflexivity|].
  split; [split; [exact bought_unlocked_run|]|].
  { exact (proj1 (P _ _ _ _ _ _ bought_unlocked_run)). }
  split; [exact S1|].
  split; [split; [exact topped_unlocked_run|]|].
  { exact (proj1 (Q _ _ _ _ _ _ _ _ topped_unlocked_run)). }
  split; [exact S2|]. split; [exact F|exact L].
Defined.

(** C10. No call decreases [totalPurchases]. A successful [claimBack], in
    either overload, zeroes the caller's [paidAmount] in the currency,
    [purchaseOf] and [lockedBalanceOf], leaves [totalPurchases] as it was,
    and [state()] answers after it what it answered before, at every
    time. *)
Theorem refunds_keep_totalPurchases (m : Msg) (w : World) (c : Call)
    (s s' : Sale) (acts : list Action) :
  exec m w c s = Some (s', acts) →
  totalPurchases s <= totalPurchases s'
  ∧ ∀ currency,
      c = ClaimBack currency ∨ (c = ClaimBackLegacy ∧ currency = 0) →
      word (paidAmount s') (sender m, currency) = 0
      ∧ word (purchaseOf s') (sender m) = 0
      ∧ word (lockedBalanceOf s') (sender m) = 0
      ∧ totalPurchases s' = totalPurchases s
      ∧ ∀ now, state now s' = state now s.
Proof.
  intros H. split.
  - destruct (trades c) eqn:Tr.
    + destruct c; try discriminate Tr; simpl in H.
      * inv_some.
        apply purchaseWithEscrow_effect in E
          as (? & ? & _ & _ & _ & _ & _ & _ & _ & _ & _ & T & _).
        lia.
      * apply purchase_effect in H as (_ & _ & _ & _ & _ & T & _). lia.
      * apply unlock_effect in H as (_ & _ & T & _). lia.
      * apply claimBack_effect in H as (_ & _ & T & _). lia.
      * rewrite claimBack_legacy_eq in H.
        apply claimBack_effect in H as (_ & _ & T & _). lia.
    + apply (exec_housekeeping m w c s s' acts Tr) in H as (_ & Lg & _).
      apply ledger_fields in Lg as (T & _). lia.
  - intros currency [-> | [-> ->]]; simpl in H;
      rewrite ?claimBack_legacy_eq in H;
      apply claimBack_effect in H as (C & _ & T & _ & _ & _ & Pd & Po & Lk & _);
      splits; auto; intros now; apply state_ext; assumption.
Qed.

Lemma refunds_keep_totalPurchases_witness :
  exec (at_time 7 0 90000) market (ClaimBack 0) bought
  = Some (refunded, [Pay 0 7 100])
  ∧ totalPurchases bought <= totalPurchases refunded
  ∧ word (paidAmount refunded) (7, 0) = 0
  ∧ totalPurchases refunded = 100
  ∧ state 90000 refunded = Some Failed.
Proof.
  pose proof (refunds_keep_totalPurchases _ _ _ _ _ _ refunded_run) as [M R].
  split; [exact refunded_run|]. split; [exact M|].
  splits; reflexivity.
Defined.

End SaleSpec.

(** * Further properties of the escrow *)

Module EscrowMore.
Import InvestmentEscrow EscrowSpec.

(** ** Helper lemmas *)

(** A call leaves the immutable part of the storage as it was. *)
Lemma exec_identity m w c e e' acts :
  exec m w c e = Some (e', acts) → identity e' = identity e.
Proof.
  intros X. destruct c; unfold_calls X; inv_some; repeat case_decide;
    reflexivity.
Qed.

Lemma exec_held m w c e e' acts :
  held e → no_gifts c = true → exec m w c e = Some (e', acts) → held e'.
Proof.
  unfold held. intros I A H. destruct c; try discriminate A;
    unfold_calls H; inv_some; simpl; by_status e.
Qed.

(** [held] is an invariant of the calls that bring no unsolicited funds. *)
Lemma reachable_held allowed e :
  (∀ c, allowed c = true → unsolicited c = false) →
  reachable allowed e → held e.
Proof.
  intros A R. induction R as [m i t p e C | e m w c e' acts R IH Ac X].
  - apply constructor_fresh in C as (S & Am & Ap & Rf & B).
    unfold held. rewrite S. congruence.
  - apply (exec_held m w c e e' acts IH); [|exact X].
    unfold no_gifts. rewrite (A c Ac). reflexivity.
Qed.

Lemma no_gifts_solicited c : no_gifts c = true → unsolicited c = false.
Proof. unfold no_gifts. destruct (unsolicited c); simpl; congruence. Qed.

Lemma rejected_reachable : reachable no_gifts rejected.
Proof.
  eapply reach_call; [| |exact rejected_run]; [|reflexivity].
  apply deposited_reachable. reflexivity.
Qed.

Lemma partly_executed_reachable : reachable no_gifts partly_executed.
Proof.
  eapply reach_call; [| |exact partly_executed_run]; [|reflexivity].
  apply deposited_reachable. reflexivity.
Qed.

(** ** Deposits *)

(** X1. A successful [deposit] records a nonzero amount and leaves the
    escrow [Active]; after it every further [deposit], by anyone, with any
    amount and at any time, reverts. *)
Theorem deposit_only_once m w a e e' acts :
  deposit m w a e = Some (e', acts) →
  0 < amount e' ∧ status e' = Active
  ∧ ∀ m' w' a', deposit m' w' a' e' = None.
Proof.
  intros H. unfold_calls H. inv_some; simpl; splits; auto;
    intros m' w' a'; unfold deposit; simpl;
    rewrite !option_guard_decide; repeat case_decide; auto; lia.
Qed.

Lemma deposit_only_once_witness :
  deposit (at_time 7 100 2000) calm 0 fresh = Some (deposited, [])
  ∧ 0 < amount deposited
  ∧ deposit (at_time 7 5 2500) calm 0 deposited = None.
Proof.
  assert (D : deposit (at_time 7 100 2000) calm 0 fresh
              = Some (deposited, [])) by reflexivity.
  destruct (deposit_only_once _ _ _ _ _ _ D) as (A & _ & O).
  split; [exact D|]. split; [exact A|]. apply O.
Defined.

(** X2. In an escrow that received no funds outside [deposit], the
    balance is the recorded deposit while the status is [Active], and zero in
    every other status: a settlement pays out all of the deposit. *)
Theorem escrow_holds_its_deposit allowed e :
  (∀ c, allowed c = true → unsolicited c = false) →
  reachable allowed e →
  (status e = Active → balance e = amount e)
  ∧ (status e ≠ Active → balance e = 0).
Proof.
  intros A R. pose proof (reachable_held allowed e A R) as H.
  unfold held in H. destruct (status e); split; intros; try congruence;
    tauto.
Qed.

Lemma escrow_holds_its_deposit_witness :
  reachable no_gifts partly_executed
  ∧ status partly_executed ≠ Active
  ∧ balance partly_executed = 0.
Proof.
  assert (S : status partly_executed ≠ Active) by discriminate.
  split; [exact partly_executed_reachable|]. split; [exact S|].
  exact (proj2 (escrow_holds_its_deposit no_gifts partly_executed
                  no_gifts_solicited partly_executed_reachable) S).
Defined.

(** ** The status machine *)

(** X3. A successful call either keeps the status, or leaves [Active]
    for [Executed], [Rejected], [Expired] or [Refunded], or moves a status
    other than [Active], [Executed] and [Refunded] to [Refunded]. So no
    call changes the status to [Active], [Approved] or
    [PartiallyApproved]. *)
Theorem status_transitions m w c e e' acts :
  exec m w c e = Some (e', acts) →
  status e' = status e
  ∨ (status e = Active
     ∧ (status e' = Executed ∨ status e' = Rejected ∨ status e' = Expired
        ∨ status e' = Refunded))
  ∨ (status e ≠ Active ∧ status e ≠ Executed ∧ status e ≠ Refunded
     ∧ status e' = Refunded).
Proof.
  intros X. destruct c; unfold_calls X; inv_some; simpl; by_status e.
Qed.

Lemma status_transitions_witness :
  exec (at_time 9 0 4000) calm (RejectAndRefund "kyc") deposited
  = Some (rejected, [Pay 0 7 100])
  ∧ (status rejected = status deposited
     ∨ (status deposited = Active
        ∧ (status rejected = Executed ∨ status rejected = Rejected
           ∨ status rejected = Expired ∨ status rejected = Refunded))
     ∨ (status deposited ≠ Active ∧ status deposited ≠ Executed
        ∧ status deposited ≠ Refunded ∧ status rejected = Refunded)).
Proof.
  split; [exact rejected_run|].
  exact (status_transitions _ _ _ _ _ _ rejected_run).
Defined.

(** X4. In the statuses [Executed] and [Refunded] every entry
    point reverts; only a plain transfer to [receive] can still go
    through. *)
Theorem finalized_escrow_is_closed m w c e :
  status e = Executed ∨ status e = Refunded →
  unsolicited c = false →
  exec m w c e = None.
Proof.
  intros F U. destruct (exec m w c e) as [[e' acts]|] eqn:X; [|reflexivity].
  exfalso. destruct c; try discriminate U; unfold_calls X; inv_some;
    by_status e.
Qed.

Lemma finalized_escrow_is_closed_witness :
  status partly_executed = Executed
  ∧ exec (at_time 9 0 5000) calm EmergencyWithdraw partly_executed = None
  ∧ exec (at_time 7 0 3000000) calm Refund partly_executed = None.
Proof.
  split; [reflexivity|].
  split; apply finalized_escrow_is_closed; auto.
Defined.

(** X5. An escrow that received no funds outside [deposit] and
    is [Rejected] or [Expired] has paid the deposit back, and every entry
    point reverts on it: [refund] and [emergencyWithdraw] find nothing to
    send. *)
Theorem settled_escrow_is_closed allowed e m w c :
  (∀ c, allowed c = true → unsolicited c = false) →
  reachable allowed e →
  status e = Rejected ∨ status e = Expired →
  unsolicited c = false →
  exec m w c e = None.
Proof.
  intros A R S U. pose proof (reachable_held allowed e A R) as H.
  unfold held in H.
  destruct (exec m w c e) as [[e' acts]|] eqn:X; [|reflexivity].
  exfalso. destruct c; try discriminate U; unfold_calls X; inv_some;
    by_status e.
Qed.

Lemma settled_escrow_is_closed_witness :
  reachable no_gifts rejected
  ∧ status rejected = Rejected
  ∧ exec (at_time 7 0 5000) calm Refund rejected = None
  ∧ exec (at_time 9 0 5000) calm EmergencyWithdraw rejected = None.
Proof.
  split; [exact rejected_reachable|]. split; [reflexivity|].
  split;
    apply (settled_escrow_is_closed no_gifts rejected _ _ _
             no_gifts_solicited rejected_reachable); auto.
Defined.

(** ** Where the funds go *)

(** X6. A successful call leaves the immutable fields as they
    were, and every transfer it makes is in the escrow's payment currency
    and either pays the investor, or pays the sale on an admin's call, or
    collects the deposit from the investor. *)
Theorem funds_reach_investor_or_sale m w c e e' acts :
  exec m w c e = Some (e', acts) →
  identity e' = identity e ∧ Forall (sanctioned m w e) acts.
Proof.
  intros X. destruct c; unfold_calls X; inv_some; repeat case_decide; simpl;
    (split; [reflexivity|]);
    repeat match goal with |- Forall _ _ => constructor end; simpl;
    try (split; [reflexivity|]);
    first [reflexivity | assumption | left; reflexivity
          | right; split; [reflexivity|assumption]].
Qed.

Lemma funds_reach_investor_or_sale_witness :
  exec (at_time 9 0 4000) calm (PartialApproveAndExecute 60) deposited
  = Some (partly_executed, [Pay 0 8 60; Pay 0 7 40])
  ∧ Forall (sanctioned (at_time 9 0 4000) calm deposited)
      [Pay 0 8 60; Pay 0 7 40].
Proof.
  split; [exact partly_executed_run|].
  exact (proj2 (funds_reach_investor_or_sale _ _ _ _ _ _ partly_executed_run)).
Defined.

(** X7. A successful [partialApproveAndExecute] pays the
    approved part to the sale and the rest of the deposit to the investor,
    both nonzero, records both parts and the sale's answer, and ends
    [Executed] with the balance reduced by the whole deposit. *)
Theorem partial_approval_splits_deposit m w a e e' acts :
  partialApproveAndExecute m w a e = Some (e', acts) →
  ∃ bought, saleResult w = Some bought
  ∧ acts = [Pay (paymentToken e) (tokenSale e) a;
            Pay (paymentToken e) (investor e) (amount e - a)]
  ∧ status e' = Executed ∧ tokenAmount e' = bought
  ∧ approvedAmount e' = a ∧ refundedAmount e' = amount e - a
  ∧ 0 < a ∧ 0 < amount e - a
  ∧ balance e' + amount e = balance e.
Proof.
  intros X. unfold_calls X. inv_some. simpl in *. eexists. splits; eauto; lia.
Qed.

Lemma partial_approval_splits_deposit_witness :
  partialApproveAndExecute (at_time 9 0 4000) calm 60 deposited
  = Some (partly_executed, [Pay 0 8 60; Pay 0 7 40])
  ∧ ∃ bought, saleResult calm = Some bought
      ∧ tokenAmount partly_executed = bought.
Proof.
  assert (P : partialApproveAndExecute (at_time 9 0 4000) calm 60 deposited
              = Some (partly_executed, [Pay 0 8 60; Pay 0 7 40]))
    by reflexivity.
  split; [exact P|].
  destruct (partial_approval_splits_deposit _ _ _ _ _ _ P)
    as (b & S & _ & _ & T & _).
  exists b. split; assumption.
Defined.

(** X8. Once the admin deadline has passed on a funded [Active] escrow
    that received nothing outside [deposit], a [refund] that carries no
    value, called by anyone, pays the whole deposit to the investor when
    the transfer goes through, and ends [Expired]. Until the expiration
    time an admin's [approveAndExecute] without value still succeeds
    instead, provided the sale's purchase call succeeds. *)
Theorem admin_deadline_opens_refund allowed e m w :
  (∀ c, allowed c = true → unsolicited c = false) →
  reachable allowed e →
  status e = Active → 0 < amount e →
  adminDeadline e <= timestamp m →
  value m = 0 →
  (transferOk w = true →
   refund m w e
   = Some (set_balance 0
             (set_refundedAmount (amount e) (set_status Expired e)),
           [Pay (paymentToken e) (investor e) (amount e)]))
  ∧ (timestamp m < expirationTime e → isAdmin w (sender m) = true →
     is_Some (saleResult w) → is_Some (approveAndExecute m w e)).
Proof.
  intros A R S F D V. pose proof (reachable_held allowed e A R) as H.
  unfold held in H. rewrite S in H. split.
  - intros T. unfold refund, _refund, canRefund, nonpayable.
    rewrite !option_guard_decide. simpl.
    repeat case_decide; simpl in *; try congruence; try lia;
      try (exfalso; intuition (congruence || lia)).
    all: rewrite H, N.sub_diag; reflexivity.
  - intros X Ad [t St]. unfold approveAndExecute, _executePurchase,
      nonpayable.
    rewrite !option_guard_decide. simpl. rewrite St. simpl.
    repeat case_decide; simpl in *; eauto; try congruence; try lia;
      exfalso; intuition (congruence || lia).
Qed.

Lemma admin_deadline_opens_refund_witness :
  reachable no_gifts deposited
  ∧ adminDeadline deposited <= 1300000
  ∧ 1300000 < expirationTime deposited
  ∧ refund (at_time 3 0 1300000) calm deposited
    = Some (set_balance 0
              (set_refundedAmount 100 (set_status Expired deposited)),
            [Pay 0 7 100])
  ∧ is_Some (approveAndExecute (at_time 9 0 1300000) calm deposited).
Proof.
  assert (R : reachable no_gifts deposited)
    by (apply deposited_reachable; reflexivity).
  assert (D : adminDeadline deposited <= 1300000) by (simpl; lia).
  assert (X : 1300000 < expirationTime deposited) by (simpl; lia).
  assert (F : 0 < amount deposited) by (simpl; lia).
  split; [exact R|]. split; [exact D|]. split; [exact X|]. split.
  - destruct (admin_deadline_opens_refund no_gifts deposited
                (at_time 3 0 1300000) calm no_gifts_solicited R eq_refl F D
                eq_refl) as [Rf _].
    exact (Rf eq_refl).
  - destruct (admin_deadline_opens_refund no_gifts deposited
                (at_time 9 0 1300000) calm no_gifts_solicited R eq_refl F D
                eq_refl) as [_ Ap].
    apply Ap; [exact X|reflexivity|]. eexists. reflexivity.
Defined.

End EscrowMore.

(** * Further properties of the sale *)

Module SaleMore.
Import TokenSale SaleSpec.

(** ** Helper lemmas *)

(** The exact effect of the steps of a purchase. *)
Lemma deliver_exact w to unlocked acts :
  deliver w to unlocked = Some acts →
  acts = handover to unlocked (tokenBalance w)
  ∧ (tokenBalance w < unlocked →
     hasMinterRole w = true ∧ mintOk w = Returned ())
  ∧ (0 < N.min unlocked (tokenBalance w) → transfersOk w = true).
Proof.
  unfold deliver, handover. intros H. inv_some; simpl;
    repeat case_decide; try lia; splits; auto; intros; try lia; auto.
Qed.

Lemma participate_exact buyer s s' :
  participate buyer s = Some s' →
  ∃ n h, s' = set_totalParticipants n (set_hasParticipated h s)
    ∧ (h, n) = (if flag (hasParticipated s) buyer
                then (hasParticipated s, totalParticipants s)
                else (<[buyer := true]> (hasParticipated s),
                      totalParticipants s + 1)).
Proof.
  unfold participate. intros H. inv_some.
  - exists (totalParticipants s'), (hasParticipated s'). split; [|reflexivity].
    destruct s'. reflexivity.
  - do 2 eexists. split; reflexivity.
Qed.

Lemma distribute_exact w buyer tokens s s' acts :
  distribute w buyer tokens s = Some (s', acts) →
  ∃ l, s' = set_lockedBalanceOf l s
    ∧ deliver w buyer (unlocked_share tokens s) = Some acts
    ∧ unlocked_share tokens s <= tokens
    ∧ (lockupTVLReached s = false → lockupPercent s <= 10000)
    ∧ l = (if decide (0 < tokens - unlocked_share tokens s)
           then <[buyer := word (lockedBalanceOf s) buyer
                             + (tokens - unlocked_share tokens s)]>
                  (lockedBalanceOf s)
           else lockedBalanceOf s).
Proof.
  unfold distribute, unlocked_share. intros H. inv_some.
  - exists (lockedBalanceOf s'). rewrite same_lockedBalanceOf.
    splits; auto; try lia; try congruence.
    case_decide; [lia|reflexivity].
  - eexists. split; [reflexivity|]. simpl. splits; auto.
    case_decide; [reflexivity|lia].
  - exists (lockedBalanceOf s'). rewrite same_lockedBalanceOf.
    splits; auto. case_decide; [lia|reflexivity].
Qed.

Ltac exact_frames :=
  repeat match goal with
  | E : participate _ _ = Some _ |- _ =>
      apply participate_exact in E as (? & ? & -> & ?)
  | E : distribute _ _ _ _ = Some _ |- _ =>
      apply distribute_exact in E as (? & -> & ? & ? & ? & ?)
  end.

Ltac inv_books H := unfold_sale H; inv_some; exact_frames; simpl in *.

(** What a direct purchase pays, delivers and books. *)
Lemma purchase_books m w currency amount s s' acts :
  purchase m w currency amount s = Some (s', acts) →
  ∃ fee recipient,
    amount * price s <= MAX_UINT256
    ∧ calculatePlatformFee w ((amount * price s) / 10 ^ 18) s
      = Some (fee, recipient)
    ∧ (if decide (currency = 0)
       then value m = (amount * price s) / 10 ^ 18 + fee
       else (amount * price s) / 10 ^ 18 + fee <= allowance w)
    ∧ admin s' = admin s
    ∧ totalPurchasesInCurrency s'
      = <[currency := word (totalPurchasesInCurrency s) currency
                      + (amount * price s) / 10 ^ 18]>
          (totalPurchasesInCurrency s)
    ∧ paidAmount s'
      = (if immediateTransfer s then paidAmount s
         else <[(sender m, currency) :=
                  word (paidAmount s) (sender m, currency)
                  + (amount * price s) / 10 ^ 18]> (paidAmount s))
    ∧ (hasParticipated s', totalParticipants s')
      = (if flag (hasParticipated s) (sender m)
         then (hasParticipated s, totalParticipants s)
         else (<[sender m := true]> (hasParticipated s),
               totalParticipants s + 1))
    ∧ acts = direct_payments currency (sender m) fee recipient
               ((amount * price s) / 10 ^ 18) s
             ++ handover (sender m) (unlocked_share amount s) (tokenBalance w)
    ∧ (tokenBalance w < unlocked_share amount s → hasMinterRole w = true)
    ∧ unlocked_share amount s <= amount
    ∧ (lockupTVLReached s = false → lockupPercent s <= 10000)
    ∧ lockedBalanceOf s'
      = (if decide (0 < amount - unlocked_share amount s)
         then <[sender m := word (lockedBalanceOf s) (sender m)
                            + (amount - unlocked_share amount s)]>
                (lockedBalanceOf s)
         else lockedBalanceOf s).
Proof.
  intros H. inv_books H;
    match goal with
    | D : deliver _ _ _ = Some _ |- _ =>
        apply deliver_exact in D as (-> & ? & ?)
    end;
    do 2 eexists; (split; [eassumption|]); (split; [eassumption|]);
    unfold direct_payments, unlocked_share in *; simpl in *;
    repeat case_decide; try congruence; try tauto;
    match goal with
    | E : immediateTransfer _ = _ |- _ => rewrite E
    end;
    splits; auto; try tauto.
Qed.

(** What an escrow purchase pays, delivers and books. *)
Lemma escrow_books m w investor paymentAmount paymentToken s s' acts
    tokenAmount :
  purchaseWithEscrow m w investor paymentAmount paymentToken s
  = Some (s', acts, tokenAmount) →
  ∃ fee recipient,
    calculatePlatformFee w paymentAmount s = Some (fee, recipient)
    ∧ fee < paymentAmount
    ∧ isValidEscrow w (sender m) = true
    ∧ (if decide (paymentToken = 0) then value m = paymentAmount
       else value m = 0)
    ∧ admin s' = admin s
    ∧ totalPurchasesInCurrency s'
      = <[paymentToken := word (totalPurchasesInCurrency s) paymentToken
                          + (paymentAmount - fee)]>
          (totalPurchasesInCurrency s)
    ∧ paidAmount s'
      = (if immediateTransfer s then paidAmount s
         else <[(investor, paymentToken) :=
                  word (paidAmount s) (investor, paymentToken)
                  + (paymentAmount - fee)]> (paidAmount s))
    ∧ (hasParticipated s', totalParticipants s')
      = (if flag (hasParticipated s) investor
         then (hasParticipated s, totalParticipants s)
         else (<[investor := true]> (hasParticipated s),
               totalParticipants s + 1))
    ∧ acts = escrow_payments paymentToken (sender m) paymentAmount fee
               recipient s
             ++ handover investor (unlocked_share tokenAmount s)
                  (tokenBalance w)
    ∧ (tokenBalance w < unlocked_share tokenAmount s → hasMinterRole w = true)
    ∧ lockedBalanceOf s'
      = (if decide (0 < tokenAmount - unlocked_share tokenAmount s)
         then <[investor := word (lockedBalanceOf s) investor
                            + (tokenAmount - unlocked_share tokenAmount s)]>
                (lockedBalanceOf s)
         else lockedBalanceOf s).
Proof.
  intros H. inv_books H;
    match goal with
    | D : deliver _ _ _ = Some _ |- _ =>
        apply deliver_exact in D as (-> & ? & ?)
    end;
    do 2 eexists; (split; [first [eassumption | reflexivity]|]);
    unfold escrow_payments, unlocked_share in *; simpl in *;
    repeat case_decide; try congruence; try tauto; try lia;
    match goal with
    | E : immediateTransfer _ = _ |- _ => rewrite E
    end;
    splits; auto; try tauto; try lia.
Qed.

Lemma unlock_exact m w s s' acts :
  unlock m w s = Some (s', acts) →
  s' = set_lockedBalanceOf (<[sender m := 0]> (lockedBalanceOf s)) s.
Proof. unfold unlock. intros H. inv_some; reflexivity. Qed.

Lemma claimBack_books m w currency s s' acts :
  claimBack m w currency s = Some (s', acts) →
  admin s' = admin s ∧ books s' = books s
  ∧ paidAmount s' = <[(sender m, currency) := 0]> (paidAmount s).
Proof. intros H. inv_exec H; repeat case_decide; simpl; auto. Qed.

Lemma exec_housekeeping_books m w c s s' acts :
  trades c = false → exec m w c s = Some (s', acts) → books s' = books s.
Proof.
  intros T H. destruct c; try discriminate T; inv_exec H; reflexivity.
Qed.

Lemma exec_trade_admin m w c s s' acts :
  trades c = true → exec m w c s = Some (s', acts) → admin s' = admin s.
Proof.
  intros T H. destruct c; try discriminate T; simpl in H.
  - inv_some. apply escrow_books in E as (? & ? & E). apply E.
  - apply purchase_books in H as (? & ? & H). apply H.
  - apply unlock_exact in H. subst. reflexivity.
  - apply claimBack_books in H. apply H.
  - rewrite claimBack_legacy_eq in H. apply claimBack_books in H. apply H.
Qed.

Lemma admin_fields s s' :
  admin s' = admin s →
  owner s' = owner s ∧ paused s' = paused s
  ∧ serviceContract s' = serviceContract s
  ∧ userWhitelist s' = userWhitelist s
  ∧ tokenWhitelist s' = tokenWhitelist s
  ∧ isUserWhitelisted s' = isUserWhitelisted s
  ∧ isTokenWhitelisted s' = isTokenWhitelisted s.
Proof. unfold admin. intros H. inv_some. splits; congruence. Qed.

Lemma books_fields s s' :
  books s' = books s →
  totalPurchasesInCurrency s' = totalPurchasesInCurrency s
  ∧ totalParticipants s' = totalParticipants s
  ∧ hasParticipated s' = hasParticipated s.
Proof. unfold books. intros H. inv_some. splits; congruence. Qed.

(** Where the fee of [calculatePlatformFee] comes from. *)
Ltac by_answers H :=
  unfold calculatePlatformFee, resolved, tried in H;
  repeat match type of H with
  | context [match ?x with Returned _ => _ | Caught => _ | Uncaught => _ end] =>
      let E := fresh "E" in destruct x eqn:E
  | context [if decide ?P then _ else _] => destruct (decide P)
  end; simpl in H.

Lemma fee_source w amount s fee recipient :
  calculatePlatformFee w amount s = Some (fee, recipient) →
  (fee = 0 ∧ recipient = 0)
  ∨ (recipient ≠ 0 ∧ serviceContract s ≠ 0
     ∧ ∃ rate, 0 < rate ∧ amount * rate <= MAX_UINT256
         ∧ fee = (amount * rate) / 10000
         ∧ (minimalCommissionRate w 1 = Returned rate
            ∨ (minimalCommissionRate w 1 = Caught
               ∧ (getCommissionRate w (tenantId s) 1 = Returned rate
                  ∨ getCommissionRate w 0 1 = Returned rate)))).
Proof.
  intros H. by_answers H; inv_some; auto; try lia; try tauto;
  right; (split; [tauto|]); (split; [assumption|]);
  eexists; (split; [intuition eassumption|]);
  (split; [eassumption|]); (split; [reflexivity|]); auto.
Qed.

Lemma delivered_handover to unlocked held :
  delivered to (handover to unlocked held) = unlocked.
Proof.
  unfold handover. repeat case_decide; simpl; repeat case_decide;
    try congruence; lia.
Qed.

Lemma delivered_direct_payments to currency buyer fee recipient base s :
  delivered to (direct_payments currency buyer fee recipient base s) = 0.
Proof.
  unfold direct_payments. destruct (immediateTransfer s);
    repeat case_decide; reflexivity.
Qed.

Lemma delivered_escrow_payments to token escrow paymentAmount fee recipient s :
  delivered to (escrow_payments token escrow paymentAmount fee recipient s) = 0.
Proof.
  unfold escrow_payments. destruct (immediateTransfer s);
    repeat case_decide; reflexivity.
Qed.

(** The whitelist loops. *)
Lemma flag_insert `{Countable K} (m : gmap K bool) (k a : K) (v : bool) :
  flag (<[k := v]> m) a = if decide (k = a) then v else flag m a.
Proof.
  unfold flag. case_decide.
  - subst. rewrite lookup_insert_eq. reflexivity.
  - rewrite lookup_insert_ne by assumption. reflexivity.
Qed.

Lemma pushNew_spec l arr on arr' on' :
  pushNew l (arr, on) = (arr', on') →
  arr `prefix_of` arr'
  ∧ (∀ a, flag on' a = true ↔ flag on a = true ∨ a ∈ l)
  ∧ (∀ a, a ∈ arr' → a ∈ arr ∨ (a ∈ l ∧ flag on a = false)).
Proof.
  revert arr on. induction l as [|x l IH]; intros arr on H.
  - unfold pushNew in H. simpl in H. inv_some. splits; auto.
    intros a. rewrite elem_of_nil. tauto.
  - change (pushNew (x :: l) (arr, on))
      with (pushNew l (if flag on x then (arr, on)
                       else (arr ++ [x], <[x := true]> on))) in H.
    destruct (flag on x) eqn:F.
    + apply IH in H as (P & Fl & In). splits; auto.
      * intros a. rewrite Fl, elem_of_cons. split; [tauto|].
        intros [?|[->|?]]; auto.
      * intros a I. apply In in I as [?|[? ?]]; auto.
        right. rewrite elem_of_cons. auto.
    + apply IH in H as (P & Fl & In). splits.
      * etransitivity; [|exact P]. apply prefix_app_r. reflexivity.
      * intros a. rewrite Fl, flag_insert, elem_of_cons.
        case_decide; subst; split; auto; try tauto;
          intros [?|[->|?]]; auto; congruence.
      * intros a I. apply In in I as [I|[I Fa]].
        -- rewrite elem_of_app, list_elem_of_singleton in I.
           destruct I as [? | ->]; auto. right. rewrite elem_of_cons. auto.
        -- rewrite flag_insert in Fa. case_decide; [discriminate|].
           right. rewrite elem_of_cons. auto.
Qed.

Lemma clearAll_spec l on a :
  flag (clearAll l on) a = if decide (a ∈ l) then false else flag on a.
Proof.
  revert on. induction l as [|x l IH]; intros on.
  - change (clearAll [] on) with on.
    case_decide; [|reflexivity]. exfalso. eapply elem_of_nil. eassumption.
  - change (clearAll (x :: l) on) with (clearAll l (<[x := false]> on)).
    rewrite IH, flag_insert.
    repeat case_decide; subst; auto;
      rewrite elem_of_cons in *; exfalso; intuition congruence.
Qed.

Lemma pushAll_spec l arr on :
  ∃ on', pushAll l (arr, on) = (arr ++ l, on')
    ∧ ∀ a, flag on' a = true ↔ flag on a = true ∨ a ∈ l.
Proof.
  revert arr on. induction l as [|x l IH]; intros arr on.
  - exists on. unfold pushAll. simpl. rewrite app_nil_r. split; auto.
    intros a. rewrite elem_of_nil. tauto.
  - change (pushAll (x :: l) (arr, on))
      with (pushAll l (arr ++ [x], <[x := true]> on)).
    destruct (IH (arr ++ [x]) (<[x := true]> on)) as (on' & E & F).
    exists on'. rewrite E, <- app_assoc. split; [reflexivity|].
    intros a. rewrite F, flag_insert, elem_of_cons.
    case_decide; subst; intuition congruence.
Qed.

Lemma exec_whitelists_grow m w c s s' acts :
  exec m w c s = Some (s', acts) →
  userWhitelist s `prefix_of` userWhitelist s'
  ∧ tokenWhitelist s `prefix_of` tokenWhitelist s'.
Proof.
  intros H. destruct (trades c) eqn:Tr.
  - apply (exec_trade_admin _ _ _ _ _ _ Tr) in H.
    apply admin_fields in H as (_ & _ & _ & -> & -> & _). split; reflexivity.
  - destruct c; try discriminate Tr; simpl in H;
      try (inv_exec H; split; reflexivity).
    + unfold addToUserWhitelist in H.
      destruct (pushNew users (userWhitelist s, isUserWhitelisted s))
        as [us fs] eqn:P.
      inv_some. simpl. split; [|reflexivity].
      apply pushNew_spec in P as (P & _). exact P.
    + unfold addToTokenWhitelist in H.
      destruct (pushNew tokens (tokenWhitelist s, isTokenWhitelisted s))
        as [us fs] eqn:P.
      inv_some. simpl. split; [reflexivity|].
      apply pushNew_spec in P as (P & _). exact P.
Qed.

(** What the calls do to the total and to the lockup flag. *)
Lemma exec_totalPurchases_mono m w c s s' acts :
  exec m w c s = Some (s', acts) → totalPurchases s <= totalPurchases s'.
Proof.
  intros H. destruct (trades c) eqn:Tr.
  - destruct c; try discriminate Tr; simpl in H.
    + inv_some.
      apply purchaseWithEscrow_effect in E
        as (? & ? & _ & _ & _ & _ & _ & _ & _ & _ & _ & T & _).
      lia.
    + apply purchase_effect in H as (_ & _ & _ & _ & _ & T & _). lia.
    + apply unlock_effect in H as (_ & _ & T & _). lia.
    + apply claimBack_effect in H as (_ & _ & T & _). lia.
    + rewrite claimBack_legacy_eq in H.
      apply claimBack_effect in H as (_ & _ & T & _). lia.
  - apply (exec_housekeeping m w c s s' acts Tr) in H as (_ & Lg & _).
    apply ledger_fields in Lg as (T & _). lia.
Qed.

Lemma steps_totalPurchases_mono s0 s :
  steps s0 s → totalPurchases s0 <= totalPurchases s.
Proof.
  induction 1 as [|s m w c s' acts R IH X]; [lia|].
  apply exec_totalPurchases_mono in X. lia.
Qed.

Lemma exec_flag_sticky m w c s s' acts :
  exec m w c s = Some (s', acts) →
  lockupTVLReached s = true → lockupTVLReached s' = true.
Proof.
  intros H R. destruct (trades c) eqn:Tr.
  - destruct c; try discriminate Tr; simpl in H.
    + inv_some.
      apply purchaseWithEscrow_effect in E
        as (? & ? & _ & _ & _ & _ & _ & F & _).
      congruence.
    + apply purchase_effect in H as (_ & F & _). congruence.
    + apply unlock_effect in H as (_ & F & _). congruence.
    + apply claimBack_effect in H as (_ & F & _). congruence.
    + rewrite claimBack_legacy_eq in H.
      apply claimBack_effect in H as (_ & F & _). congruence.
  - apply (exec_housekeeping m w c s s' acts Tr) in H as (_ & _ & F). auto.
Qed.

Lemma later_steps_steps t s0 s : later_steps t s0 s → steps s0 s.
Proof.
  induction 1 as [|s m w c s' acts R IH L X]; [constructor|].
  exact (steps_call s0 s m w c s' acts IH X).
Qed.

Lemma failed_later t now s :
  state t s = Some Failed → t <= now → state now s = Some Failed.
Proof.
  unfold state. intros F L. case_decide; [discriminate|].
  destruct (checked_add (createdAt s) (duration s)) as [dl|];
    [|discriminate]. simpl in *.
  repeat case_decide; try discriminate; try reflexivity; lia.
Qed.

Lemma exec_failed m w c s s' acts :
  state (timestamp m) s = Some Failed →
  exec m w c s = Some (s', acts) →
  totalPurchases s' = totalPurchases s.
Proof.
  intros F H. destruct (trades c) eqn:Tr.
  - destruct c; try discriminate Tr; simpl in H.
    + inv_some.
      apply purchaseWithEscrow_effect in E
        as (? & ? & _ & _ & _ & _ & _ & _ & A & _).
      congruence.
    + apply purchase_effect in H as (_ & _ & A & _). congruence.
    + apply unlock_effect in H as (_ & _ & T & _). exact T.
    + apply claimBack_effect in H as (_ & _ & T & _). exact T.
    + rewrite claimBack_legacy_eq in H.
      apply claimBack_effect in H as (_ & _ & T & _). exact T.
  - apply (exec_housekeeping m w c s s' acts Tr) in H as (_ & Lg & _).
    apply ledger_fields in Lg as (T & _). exact T.
Qed.

Lemma later_steps_failed t s0 s :
  state t s0 = Some Failed → later_steps t s0 s →
  totalPurchases s = totalPurchases s0 ∧ state t s = Some Failed.
Proof.
  intros F R. induction R as [|s m w c s' acts R [T IH] L X]; [auto|].
  pose proof (exec_config _ _ _ _ _ _ X) as C.
  pose proof (exec_failed m w c s s' acts (failed_later _ _ _ IH L) X) as E.
  split; [congruence|].
  rewrite (state_ext t s s' C E). exact IH.
Qed.

(** The participant bookkeeping along the calls. *)
Lemma counted_same s s' :
  totalParticipants s' = totalParticipants s →
  hasParticipated s' = hasParticipated s →
  (∀ a, word (purchaseOf s') a <= word (purchaseOf s) a) →
  counted s → counted s'.
Proof.
  unfold counted. intros T H P (C & V & B). rewrite T, H.
  splits; auto. intros a L. apply B. specialize (P a). lia.
Qed.

Lemma counted_buy buyer total s s' :
  (hasParticipated s', totalParticipants s')
  = (if flag (hasParticipated s) buyer
     then (hasParticipated s, totalParticipants s)
     else (<[buyer := true]> (hasParticipated s), totalParticipants s + 1)) →
  purchaseOf s' = <[buyer := total]> (purchaseOf s) →
  counted s → counted s'.
Proof.
  unfold counted. intros E P (C & V & B). rewrite P.
  destruct (flag (hasParticipated s) buyer) eqn:F; simplify_eq.
  - match goal with
    | X : hasParticipated s' = _, Y : totalParticipants s' = _ |- _ =>
        rewrite X, Y
    end.
    splits; auto. intros a. unfold word.
    destruct (decide (a = buyer)) as [->|N]; [auto|].
    rewrite lookup_insert_ne by auto. apply B.
  - match goal with
    | X : hasParticipated s' = _, Y : totalParticipants s' = _ |- _ =>
        rewrite X, Y
    end.
    assert (M : hasParticipated s !! buyer = None).
    { unfold flag in F. destruct (hasParticipated s !! buyer) as [v|] eqn:L;
        [|reflexivity].
      pose proof (V _ _ L). simpl in F. congruence. }
    splits.
    + rewrite map_size_insert_None by exact M. lia.
    + intros a v. destruct (decide (a = buyer)) as [->|N].
      * rewrite lookup_insert_eq. congruence.
      * rewrite lookup_insert_ne by auto. apply V.
    + intros a. unfold word, flag.
      destruct (decide (a = buyer)) as [->|N].
      * rewrite !lookup_insert_eq. reflexivity.
      * rewrite !lookup_insert_ne by auto. apply B.
Qed.

Lemma exec_counted m w c s s' acts :
  exec m w c s = Some (s', acts) → counted s → counted s'.
Proof.
  intros H. destruct (trades c) eqn:Tr.
  - destruct c; try discriminate Tr; simpl in H.
    + inv_some.
      pose proof (purchaseWithEscrow_effect _ _ _ _ _ _ _ _ _ E)
        as (? & ? & _ & _ & _ & _ & _ & _ & _ & _ & _ & _ & _ & Po & _).
      apply escrow_books in E
        as (? & ? & _ & _ & _ & _ & _ & _ & _ & Bk & _).
      exact (counted_buy _ _ _ _ Bk Po).
    + pose proof (purchase_effect _ _ _ _ _ _ _ H)
        as (_ & _ & _ & _ & _ & _ & _ & Po & _).
      apply purchase_books in H
        as (? & ? & _ & _ & _ & _ & _ & _ & Bk & _).
      exact (counted_buy _ _ _ _ Bk Po).
    + apply unlock_exact in H. subst.
      apply counted_same; simpl; auto; intros; lia.
    + pose proof (claimBack_effect _ _ _ _ _ _ H)
        as (_ & _ & _ & _ & _ & _ & _ & Z & _ & O & _).
      apply claimBack_books in H as (_ & Bk & _).
      apply books_fields in Bk as (_ & T & Hp).
      apply counted_same; auto. intros a.
      destruct (decide (a = sender m)) as [->|N]; [lia|].
      destruct (O a N) as [-> _]. lia.
    + rewrite claimBack_legacy_eq in H.
      pose proof (claimBack_effect _ _ _ _ _ _ H)
        as (_ & _ & _ & _ & _ & _ & _ & Z & _ & O & _).
      apply claimBack_books in H as (_ & Bk & _).
      apply books_fields in Bk as (_ & T & Hp).
      apply counted_same; auto. intros a.
      destruct (decide (a = sender m)) as [->|N]; [lia|].
      destruct (O a N) as [-> _]. lia.
  - pose proof (exec_housekeeping_books _ _ _ _ _ _ Tr H) as Bk.
    apply (exec_housekeeping m w c s s' acts Tr) in H as (_ & Lg & _).
    apply books_fields in Bk as (_ & T & Hp).
    apply ledger_fields in Lg as (_ & Po & _).
    apply counted_same; auto. intros a. rewrite Po. lia.
Qed.

Lemma initialize_counted m w owner_ token_ info tid sc imm s0 acts :
  initialize m w owner_ token_ info tid sc imm = Some (s0, acts) →
  counted s0.
Proof.
  unfold initialize, counted. intros H. inv_some; simpl; splits;
    try reflexivity; intros a; rewrite ?lookup_empty; try discriminate;
    unfold word; rewrite lookup_empty; simpl; lia.
Qed.

(** The further scenarios. *)
Lemma released_run :
  exec (at_time 1 0 2500) market (SetLockupTVLReachedForced true) bought
  = Some (released, []).
Proof. vm_compute. reflexivity. Qed.

Lemma unlocked_run :
  exec (at_time 7 0 3000) market Unlock released
  = Some (unlocked, [TokenTransfer 7 50]).
Proof. vm_compute. reflexivity. Qed.

Lemma sold_run :
  exec (at_time 8 512 2500) market (Purchase 0 500) bought
  = Some (sold, [Pay 0 99 12; TokenTransfer 8 30; TokenMint 8 220]).
Proof. vm_compute. reflexivity. Qed.

Lemma halted_run :
  exec (at_time 1 0 95000) market Pause sold = Some (halted, []).
Proof. vm_compute. reflexivity. Qed.

Lemma listed_open :
  initialize (at_time 1 0 1000) market 1 2 gated_offering 0 50 false
  = Some (listed, []).
Proof. vm_compute. reflexivity. Qed.

Lemma listed_run :
  exec (at_time 1 0 1500) market (AddToUserWhitelist [7; 8; 7]) opened
  = Some (listed, []).
Proof. vm_compute. reflexivity. Qed.

Lemma delisted_run :
  exec (at_time 1 0 1600) market (RemoveFromUserWhitelist [7; 8]) listed
  = Some (delisted, []).
Proof. vm_compute. reflexivity. Qed.

Lemma steps_one m w c s s' acts :
  exec m w c s = Some (s', acts) → steps s s'.
Proof. intros X. exact (steps_call s s m w c s' acts (steps_refl s) X). Qed.

Lemma bought_direct :
  purchase (at_time 7 102 2000) market 0 100 opened
  = Some (bought, [Pay 0 99 2; TokenTransfer 7 30; TokenMint 7 20]).
Proof. exact bought_run. Qed.

Lemma refunded_direct :
  claimBack (at_time 7 0 90000) market 0 bought
  = Some (refunded, [Pay 0 7 100]).
Proof. exact refunded_run. Qed.

Lemma unlocked_direct :
  unlock (at_time 7 0 3000) market released
  = Some (unlocked, [TokenTransfer 7 50]).
Proof. exact unlocked_run. Qed.

Lemma listed_direct :
  addToUserWhitelist (at_time 1 0 1500) [7; 8; 7] opened = Some (listed, []).
Proof. exact listed_run. Qed.

Lemma delisted_direct :
  removeFromUserWhitelist (at_time 1 0 1600) [7; 8] listed
  = Some (delisted, []).
Proof. exact delisted_run. Qed.

(** ** The platform fee *)

(** X9. [calculatePlatformFee] never charges a fee without a
    recipient: a zero recipient comes with a zero fee, and a nonzero fee
    comes with a nonzero recipient, a service contract that is set, and a
    nonzero rate of which the fee is [amount * rate / 10000], rounded
    down. *)
Theorem fee_names_its_recipient w amount s fee recipient :
  calculatePlatformFee w amount s = Some (fee, recipient) →
  (recipient = 0 → fee = 0)
  ∧ (0 < fee → recipient ≠ 0 ∧ serviceContract s ≠ 0
     ∧ ∃ rate, 0 < rate ∧ fee = (amount * rate) / 10000).
Proof.
  intros H. apply fee_source in H as [[-> ->]|(R & S & rate & P & _ & F & _)].
  - split; [reflexivity|lia].
  - split; [congruence|]. intros _. splits; auto. exists rate. auto.
Qed.

Lemma fee_names_its_recipient_witness :
  calculatePlatformFee market 100 opened = Some (2, 99)
  ∧ 99 ≠ 0 ∧ serviceContract opened ≠ 0
  ∧ ∃ rate, 0 < rate ∧ 2 = (100 * rate) / 10000.
Proof.
  assert (F : calculatePlatformFee market 100 opened = Some (2, 99))
    by reflexivity.
  assert (P : 0 < 2) by lia.
  split; [exact F|].
  exact (proj2 (fee_names_its_recipient market 100 opened 2 99 F) P).
Defined.

(** X10. With no service contract set, [calculatePlatformFee] answers a
    zero fee and the zero recipient. With one set, it answers the same when
    the three rate calls revert and the platform recipient call answers or
    reverts: [catch] handles these. It reverts when the first oracle call
    fails in a way [catch] does not handle, as on a service contract
    address without code. *)
Theorem fee_under_failing_oracle w amount s :
  (serviceContract s = 0
   ∨ (minimalCommissionRate w 1 = Caught
      ∧ getCommissionRate w (tenantId s) 1 = Caught
      ∧ getCommissionRate w 0 1 = Caught
      ∧ getFeeRecipient w 0 0 ≠ Uncaught) →
   calculatePlatformFee w amount s = Some (0, 0))
  ∧ (serviceContract s ≠ 0 → minimalCommissionRate w 1 = Uncaught →
     calculatePlatformFee w amount s = None).
Proof.
  split.
  - intros H.
    destruct (calculatePlatformFee w amount s) as [[fee r]|] eqn:X.
    + apply fee_source in X as [[-> ->]|(_ & S & rate & _ & _ & _ & Src)];
        [reflexivity|].
      exfalso. destruct H as [H|(A & B & C & _)]; [congruence|].
      destruct Src as [Src|(_ & [Src|Src])]; congruence.
    + exfalso. destruct H as [H|(A & B & C & D)].
      * unfold calculatePlatformFee in X.
        case_decide; [discriminate|congruence].
      * by_answers X; try discriminate; congruence.
  - intros S U. unfold calculatePlatformFee. rewrite U.
    case_decide; [congruence|reflexivity].
Qed.

Lemma fee_under_failing_oracle_witness :
  (minimalCommissionRate silent 1 = Caught
   ∧ calculatePlatformFee silent 100 opened = Some (0, 0))
  ∧ calculatePlatformFee market 100 (set_serviceContract 0 opened)
    = Some (0, 0)
  ∧ (serviceContract opened ≠ 0
     ∧ minimalCommissionRate vacant 1 = Uncaught
     ∧ calculatePlatformFee vacant 100 opened = None).
Proof.
  assert (S : serviceContract opened ≠ 0) by (simpl; lia).
  split; [split; [reflexivity|]|split; [|split; [exact S|split;
    [reflexivity|]]]].
  - apply (proj1 (fee_under_failing_oracle silent 100 opened)). right.
    splits; try reflexivity. discriminate.
  - apply (proj1 (fee_under_failing_oracle market 100
                    (set_serviceContract 0 opened))). left. reflexivity.
  - exact (proj2 (fee_under_failing_oracle vacant 100 opened) S eq_refl).
Defined.

(** X11. When the minimal interface of the fee oracle
    answers a rate, the fee depends on that rate and on the minimal
    interface's recipient only: the tenant's rate and recipient on the full
    interface are not consulted, and an unresolved recipient gives a zero
    fee. *)
Theorem minimal_rate_hides_full_interface w w' amount s rate :
  minimalCommissionRate w 1 = Returned rate →
  minimalCommissionRate w' 1 = Returned rate →
  minimalFeeRecipient w 1 = minimalFeeRecipient w' 1 →
  calculatePlatformFee w amount s = calculatePlatformFee w' amount s
  ∧ (resolved (minimalFeeRecipient w 1) = Some 0 →
     calculatePlatformFee w amount s = Some (0, 0)).
Proof.
  intros M M' R. unfold calculatePlatformFee. rewrite M, M', R.
  split; [reflexivity|]. rewrite <- R. intros Z. rewrite Z. simpl.
  repeat case_decide; try reflexivity. tauto.
Qed.

Lemma minimal_rate_hides_full_interface_witness :
  getCommissionRate market 0 1 = Caught
  ∧ getCommissionRate loud 0 1 = Returned 9000
  ∧ calculatePlatformFee market 100 opened
    = calculatePlatformFee loud 100 opened.
Proof.
  split; [reflexivity|]. split; [reflexivity|].
  exact (proj1 (minimal_rate_hides_full_interface market loud 100 opened 250
                  eq_refl eq_refl eq_refl)).
Defined.

(** X12. With a rate of 100% and a fee recipient, every
    escrow purchase reverts, whatever the payment: the net amount would be
    zero. *)
Theorem full_rate_blocks_escrow_purchases m w investor paymentAmount
    paymentToken s :
  serviceContract s ≠ 0 →
  minimalCommissionRate w 1 = Returned 10000 →
  resolved (minimalFeeRecipient w 1) ≠ Some 0 →
  purchaseWithEscrow m w investor paymentAmount paymentToken s = None.
Proof.
  intros S M R.
  destruct (purchaseWithEscrow m w investor paymentAmount paymentToken s)
    as [[[s' acts] t]|] eqn:X; [|reflexivity].
  exfalso. apply purchaseWithEscrow_effect in X as (fee & r & F & L & _).
  unfold calculatePlatformFee in F. rewrite M in F. simpl in F.
  case_decide; [congruence|].
  destruct (resolved (minimalFeeRecipient w 1)) as [r0|]; [|discriminate].
  simpl in F. case_decide; [|exfalso; apply R; f_equal; lia].
  inv_some. rewrite N.div_mul in L by lia. lia.
Qed.

Lemma full_rate_blocks_escrow_purchases_witness :
  serviceContract bought ≠ 0
  ∧ minimalCommissionRate greedy 1 = Returned 10000
  ∧ purchaseWithEscrow (at_time 61 51 3000) greedy 7 51 0 bought = None.
Proof.
  assert (S : serviceContract bought ≠ 0) by (simpl; lia).
  assert (R : resolved (minimalFeeRecipient greedy 1) ≠ Some 0)
    by (vm_compute; discriminate).
  split; [exact S|]. split; [reflexivity|].
  exact (full_rate_blocks_escrow_purchases (at_time 61 51 3000) greedy 7 51 0
           bought S eq_refl R).
Defined.

(** ** Purchases *)

(** X13. A successful [purchase] of [amount] tokens costs
    [amount * price / 1e18] plus the fee on it: exactly that as [msg.value],
    or at most the allowance in a token. Its transfers are the fee to the
    fee recipient, the base payment to the owner or (vault mode) into the
    sale, then the unlocked tokens; the base payment is added to the
    currency total, and in vault mode to the buyer's refundable
    [paidAmount]. *)
Theorem direct_purchase_payment m w currency amount s s' acts :
  purchase m w currency amount s = Some (s', acts) →
  ∃ fee recipient,
    calculatePlatformFee w ((amount * price s) / 10 ^ 18) s
    = Some (fee, recipient)
    ∧ (currency = 0 → value m = (amount * price s) / 10 ^ 18 + fee)
    ∧ (currency ≠ 0 → (amount * price s) / 10 ^ 18 + fee <= allowance w)
    ∧ acts = direct_payments currency (sender m) fee recipient
               ((amount * price s) / 10 ^ 18) s
             ++ handover (sender m) (unlocked_share amount s) (tokenBalance w)
    ∧ word (totalPurchasesInCurrency s') currency
      = word (totalPurchasesInCurrency s) currency
        + (amount * price s) / 10 ^ 18
    ∧ word (paidAmount s') (sender m, currency)
      = word (paidAmount s) (sender m, currency)
        + (if immediateTransfer s then 0 else (amount * price s) / 10 ^ 18).
Proof.
  intros H.
  apply purchase_books in H
    as (fee & r & _ & F & V & _ & C & P & _ & A & _).
  exists fee, r. splits; auto.
  - intros ->. case_decide; [exact V|congruence].
  - intros N. case_decide; [congruence|exact V].
  - rewrite C. by_word.
  - rewrite P. destruct (immediateTransfer s); by_word.
Qed.

Lemma direct_purchase_payment_witness :
  purchase (at_time 7 102 2000) market 0 100 opened
  = Some (bought, [Pay 0 99 2; TokenTransfer 7 30; TokenMint 7 20])
  ∧ [Pay 0 99 2; TokenTransfer 7 30; TokenMint 7 20]
    = direct_payments 0 7 2 99 100 opened
      ++ handover 7 (unlocked_share 100 opened) 30
  ∧ word (paidAmount bought) (7, 0) = word (paidAmount opened) (7, 0) + 100.
Proof.
  split; [exact bought_direct|].
  destruct (direct_purchase_payment _ _ _ _ _ _ _ bought_direct)
    as (fee & recipient & F & _ & _ & A & _ & P).
  vm_compute in F. injection F as <- <-. split; [exact A|exact P].
Defined.

(** X14. A successful [purchaseWithEscrow] comes from a valid
    escrow; its transfers are the gross payment in, the fee to the fee
    recipient, the net payment to the owner unless in vault mode, then the
    unlocked tokens; the net payment is added to the currency total, and in
    vault mode to the investor's refundable [paidAmount]. *)
Theorem escrow_purchase_payment m w investor paymentAmount paymentToken s s'
    acts tokenAmount :
  purchaseWithEscrow m w investor paymentAmount paymentToken s
  = Some (s', acts, tokenAmount) →
  ∃ fee recipient,
    calculatePlatformFee w paymentAmount s = Some (fee, recipient)
    ∧ isValidEscrow w (sender m) = true
    ∧ acts = escrow_payments paymentToken (sender m) paymentAmount fee
               recipient s
             ++ handover investor (unlocked_share tokenAmount s)
                  (tokenBalance w)
    ∧ word (totalPurchasesInCurrency s') paymentToken
      = word (totalPurchasesInCurrency s) paymentToken + (paymentAmount - fee)
    ∧ word (paidAmount s') (investor, paymentToken)
      = word (paidAmount s) (investor, paymentToken)
        + (if immediateTransfer s then 0 else paymentAmount - fee).
Proof.
  intros H.
  apply escrow_books in H as (fee & r & F & _ & V & _ & _ & C & P & _ & A & _).
  exists fee, r. splits; auto.
  - rewrite C. by_word.
  - rewrite P. destruct (immediateTransfer s); by_word.
Qed.

Lemma escrow_purchase_payment_witness :
  purchaseWithEscrow (at_time 61 51 3000) market 7 51 0 bought
  = Some (topped, [Pay 0 99 1; TokenTransfer 7 25], 50)
  ∧ isValidEscrow market 61 = true
  ∧ [Pay 0 99 1; TokenTransfer 7 25]
    = escrow_payments 0 61 51 1 99 bought
      ++ handover 7 (unlocked_share 50 bought) 30
  ∧ word (paidAmount topped) (7, 0) = word (paidAmount bought) (7, 0) + 50.
Proof.
  split; [exact topped_run|].
  destruct (escrow_purchase_payment _ _ _ _ _ _ _ _ _ topped_run)
    as (fee & recipient & F & V & A & _ & P).
  vm_compute in F. injection F as <- <-.
  split; [exact V|]. split; [exact A|exact P].
Defined.

(** X15. While the lockup flag is not set, a successful [purchase]
    delivers [amount * (10000 - lockupPercent) / 10000] tokens at once and
    adds the rest to the buyer's locked balance; [lockupPercent] is at most
    10000 on this path. *)
Theorem lockup_splits_purchase m w currency amount s s' acts :
  purchase m w currency amount s = Some (s', acts) →
  lockupTVLReached s = false →
  lockupPercent s <= 10000
  ∧ delivered (sender m) acts
    = (amount * (10000 - lockupPercent s)) / 10000
  ∧ word (lockedBalanceOf s') (sender m)
    = word (lockedBalanceOf s) (sender m)
      + (amount - (amount * (10000 - lockupPercent s)) / 10000).
Proof.
  intros H R.
  apply purchase_books in H
    as (fee & r & _ & _ & _ & _ & _ & _ & _ & -> & _ & U & Pc & ->).
  unfold unlocked_share in *. rewrite R in *.
  rewrite delivered_app, delivered_direct_payments, delivered_handover.
  splits; auto. case_decide; by_word.
Qed.

Lemma lockup_splits_purchase_witness :
  purchase (at_time 7 102 2000) market 0 100 opened
  = Some (bought, [Pay 0 99 2; TokenTransfer 7 30; TokenMint 7 20])
  ∧ lockupTVLReached opened = false
  ∧ delivered 7 [Pay 0 99 2; TokenTransfer 7 30; TokenMint 7 20]
    = (100 * (10000 - lockupPercent opened)) / 10000
  ∧ word (lockedBalanceOf bought) 7
    = word (lockedBalanceOf opened) 7
      + (100 - (100 * (10000 - lockupPercent opened)) / 10000).
Proof.
  split; [exact bought_direct|]. split; [reflexivity|].
  exact (proj2 (lockup_splits_purchase _ _ _ _ _ _ _ bought_direct eq_refl)).
Defined.

(** X16. A [purchase] transfers tokens to the buyer only,
    out of the sale's own balance first, and mints only the shortfall, only
    to the buyer and only when the sale has the minter role. *)
Theorem purchase_mints_only_shortfall m w currency amount s s' acts :
  purchase m w currency amount s = Some (s', acts) →
  (∀ to n, TokenTransfer to n ∈ acts →
     to = sender m ∧ n = N.min (unlocked_share amount s) (tokenBalance w))
  ∧ (∀ to n, TokenMint to n ∈ acts →
       to = sender m ∧ hasMinterRole w = true
       ∧ tokenBalance w < unlocked_share amount s
       ∧ n = unlocked_share amount s - tokenBalance w).
Proof.
  intros H.
  apply purchase_books in H
    as (fee & r & _ & _ & _ & _ & _ & _ & _ & -> & Rl & _).
  unfold direct_payments, handover.
  split; intros to n I; destruct (immediateTransfer s);
    repeat case_decide; simpl in I;
    rewrite ?elem_of_cons, ?elem_of_nil in I;
    repeat match goal with
    | X : _ ∨ _ |- _ => destruct X
    | X : False |- _ => destruct X
    end; simplify_eq; splits; auto; try lia;
    apply Rl; lia.
Qed.

Lemma purchase_mints_only_shortfall_witness :
  purchase (at_time 7 102 2000) market 0 100 opened
  = Some (bought, [Pay 0 99 2; TokenTransfer 7 30; TokenMint 7 20])
  ∧ hasMinterRole market = true
  ∧ tokenBalance market < unlocked_share 100 opened
  ∧ 20 = unlocked_share 100 opened - tokenBalance market.
Proof.
  split; [exact bought_direct|].
  assert (M : TokenMint 7 20
              ∈ [Pay 0 99 2; TokenTransfer 7 30; TokenMint 7 20]).
  { do 2 apply list_elem_of_further. apply list_elem_of_here. }
  exact (proj2 (proj2 (purchase_mints_only_shortfall _ _ _ _ _ _ _ bought_direct)
                  7 20 M)).
Defined.

(** X17. In every storage reachable from [initialize],
    [totalParticipants] is the number of addresses flagged in
    [hasParticipated], and every address with a purchase on record is
    flagged. *)
Theorem participants_are_counted s :
  reachable s →
  totalParticipants s = N.of_nat (size (hasParticipated s))
  ∧ ∀ a, 0 < word (purchaseOf s) a → flag (hasParticipated s) a = true.
Proof.
  intros (m & w & o & t & info & tid & sc & imm & s0 & acts & I & R).
  assert (C : counted s).
  { induction R as [|s1 m1 w1 c s2 acts1 R IH X].
    - exact (initialize_counted _ _ _ _ _ _ _ _ _ _ I).
    - exact (exec_counted _ _ _ _ _ _ X IH). }
  destruct C as (C & _ & B). split; [exact C|exact B].
Qed.

Lemma participants_are_counted_witness :
  reachable bought
  ∧ totalParticipants bought = N.of_nat (size (hasParticipated bought))
  ∧ (0 < word (purchaseOf bought) 7 → flag (hasParticipated bought) 7 = true).
Proof.
  split; [exact bought_reachable|].
  destruct (participants_are_counted bought bought_reachable) as [C B].
  split; [exact C|apply B].
Defined.

(** X18. In every storage reachable from [initialize],
    [maxPurchaseOf] does not revert, and answers what the account may still
    buy below [maxPurchase]. *)
Theorem maxPurchaseOf_leaves_room s account :
  reachable s →
  ∃ room, maxPurchaseOf account s = Some room
          ∧ word (purchaseOf s) account + room = maxPurchase s.
Proof.
  intros (m & w & o & t & info & tid & sc & imm & s0 & acts & I & R).
  assert (C : totalPurchases s <= hardcap s
              ∧ ∀ a, word (purchaseOf s) a <= maxPurchase s).
  { induction R as [|s1 m1 w1 c s2 acts1 R IH X].
    - apply initialize_effect in I as (T & P & _). rewrite T, P.
      split; [lia|]. intros a. unfold word. rewrite lookup_empty. simpl. lia.
    - exact (exec_capped _ _ _ _ _ _ X IH). }
  destruct C as [_ C]. specialize (C account).
  unfold maxPurchaseOf, checked_sub.
  rewrite option_guard_decide, decide_True by exact C.
  eexists. split; [reflexivity|]. lia.
Qed.

Lemma maxPurchaseOf_leaves_room_witness :
  reachable bought
  ∧ ∃ room, maxPurchaseOf 7 bought = Some room
            ∧ word (purchaseOf bought) 7 + room = maxPurchase bought.
Proof.
  split; [exact bought_reachable|].
  exact (maxPurchaseOf_leaves_room bought 7 bought_reachable).
Defined.

(** ** Unlocks and refunds *)

(** X19. A successful [unlock] transfers the caller's whole locked
    balance and zeroes it; a second [unlock] by the same caller then
    reverts. *)
Theorem unlock_only_once m w s s' acts :
  unlock m w s = Some (s', acts) →
  acts = [TokenTransfer (sender m) (word (lockedBalanceOf s) (sender m))]
  ∧ word (lockedBalanceOf s') (sender m) = 0
  ∧ ∀ m' w', sender m' = sender m → unlock m' w' s' = None.
Proof.
  intros H. pose proof (unlock_exact _ _ _ _ _ H) as ->.
  apply unlock_effect in H as (_ & _ & _ & _ & _ & _ & _ & _ & _ & ->).
  split; [reflexivity|]. simpl. split; [by_word|].
  intros m' w' S.
  destruct (unlock m' w' _) as [[s2 a2]|] eqn:X; [|reflexivity].
  apply unlock_effect in X as (_ & _ & _ & _ & _ & _ & _ & _ & P & _).
  simpl in P. rewrite S, word_insert in P. case_decide; [lia|congruence].
Qed.

Lemma unlock_only_once_witness :
  unlock (at_time 7 0 3000) market released
  = Some (unlocked, [TokenTransfer 7 50])
  ∧ word (lockedBalanceOf unlocked) 7 = 0
  ∧ unlock (at_time 7 0 4000) market unlocked = None.
Proof.
  split; [exact unlocked_direct|].
  destruct (unlock_only_once _ _ _ _ _ unlocked_direct) as (_ & Z & O).
  split; [exact Z|]. apply O. reflexivity.
Defined.

(** X20. Once [unlockAvailable] answers true, it answers true at
    every later time and after any calls: the lockup flag is never
    cleared. *)
Theorem unlock_stays_available now later s s' :
  unlockAvailable now s = Some true →
  steps s s' → now <= later →
  unlockAvailable later s' = Some true.
Proof.
  intros U R L.
  assert (F : lockupTVLReached s' = true).
  { assert (F0 : lockupTVLReached s = true).
    { unfold unlockAvailable in U. destruct (lockupTVLReached s);
        [reflexivity|discriminate]. }
    clear U. induction R as [|s1 m w c s2 acts R IH X]; [exact F0|].
    exact (exec_flag_sticky m w c s1 s2 acts X IH). }
  pose proof (steps_config _ _ R) as C.
  apply config_fields in C as (_ & _ & _ & _ & _ & _ & Ld & _ & A & _).
  unfold unlockAvailable in *. rewrite F, Ld, A.
  destruct (lockupTVLReached s); [|discriminate].
  destruct (checked_add (createdAt s) (lockupDuration s)) as [t|];
    [|discriminate]. simpl in *. inv_some.
  apply bool_decide_eq_true in U. f_equal. apply bool_decide_eq_true. lia.
Qed.

Lemma unlock_stays_available_witness :
  unlockAvailable 3000 released = Some true
  ∧ steps released unlocked
  ∧ unlockAvailable 5000 unlocked = Some true.
Proof.
  assert (U : unlockAvailable 3000 released = Some true) by reflexivity.
  assert (L : 3000 <= 5000) by lia.
  split; [exact U|]. split; [exact (steps_one _ _ _ _ _ _ unlocked_run)|].
  exact (unlock_stays_available _ _ _ _ U
           (steps_one _ _ _ _ _ _ unlocked_run) L).
Defined.

(** X21. A successful [claimBack] pays the caller's recorded
    [paidAmount] in that currency, leaves every other payment record as it
    was, and a second [claimBack] of the same currency by the same caller
    reverts. *)
Theorem claimBack_once_per_currency m w currency s s' acts :
  claimBack m w currency s = Some (s', acts) →
  acts = [Pay currency (sender m) (word (paidAmount s) (sender m, currency))]
  ∧ (∀ m' w', sender m' = sender m → claimBack m' w' currency s' = None)
  ∧ (∀ who other, (who, other) ≠ (sender m, currency) →
       word (paidAmount s') (who, other) = word (paidAmount s) (who, other)).
Proof.
  intros H. pose proof (claimBack_books _ _ _ _ _ _ H) as (_ & _ & P).
  apply claimBack_effect in H as (_ & _ & _ & _ & _ & _ & Z & _ & _ & _ & ->).
  split; [reflexivity|]. split.
  - intros m' w' S.
    destruct (claimBack m' w' currency s') as [[s2 a2]|] eqn:X;
      [|reflexivity].
    apply claimBack_effect in X as (_ & _ & _ & _ & _ & Q & _).
    rewrite S in Q. lia.
  - intros who other N. rewrite P. by_word.
Qed.

Lemma claimBack_once_per_currency_witness :
  claimBack (at_time 7 0 90000) market 0 bought
  = Some (refunded, [Pay 0 7 100])
  ∧ claimBack (at_time 7 0 95000) market 0 refunded = None.
Proof.
  split; [exact refunded_direct|].
  destruct (claimBack_once_per_currency _ _ _ _ _ _ refunded_direct)
    as (_ & O & _).
  apply O. reflexivity.
Defined.

(** X22. When a buyer's [purchase] is followed by a successful
    [claimBack] of the same currency, the sale is in vault mode, the refund
    is the earlier record plus the base price of the purchase (the fee is
    not returned), and the buyer's purchase and locked balance are
    zeroed. *)
Theorem failed_purchase_is_refunded m w currency amount s s1 acts1 m2 w2 s2
    acts2 :
  purchase m w currency amount s = Some (s1, acts1) →
  claimBack m2 w2 currency s1 = Some (s2, acts2) →
  sender m2 = sender m →
  immediateTransfer s = false
  ∧ acts2 = [Pay currency (sender m)
               (word (paidAmount s) (sender m, currency)
                + (amount * price s) / 10 ^ 18)]
  ∧ word (purchaseOf s2) (sender m) = 0
  ∧ word (lockedBalanceOf s2) (sender m) = 0.
Proof.
  intros P C S.
  pose proof (purchase_effect _ _ _ _ _ _ _ P) as (Cf & _).
  apply config_fields in Cf as (_ & _ & _ & _ & _ & _ & _ & _ & _ & I).
  apply purchase_books in P as (fee & r & _ & _ & _ & _ & _ & Pd & _).
  apply claimBack_effect in C as (_ & _ & _ & _ & V & _ & _ & Po & Lk & _ & ->).
  rewrite S in *. rewrite I in V. rewrite V in Pd. rewrite Pd.
  splits; auto. by_word.
Qed.

Lemma failed_purchase_is_refunded_witness :
  purchase (at_time 7 102 2000) market 0 100 opened
  = Some (bought, [Pay 0 99 2; TokenTransfer 7 30; TokenMint 7 20])
  ∧ claimBack (at_time 7 0 90000) market 0 bought
    = Some (refunded, [Pay 0 7 100])
  ∧ immediateTransfer opened = false
  ∧ word (purchaseOf refunded) 7 = 0
  ∧ word (lockedBalanceOf refunded) 7 = 0.
Proof.
  split; [exact bought_direct|]. split; [exact refunded_direct|].
  destruct (failed_purchase_is_refunded _ _ _ _ _ _ _ _ _ _ _ bought_direct
              refunded_direct eq_refl) as (I & _ & P & L).
  split; [exact I|]. split; [exact P|exact L].
Defined.

(** X23. After a successful [claimBack], [transferFunds] reverts at
    every later time, whatever calls are made in between: the owner cannot
    take the funds of a failed sale. *)
Theorem refund_excludes_sweep m w currency s s1 acts s2 m' w' currency' :
  claimBack m w currency s = Some (s1, acts) →
  later_steps (timestamp m) s1 s2 →
  timestamp m <= timestamp m' →
  transferFunds m' w' currency' s2 = None.
Proof.
  intros C R L.
  pose proof (claimBack_effect _ _ _ _ _ _ C) as (Cf & _ & T & F & _).
  assert (F1 : state (timestamp m) s1 = Some Failed).
  { rewrite (state_ext _ s s1 Cf T). exact F. }
  destruct (later_steps_failed _ s1 s2 F1 R) as [_ F2].
  apply (failed_later _ (timestamp m')) in F2; [|exact L].
  destruct (transferFunds m' w' currency' s2) as [[s3 a3]|] eqn:X;
    [|reflexivity].
  exfalso. unfold transferFunds, onlyState, onlyTenantManagerOrInitialOwner,
    nonpayable in X.
  rewrite F2 in X. inv_some; congruence.
Qed.

Lemma refund_excludes_sweep_witness :
  claimBack (at_time 7 0 90000) market 0 bought
  = Some (refunded, [Pay 0 7 100])
  ∧ transferFunds (at_time 1 0 95000) market 0 refunded = None.
Proof.
  split; [exact refunded_direct|].
  apply (refund_excludes_sweep _ _ _ _ _ _ refunded _ _ _ refunded_direct).
  - apply later_refl.
  - simpl. lia.
Defined.

(** ** The state of the sale *)

(** X24. A sale that is [Successful] at some time is
    [Successful] at every later time and after any calls. *)
Theorem successful_sale_stays_successful now later s s' :
  state now s = Some Successful →
  steps s s' → now <= later →
  state later s' = Some Successful.
Proof.
  intros S R L.
  pose proof (steps_config _ _ R) as C.
  pose proof (steps_totalPurchases_mono _ _ R) as T.
  apply config_fields in C as (_ & Hc & Sc & _ & _ & _ & _ & D & A & _).
  unfold state in *. rewrite Hc, Sc, D, A.
  case_decide.
  - case_decide; [reflexivity|lia].
  - destruct (checked_add (createdAt s) (duration s)) as [dl|];
      [|discriminate]. simpl in *.
    repeat case_decide; try discriminate; try reflexivity; lia.
Qed.

Lemma successful_sale_stays_successful_witness :
  state 90000 sold = Some Successful
  ∧ steps sold halted
  ∧ 90000 <= 99999
  ∧ state 99999 halted = Some Successful.
Proof.
  assert (S : state 90000 sold = Some Successful) by reflexivity.
  assert (L : 90000 <= 99999) by lia.
  split; [exact S|]. split; [exact (steps_one _ _ _ _ _ _ halted_run)|].
  split; [exact L|].
  exact (successful_sale_stays_successful _ _ _ _ S
           (steps_one _ _ _ _ _ _ halted_run) L).
Defined.

(** X25. A sale that is [Failed] at some time stays [Failed] at
    every later time, whatever calls are made from then on, and its
    [totalPurchases] no longer changes. *)
Theorem failed_sale_stays_failed t now s0 s :
  state t s0 = Some Failed →
  later_steps t s0 s → t <= now →
  state now s = Some Failed ∧ totalPurchases s = totalPurchases s0.
Proof.
  intros F R L. destruct (later_steps_failed t s0 s F R) as [T S].
  split; [exact (failed_later t now s S L)|exact T].
Qed.

Lemma failed_sale_stays_failed_witness :
  state 90000 bought = Some Failed
  ∧ later_steps 90000 bought refunded
  ∧ state 99999 refunded = Some Failed
  ∧ totalPurchases refunded = totalPurchases bought.
Proof.
  assert (F : state 90000 bought = Some Failed) by reflexivity.
  assert (R : later_steps 90000 bought refunded).
  { eapply later_call; [apply later_refl| |exact refunded_run]. simpl. lia. }
  assert (L : 90000 <= 99999) by lia.
  split; [exact F|]. split; [exact R|].
  exact (failed_sale_stays_failed _ _ _ _ F R L).
Defined.

(** ** Administration *)

(** X26. Every administrative entry point reverts unless the
    caller is the owner, with one exception: while no service contract is
    set, anyone may call [setServiceContract]. Once set, the service
    contract is never reset to the zero address. *)
Theorem only_owner_administers m w c s s' acts :
  trades c = false →
  exec m w c s = Some (s', acts) →
  (sender m = owner s
   ∨ (serviceContract s = 0 ∧ ∃ a, c = SetServiceContract a))
  ∧ (serviceContract s ≠ 0 → serviceContract s' ≠ 0).
Proof.
  intros T H. destruct c; try discriminate T; [|inv_exec H; auto ..].
  unfold exec, setServiceContract, hasTenantManagerRole in H. inv_some.
  simpl. split; [|auto].
  match goal with
  | G : _ ∨ _ |- _ => destruct G as [Z|R]
  end; [right; eauto|].
  case_decide; [discriminate|].
  apply bool_decide_eq_true in R. auto.
Qed.

Lemma only_owner_administers_witness :
  exec (at_time 1 0 95000) market Pause sold = Some (halted, [])
  ∧ (sender (at_time 1 0 95000) = owner sold
     ∨ (serviceContract sold = 0 ∧ ∃ a, Pause = SetServiceContract a))
  ∧ (serviceContract sold ≠ 0 → serviceContract halted ≠ 0).
Proof.
  split; [exact halted_run|].
  exact (only_owner_administers (at_time 1 0 95000) market Pause sold halted []
           eq_refl halted_run).
Defined.

(** X27. A successful [addToUserWhitelist] has a batch of at
    most [MAX_WHITELIST_BATCH]; it flags exactly the batch on top of the
    earlier flags, and appends to the array only batch entries that were not
    flagged. *)
Theorem added_users_are_whitelisted m users s s' acts :
  addToUserWhitelist m users s = Some (s', acts) →
  N.of_nat (length users) <= MAX_WHITELIST_BATCH
  ∧ userWhitelist s `prefix_of` userWhitelist s'
  ∧ (∀ a, flag (isUserWhitelisted s') a = true
          ↔ flag (isUserWhitelisted s) a = true ∨ a ∈ users)
  ∧ (∀ a, a ∈ userWhitelist s' →
          a ∈ userWhitelist s
          ∨ (a ∈ users ∧ flag (isUserWhitelisted s) a = false)).
Proof.
  unfold addToUserWhitelist, onlyTenantManagerOrInitialOwner. intros H.
  destruct (pushNew users (userWhitelist s, isUserWhitelisted s))
    as [arr on] eqn:P.
  inv_some. apply pushNew_spec in P as (A & B & C). simpl. auto.
Qed.

Lemma added_users_are_whitelisted_witness :
  addToUserWhitelist (at_time 1 0 1500) [7; 8; 7] opened = Some (listed, [])
  ∧ userWhitelist listed = [7; 8]
  ∧ flag (isUserWhitelisted listed) 8 = true.
Proof.
  split; [exact listed_direct|]. split; [reflexivity|].
  destruct (added_users_are_whitelisted _ _ _ _ _ listed_direct)
    as (_ & _ & F & _).
  apply F. right. apply list_elem_of_further, list_elem_of_here.
Defined.

(** X28. [removeFromUserWhitelist] clears the flags of the batch
    and leaves the array as it is: a caller who passes the whitelist check
    afterwards passed it before, so removing the last user does not reopen
    the sale to everybody. *)
Theorem removed_users_are_barred m users s s' acts :
  removeFromUserWhitelist m users s = Some (s', acts) →
  userWhitelist s' = userWhitelist s
  ∧ (∀ a, flag (isUserWhitelisted s') a
          = if decide (a ∈ users) then false
            else flag (isUserWhitelisted s) a)
  ∧ (∀ m', is_Some (onlyWhitelistedUser m' s') →
           is_Some (onlyWhitelistedUser m' s)).
Proof.
  unfold removeFromUserWhitelist, onlyTenantManagerOrInitialOwner. intros H.
  inv_some. simpl. splits; auto.
  - intros a. apply clearAll_spec.
  - unfold onlyWhitelistedUser. simpl. intros m' [? X].
    rewrite option_guard_decide in X.
    destruct (decide _) as [[Len|Fl]|] in X; [| |discriminate];
      rewrite option_guard_decide.
    + rewrite decide_True by auto. eauto.
    + rewrite clearAll_spec in Fl.
      destruct (decide (sender m' ∈ users)); [discriminate|].
      rewrite decide_True by auto. eauto.
Qed.

Lemma removed_users_are_barred_witness :
  removeFromUserWhitelist (at_time 1 0 1600) [7; 8] listed
  = Some (delisted, [])
  ∧ userWhitelist delisted = userWhitelist listed
  ∧ flag (isUserWhitelisted delisted) 7
    = if decide (7 ∈ [7; 8]) then false
      else flag (isUserWhitelisted listed) 7.
Proof.
  split; [exact delisted_direct|].
  destruct (removed_users_are_barred _ _ _ _ _ delisted_direct) as (A & F & _).
  split; [exact A|apply F].
Defined.

(** X29. [initialize] stores the two whitelists of the offering
    as given and flags exactly their entries. *)
Theorem initialize_sets_whitelists m w owner_ token_ info tid sc imm s0 acts :
  initialize m w owner_ token_ info tid sc imm = Some (s0, acts) →
  userWhitelist s0 = info_userWhitelist info
  ∧ tokenWhitelist s0 = info_tokenWhitelist info
  ∧ (∀ a, flag (isUserWhitelisted s0) a = true ↔ a ∈ info_userWhitelist info)
  ∧ (∀ a, flag (isTokenWhitelisted s0) a = true
          ↔ a ∈ info_tokenWhitelist info).
Proof.
  unfold initialize. intros H.
  destruct (pushAll_spec (info_userWhitelist info) [] ∅) as (uf & U & UF).
  destruct (pushAll_spec (info_tokenWhitelist info) [] ∅) as (tf & T & TF).
  rewrite U, T in H. simpl in H.
  assert (E : ∀ a : N, flag (∅ : gmap N bool) a = true ↔ False).
  { intros a. unfold flag. rewrite lookup_empty. simpl. split; [discriminate|tauto]. }
  inv_some; simpl; splits; auto; intros a; rewrite ?UF, ?TF, E; tauto.
Qed.

Lemma initialize_sets_whitelists_witness :
  initialize (at_time 1 0 1000) market 1 2 gated_offering 0 50 false
  = Some (listed, [])
  ∧ userWhitelist listed = info_userWhitelist gated_offering
  ∧ (flag (isUserWhitelisted listed) 9 = true
     ↔ 9 ∈ info_userWhitelist gated_offering).
Proof.
  split; [exact listed_open|].
  destruct (initialize_sets_whitelists _ _ _ _ _ _ _ _ _ _ listed_open)
    as (A & _ & F & _).
  split; [exact A|apply F].
Defined.

(** X30. Along any calls the two whitelist arrays only grow at
    the end: no entry point removes or reorders their entries. *)
Theorem whitelist_arrays_only_grow s s' :
  steps s s' →
  userWhitelist s `prefix_of` userWhitelist s'
  ∧ tokenWhitelist s `prefix_of` tokenWhitelist s'.
Proof.
  induction 1 as [|s1 m w c s2 acts R [U T] X]; [split; reflexivity|].
  apply exec_whitelists_grow in X as [U' T'].
  split; etrans; eassumption.
Qed.

Lemma whitelist_arrays_only_grow_witness :
  steps opened listed
  ∧ userWhitelist opened `prefix_of` userWhitelist listed
  ∧ tokenWhitelist opened `prefix_of` tokenWhitelist listed.
Proof.
  split; [exact (steps_one _ _ _ _ _ _ listed_run)|].
  exact (whitelist_arrays_only_grow _ _ (steps_one _ _ _ _ _ _ listed_run)).
Defined.

End SaleMore.
